(** * llmLoadBalancer: routing, retry and statistics engine

    A shallow embedding of [src/types.ts], [src/strategies.ts], the provider
    factory of [src/providers.ts] and the [LLMLoadBalancer] class, followed by
    the properties of the specification that were checked against it.

    Modelling conventions.
    - The request counters of a [ProviderStats] record start at 0 and are only
      ever incremented, so they are natural numbers. Latencies, averages,
      weights and the draw of [Math.random] are JavaScript numbers: IEEE 754
      binary64 values with their rounding, see [Number]. The comparison of
      the success ratio with 0.5 is made on the exact quotient of the two
      counters, which agrees with the rounded one while the counters stay
      below 2^53.
    - Optional numeric configuration fields are [option Z]; the JavaScript
      operator [||] treats [undefined] and [0] alike, see [jsOr].
    - The statistics object maps provider names to *references* to mutable
      records. The records live in an explicit heap, so that two maps holding
      the same reference observe the same record.
    - The statistics object is a plain object used as a dictionary, so a
      read of [stats[name]] also finds the members inherited from
      [Object.prototype], see [getProperty]. The adapter factory accepts
      none of these names, so the class never stores a record under one;
      [updateStats] called with such a name (an adapter error attributed to
      it) would write onto the inherited member, which is outside the model.
    - The constructor keeps the caller's configuration object. Balancers
      built on one configuration object share its provider list, see
      [peerExec] and [reachableShared]; [reachable] describes a balancer
      that is the only user of its configuration object. A caller writing
      to the configuration object directly is outside the model.
    - Everything outside the class (adapter replies, timers, the clock,
      [Math.random]) is supplied by an environment argument.
    - A public method runs from call to return without another call of the
      same balancer in between; overlapping calls are outside the model. *)

From Stdlib Require Import ZArith QArith String Ascii List DecimalString.
From Stdlib Require Floats.SpecFloat.
From stdpp Require Import gmap strings list.

Open Scope Z_scope.

(** ** JavaScript helpers *)

(** What a call can do: return a value or throw. *)
Inductive Completion (E A : Type) : Type :=
| Return (a : A)
| Throw (e : E).
Arguments Return {E A} a.
Arguments Throw {E A} e.

(** [x || y] on optional numbers: [undefined] and [0] are falsy. *)
Definition falsy (x : option Z) : bool :=
  match x with
  | Some v => v =? 0
  | None => true
  end.

Definition jsOr (x y : option Z) : option Z := if falsy x then y else x.

(** [x || d] where [d] is a non-zero literal. *)
Definition jsOrNum (x : option Z) (d : Z) : Z :=
  match x with
  | Some v => if v =? 0 then d else v
  | None => d
  end.

(** A JavaScript number: an IEEE 754 binary64 value. [SpecFloat] is the
    standard library's executable specification of that arithmetic, with
    rounding to nearest, ties to even. *)
Abbreviation number := SpecFloat.spec_float.

Module Number.
Definition prec : Z := 53.
Definition emax : Z := 1024.

Definition zero : number := SpecFloat.S754_zero false.

(** The number written as an integer literal, or the value of an integer
    counter or clock difference (exact below 2^53). *)
Definition ofZ (z : Z) : number := SpecFloat.binary_normalize prec emax z 0 false.

Definition ofNat (n : nat) : number := ofZ (Z.of_nat n).

Definition add : number -> number -> number := SpecFloat.SFadd prec emax.
Definition mul : number -> number -> number := SpecFloat.SFmul prec emax.
Definition div : number -> number -> number := SpecFloat.SFdiv prec emax.

(** [a <= b]; false when either side is [NaN]. *)
Definition leb : number -> number -> bool := SpecFloat.SFleb.

(** The number nearest to [n / d]: what a decimal literal such as [0.9]
    ([ratio 9 10]) denotes. *)
Definition ratio (n d : Z) : number := div (ofZ n) (ofZ d).

(** The falsy numbers: [+0], [-0] and [NaN]. *)
Definition falsy (x : number) : bool :=
  match x with
  | SpecFloat.S754_zero _ | SpecFloat.S754_nan => true
  | _ => false
  end.

(** The exact value of a finite number. *)
Definition toQ (x : number) : option Q :=
  match x with
  | SpecFloat.S754_zero _ => Some 0%Q
  | SpecFloat.S754_finite s m e =>
      Some ((if s then - inject_Z (Zpos m) else inject_Z (Zpos m)) * Qpower 2 e)%Q
  | _ => None
  end.
End Number.

(** [x || d] on an optional number, [d] a literal that is not falsy. *)
Definition jsOrNumber (x : option number) (d : number) : number :=
  match x with
  | Some v => if Number.falsy v then d else v
  | None => d
  end.

(** Template-literal rendering of an integer. *)
Definition numberToString (z : Z) : string :=
  NilZero.string_of_int (Z.to_int z).

(** [String.prototype.toLowerCase] on the ASCII letters. Every name accepted
    by [createProvider] is made of the letters a-z without k, and no
    character outside A-Z lowers to one of those, so this is exact for the
    comparison it feeds. *)
Definition lowerAscii (c : ascii) : ascii :=
  let n := nat_of_ascii c in
  if ((65 <=? n)%nat && (n <=? 90)%nat)%bool then ascii_of_nat (n + 32) else c.

Fixpoint toLowerCase (s : string) : string :=
  match s with
  | EmptyString => EmptyString
  | String c rest => String (lowerAscii c) (toLowerCase rest)
  end.

(** ** types.ts *)

Module LLMRequest.
Record t := mk {
  prompt : string;
  maxTokens : option Z;
  temperature : option number;
  topP : option number;
  stream : option bool
}.
End LLMRequest.

Module Usage.
Record t := mk {
  promptTokens : Z;
  completionTokens : Z;
  totalTokens : Z
}.
End Usage.

Module LLMResponse.
Record t := mk {
  content : string;
  usage : option Usage.t;
  model : string;
  provider : string;
  finishReason : option string
}.
End LLMResponse.

Module ProviderConfig.
Record t := mk {
  name : string;
  apiKey : string;
  model : string;
  baseUrl : option string;
  weight : option number;
  timeout : option Z;
  maxRetries : option Z
}.

(** [{ ...config, timeout: ms }] *)
Definition withTimeout (c : t) (ms : Z) : t :=
  mk (name c) (apiKey c) (model c) (baseUrl c) (weight c) (Some ms) (maxRetries c).
End ProviderConfig.

Module ProviderStats.
Record t := mk {
  totalRequests : nat;
  successfulRequests : nat;
  failedRequests : nat;
  averageResponseTime : number;
  lastRequestTime : option Z;
  isHealthy : bool
}.

(** The object literal used by [initializeProviders] and [addProvider]. *)
Definition fresh : t := mk 0 0 0 Number.zero None true.

Definition setIsHealthy (s : t) (b : bool) : t :=
  mk (totalRequests s) (successfulRequests s) (failedRequests s)
     (averageResponseTime s) (lastRequestTime s) b.
End ProviderStats.

Module LLMError.
Record t := mk {
  message : string;
  provider : string;
  statusCode : option Z;
  originalError : option string
}.
End LLMError.

Module LoadBalancerError.
Record t := mk {
  message : string;
  errors : list LLMError.t
}.
End LoadBalancerError.

(** The values that are thrown and caught in this code. *)
Inductive Thrown : Type :=
| ThrowLLMError (e : LLMError.t)
| ThrowLoadBalancerError (e : LoadBalancerError.t)
| ThrowError (message : string)      (* any other [Error] *)
| ThrowValue.                        (* a value that is no [Error] *)

Definition Result (A : Type) : Type := Completion Thrown A.

(** A strategy function may hand back [undefined] at run time (an index out
    of range), whatever its declared type. *)
Definition StrategyFunction : Type :=
  list ProviderConfig.t -> Result (option ProviderConfig.t).

Inductive StrategyKind : Type :=
| RoundRobin
| Failover
| Weighted
| Custom.

Module LoadBalancerConfig.
Record t := mk {
  strategy : StrategyKind;
  providers : list ProviderConfig.t;
  customStrategy : option StrategyFunction;
  globalTimeout : option Z;
  maxRetries : option Z;
  retryDelay : option Z
}.

Definition setProviders (c : t) (ps : list ProviderConfig.t) : t :=
  mk (strategy c) ps (customStrategy c) (globalTimeout c) (maxRetries c)
     (retryDelay c).
End LoadBalancerConfig.

(** [LoadBalancerStats] as a strategy reads it: the object's own entries,
    name to record. *)
Abbreviation StatsView := (gmap string ProviderStats.t).

(** The statistics object is an object literal, so besides its own entries
    it answers to the property names of [Object.prototype]. Their values are
    functions (for [__proto__], the prototype itself): truthy, and without an
    [isHealthy] property. *)
Definition objectPrototypeKeys : list string :=
  ["constructor"; "__defineGetter__"; "__defineSetter__"; "hasOwnProperty";
   "__lookupGetter__"; "__lookupSetter__"; "isPrototypeOf";
   "propertyIsEnumerable"; "toString"; "valueOf"; "__proto__"; "toLocaleString"].

Definition inherited (name : string) : bool :=
  existsb (String.eqb name) objectPrototypeKeys.

(** What [stats[name]] evaluates to. *)
Inductive Property : Type :=
| OwnEntry (s : ProviderStats.t)
| InheritedMember
| Undefined.

Definition getProperty (stats : StatsView) (name : string) : Property :=
  match stats !! name with
  | Some s => OwnEntry s
  | None => if inherited name then InheritedMember else Undefined
  end.

(** ** providers.ts: the factory *)

Inductive ProviderKind : Type :=
| OpenAIProvider
| ClaudeProvider
| GeminiProvider
| CohereProvider
| MistralProvider
| PerplexityProvider
| OllamaProvider
| TogetherProvider
| GroqProvider.

Module BaseProvider.
(** An adapter: its class and the descriptor it was built from (the HTTP
    client is derived from the descriptor). *)
Record t := mk {
  kind : ProviderKind;
  config : ProviderConfig.t
}.
End BaseProvider.

Definition providerKindOf (lowered : string) : option ProviderKind :=
  if String.eqb lowered "openai" then Some OpenAIProvider
  else if String.eqb lowered "claude" then Some ClaudeProvider
  else if String.eqb lowered "gemini" then Some GeminiProvider
  else if String.eqb lowered "cohere" then Some CohereProvider
  else if String.eqb lowered "mistral" then Some MistralProvider
  else if String.eqb lowered "perplexity" then Some PerplexityProvider
  else if String.eqb lowered "ollama" then Some OllamaProvider
  else if String.eqb lowered "together" then Some TogetherProvider
  else if String.eqb lowered "groq" then Some GroqProvider
  else None.

Definition createProvider (config : ProviderConfig.t) : Result BaseProvider.t :=
  match providerKindOf (toLowerCase (ProviderConfig.name config)) with
  | Some k => Return (BaseProvider.mk k config)
  | None =>
      Throw (ThrowError ("Unsupported provider: " ++ ProviderConfig.name config))
  end.

(** ** strategies.ts *)

Inductive LoadBalancingStrategy : Type :=
| RoundRobinStrategy (currentIndex : nat)
| FailoverStrategy
| WeightedStrategy (cumulativeWeights : list number) (totalWeight : number)
| CustomStrategy (strategyFunction : StrategyFunction).

Definition noProviders : Thrown := ThrowError "No providers available".

Module RoundRobinStrategy.
Definition selectProvider (currentIndex : nat)
    (providers : list ProviderConfig.t) (stats : StatsView)
  : Result (option ProviderConfig.t) * nat :=
  if (length providers =? 0)%nat then (Throw noProviders, currentIndex)
  else
    let provider := providers !! currentIndex in
    (Return provider, ((currentIndex + 1) mod length providers)%nat).
End RoundRobinStrategy.

Module FailoverStrategy.
(** The [for ... of] loop: [Some p] when it returns [p] from inside. *)
Fixpoint scan (providers : list ProviderConfig.t) (stats : StatsView)
  : option ProviderConfig.t :=
  match providers with
  | [] => None
  | provider :: rest =>
      match getProperty stats (ProviderConfig.name provider) with
      | Undefined => Some provider
      | OwnEntry providerStats =>
          if ProviderStats.isHealthy providerStats then Some provider
          else scan rest stats
      | InheritedMember => scan rest stats
      end
  end.

Definition selectProvider (providers : list ProviderConfig.t)
    (stats : StatsView) : Result (option ProviderConfig.t) :=
  if (length providers =? 0)%nat then Throw noProviders
  else
    match scan providers stats with
    | Some provider => Return (Some provider)
    | None => Return (providers !! 0%nat)
    end.
End FailoverStrategy.

Module WeightedStrategy.
(** The loop of [calculateWeights], started from a running total. *)
Fixpoint accumulate (providers : list ProviderConfig.t) (totalWeight : number)
  : list number * number :=
  match providers with
  | [] => ([], totalWeight)
  | provider :: rest =>
      let weight := jsOrNumber (ProviderConfig.weight provider) (Number.ofZ 1) in
      let totalWeight := Number.add totalWeight weight in
      let '(cumulativeWeights, total) := accumulate rest totalWeight in
      (totalWeight :: cumulativeWeights, total)
  end.

Definition calculateWeights (providers : list ProviderConfig.t)
  : list number * number :=
  accumulate providers (Number.ofZ 0).

(** The index loop over [cumulativeWeights], from index [i]. *)
Fixpoint scan (random : number) (cumulativeWeights : list number) (i : nat)
  : option nat :=
  match cumulativeWeights with
  | [] => None
  | w :: rest => if Number.leb random w then Some i else scan random rest (S i)
  end.

(** [rnd] is the value of [Math.random()]. *)
Definition selectProvider (cumulativeWeights : list number) (totalWeight : number)
    (providers : list ProviderConfig.t) (stats : StatsView) (rnd : number)
  : Result (option ProviderConfig.t) * (list number * number) :=
  if (length providers =? 0)%nat
  then (Throw noProviders, (cumulativeWeights, totalWeight))
  else
    let '(cumulativeWeights, totalWeight) :=
      if negb (length cumulativeWeights =? length providers)%nat
      then calculateWeights providers
      else (cumulativeWeights, totalWeight) in
    let random := Number.mul rnd totalWeight in
    match scan random cumulativeWeights 0%nat with
    | Some i => (Return (providers !! i), (cumulativeWeights, totalWeight))
    | None =>
        (Return (providers !! (length providers - 1)%nat),
         (cumulativeWeights, totalWeight))
    end.
End WeightedStrategy.

Module CustomStrategy.
Definition selectProvider (strategyFunction : StrategyFunction)
    (providers : list ProviderConfig.t) (stats : StatsView)
  : Result (option ProviderConfig.t) :=
  strategyFunction providers.
End CustomStrategy.

(** Dynamic dispatch on the strategy object; the second component is the
    object after the call. *)
Definition selectProvider (s : LoadBalancingStrategy)
    (providers : list ProviderConfig.t) (stats : StatsView) (rnd : number)
  : Result (option ProviderConfig.t) * LoadBalancingStrategy :=
  match s with
  | RoundRobinStrategy currentIndex =>
      let '(r, i) := RoundRobinStrategy.selectProvider currentIndex providers stats in
      (r, RoundRobinStrategy i)
  | FailoverStrategy => (FailoverStrategy.selectProvider providers stats, s)
  | WeightedStrategy cumulativeWeights totalWeight =>
      let '(r, (cw, tw)) :=
        WeightedStrategy.selectProvider cumulativeWeights totalWeight
          providers stats rnd in
      (r, WeightedStrategy cw tw)
  | CustomStrategy f => (CustomStrategy.selectProvider f providers stats, s)
  end.

(** [strategyType] ranges over the four names of the configuration type, so
    the "Unsupported strategy" branch of the source has no counterpart. *)
Definition createStrategy (strategyType : StrategyKind)
    (providers : list ProviderConfig.t) (customStrategy : option StrategyFunction)
  : Result LoadBalancingStrategy :=
  match strategyType with
  | RoundRobin => Return (RoundRobinStrategy 0)
  | Failover => Return FailoverStrategy
  | Weighted =>
      let '(cw, tw) := WeightedStrategy.calculateWeights providers in
      Return (WeightedStrategy cw tw)
  | Custom =>
      match customStrategy with
      | None =>
          Throw (ThrowError
                   "Custom strategy function is required for custom strategy type")
      | Some f => Return (CustomStrategy f)
      end
  end.

(** ** The environment of the balancer *)

(** How the race between an adapter call and its timer settles. *)
Inductive Settled : Type :=
| Resolved (response : LLMResponse.t)   (* the adapter answered first *)
| Rejected (error : Thrown)             (* the adapter failed first *)
| TimedOut.                             (* the timer fired first *)

(** What one pass through the retry loop observes from outside:
    [Math.random()], the two [Date.now()] readings around the call, how the
    race settles, and the [new Date()] of the statistics update. *)
Record AttemptEnv := mkAttemptEnv {
  random : number;
  startTime : Z;
  settled : Settled;
  endTime : Z;
  statsTime : Z
}.

(** The calls the balancer makes to the outside, in order. *)
Inductive Effect : Type :=
| MakeRequest (provider : BaseProvider.t) (request : LLMRequest.t) (timeout : Z)
| Delay (ms : Z).

(** ** The load balancer class *)

Module LLMLoadBalancer.
(** The fields of the class. [stats] holds a reference per name. *)
Record t := mk {
  providers : gmap string BaseProvider.t;
  strategy : LoadBalancingStrategy;
  stats : gmap string nat;
  config : LoadBalancerConfig.t
}.

Definition setStrategy (b : t) (s : LoadBalancingStrategy) : t :=
  mk (providers b) s (stats b) (config b).
End LLMLoadBalancer.

(** The balancer object together with the heap of statistics records. A
    reference is an index into the heap; records are never freed. *)
Record World := mkWorld {
  this : LLMLoadBalancer.t;
  heap : list ProviderStats.t
}.

(** [this.stats] as a reader sees it at this moment. *)
Definition deref (h : list ProviderStats.t) (refs : gmap string nat) : StatsView :=
  omap (fun l => h !! l) refs.

Definition statsView (w : World) : StatsView :=
  deref (heap w) (LLMLoadBalancer.stats (this w)).

(** The loop of [initializeProviders]. *)
Fixpoint initializeProviders (configs : list ProviderConfig.t)
    (providers : gmap string BaseProvider.t) (stats : gmap string nat)
    (h : list ProviderStats.t)
  : Result (gmap string BaseProvider.t * gmap string nat * list ProviderStats.t) :=
  match configs with
  | [] => Return (providers, stats, h)
  | providerConfig :: rest =>
      match createProvider providerConfig with
      | Throw e => Throw e
      | Return provider =>
          initializeProviders rest
            (<[ProviderConfig.name providerConfig := provider]> providers)
            (<[ProviderConfig.name providerConfig := length h]> stats)
            (h ++ [ProviderStats.fresh])
      end
  end.

(** [new LLMLoadBalancer(config)]; the heap starts empty. The constructor
    keeps the caller's configuration object, it does not copy it: the
    [config] field of the result stands for that object, see [peerExec]. *)
Definition construct (config : LoadBalancerConfig.t) : Result World :=
  match initializeProviders (LoadBalancerConfig.providers config) ∅ ∅ [] with
  | Throw e => Throw e
  | Return (providers, stats, h') =>
      match createStrategy (LoadBalancerConfig.strategy config)
              (LoadBalancerConfig.providers config)
              (LoadBalancerConfig.customStrategy config) with
      | Throw e => Throw e
      | Return s => Return (mkWorld (LLMLoadBalancer.mk providers s stats config) h')
      end
  end.

Definition natQ (n : nat) : Q := inject_Z (Z.of_nat n).

(** [a > b] on numbers. *)
Definition Qgtb (a b : Q) : bool := negb (Qle_bool a b).

(** The body of [updateStats] once the record has been found. *)
Definition updateRecord (stats : ProviderStats.t) (success : bool)
    (responseTime : Z) (now : Z) : ProviderStats.t :=
  let totalRequests := S (ProviderStats.totalRequests stats) in
  let lastRequestTime := Some now in
  let '(successfulRequests, averageResponseTime, failedRequests) :=
    if success then
      let totalSuccessful := S (ProviderStats.successfulRequests stats) in
      (totalSuccessful,
       Number.div
         (Number.add
            (Number.mul (ProviderStats.averageResponseTime stats)
               (Number.ofNat (totalSuccessful - 1)))
            (Number.ofZ responseTime))
         (Number.ofNat totalSuccessful),
       ProviderStats.failedRequests stats)
    else
      (ProviderStats.successfulRequests stats,
       ProviderStats.averageResponseTime stats,
       S (ProviderStats.failedRequests stats)) in
  let recentSuccessRate := (natQ successfulRequests / natQ totalRequests)%Q in
  ProviderStats.mk totalRequests successfulRequests failedRequests
    averageResponseTime lastRequestTime (Qgtb recentSuccessRate (1 # 2)).

Definition updateStats (providerName : string) (success : bool)
    (responseTime : Z) (now : Z) (w : World) : World :=
  match LLMLoadBalancer.stats (this w) !! providerName with
  | None => w
  | Some l =>
      match heap w !! l with
      | None => w
      | Some stats =>
          mkWorld (this w) (<[l := updateRecord stats success responseTime now]> (heap w))
      end
  end.

Definition attemptTimeout (w : World) (config : ProviderConfig.t) : Z :=
  jsOrNum
    (jsOr (ProviderConfig.timeout config)
          (LoadBalancerConfig.globalTimeout (LLMLoadBalancer.config (this w))))
    30000.

Definition timeoutError (timeout : Z) (config : ProviderConfig.t) : LLMError.t :=
  LLMError.mk ("Request timeout after " ++ numberToString timeout ++ "ms")
    (ProviderConfig.name config) None None.

Definition makeRequestWithTimeout (w : World) (provider : BaseProvider.t)
    (request : LLMRequest.t) (config : ProviderConfig.t) (s : Settled)
  : Result LLMResponse.t * list Effect :=
  let timeout := attemptTimeout w config in
  (match s with
   | Resolved response => Return response
   | Rejected error => Throw error
   | TimedOut => Throw (ThrowLLMError (timeoutError timeout config))
   end,
   [MakeRequest provider request timeout]).

(** The text of the [TypeError] raised by [undefined.name]; it is the
    engine's, and nothing below depends on it. *)
Definition undefinedNameMessage : string :=
  "Cannot read properties of undefined (reading 'name')".

Definition withStrategy (w : World) (s : LoadBalancingStrategy) : World :=
  mkWorld (LLMLoadBalancer.setStrategy (this w) s) (heap w).

(** The [try] block of [request]. *)
Definition tryBlock (w : World) (request : LLMRequest.t) (e : AttemptEnv)
  : World * Result LLMResponse.t * list Effect :=
  let '(selection, s) :=
    selectProvider (LLMLoadBalancer.strategy (this w))
      (LoadBalancerConfig.providers (LLMLoadBalancer.config (this w)))
      (statsView w) (random e) in
  let w := withStrategy w s in
  match selection with
  | Throw error => (w, Throw error, [])
  | Return None => (w, Throw (ThrowError undefinedNameMessage), [])
  | Return (Some selectedProvider) =>
      match LLMLoadBalancer.providers (this w) !! ProviderConfig.name selectedProvider with
      | None =>
          (w,
           Throw (ThrowError
                    ("Provider " ++ ProviderConfig.name selectedProvider ++ " not found")),
           [])
      | Some provider =>
          let '(outcome, effects) :=
            makeRequestWithTimeout w provider request selectedProvider (settled e) in
          match outcome with
          | Throw error => (w, Throw error, effects)
          | Return response =>
              (updateStats (ProviderConfig.name selectedProvider) true
                 (endTime e - startTime e) (statsTime e) w,
               Return response, effects)
          end
      end
  end.

(** The first statement of the [catch] block. *)
Definition toLLMError (error : Thrown) : LLMError.t :=
  match error with
  | ThrowLLMError e => e
  | ThrowLoadBalancerError e =>
      LLMError.mk (LoadBalancerError.message e) "unknown" None None
  | ThrowError message => LLMError.mk message "unknown" None None
  | ThrowValue => LLMError.mk "Unknown error" "unknown" None None
  end.

(** The statistics update of the [catch] block. *)
Definition chargeFailure (llmError : LLMError.t) (now : Z) (w : World) : World :=
  if String.eqb (LLMError.provider llmError) "unknown" then w
  else updateStats (LLMError.provider llmError) false 0 now w.

(** [retryDelay * Math.pow(2, attempt)] *)
Definition backoffDelay (retryDelay : Z) (attempt : nat) : Z :=
  retryDelay * 2 ^ Z.of_nat attempt.

(** The back-off of the [catch] block. *)
Definition backoff (attempt : nat) (maxRetries retryDelay : Z) : list Effect :=
  if Z.of_nat attempt <? maxRetries - 1
  then [Delay (backoffDelay retryDelay attempt)]
  else [].

(** The [for] loop of [request]: [remaining] passes are left, the next one
    is number [attempt]. *)
Fixpoint requestLoop (remaining : nat) (attempt : nat) (maxRetries retryDelay : Z)
    (request : LLMRequest.t) (env : nat -> AttemptEnv) (w : World)
    (errors : list LLMError.t) (trace : list Effect)
  : World * Result LLMResponse.t * list Effect :=
  match remaining with
  | O =>
      (w,
       Throw (ThrowLoadBalancerError
                (LoadBalancerError.mk
                   ("All providers failed after " ++ numberToString maxRetries
                    ++ " attempts")
                   errors)),
       trace)
  | S remaining' =>
      let '(w1, outcome, effects) := tryBlock w request (env attempt) in
      match outcome with
      | Return response => (w1, Return response, trace ++ effects)
      | Throw error =>
          let llmError := toLLMError error in
          let errors := errors ++ [llmError] in
          let w2 := chargeFailure llmError (statsTime (env attempt)) w1 in
          requestLoop remaining' (S attempt) maxRetries retryDelay request env w2
            errors (trace ++ effects ++ backoff attempt maxRetries retryDelay)
      end
  end.

Definition request (w : World) (req : LLMRequest.t) (env : nat -> AttemptEnv)
  : World * Result LLMResponse.t * list Effect :=
  let maxRetries :=
    jsOrNum (LoadBalancerConfig.maxRetries (LLMLoadBalancer.config (this w))) 3 in
  let retryDelay :=
    jsOrNum (LoadBalancerConfig.retryDelay (LLMLoadBalancer.config (this w))) 1000 in
  requestLoop (Z.to_nat maxRetries) 0 maxRetries retryDelay req env w [] [].

(** [getStats] copies the name-to-reference table, not the records. *)
Definition getStats (w : World) : gmap string nat :=
  LLMLoadBalancer.stats (this w).

Definition getHealthyProviders (w : World) : list ProviderConfig.t :=
  List.filter
    (fun provider =>
       match statsView w !! ProviderConfig.name provider with
       | Some s => ProviderStats.isHealthy s
       | None => true
       end)
    (LoadBalancerConfig.providers (LLMLoadBalancer.config (this w))).

(** *** healthCheck *)

(** The probes of one sweep run concurrently: [order] lists the positions of
    the configured descriptors in the order in which their races settle, and
    [probe i] is how the race of position [i] settles. In a real sweep every
    started probe settles exactly once; the results below hold for every
    [order]. *)
Record ProbeEnv := mkProbeEnv {
  order : list nat;
  probe : nat -> Settled
}.

Definition probeRequest : LLMRequest.t :=
  LLMRequest.mk "Health check" (Some 1) None None None.

(** [this.stats[name].isHealthy = b]; [None] is the [TypeError] of an
    assignment through [undefined]. *)
Definition writeIsHealthy (name : string) (b : bool) (w : World) : option World :=
  match LLMLoadBalancer.stats (this w) !! name with
  | None => None
  | Some l =>
      match heap w !! l with
      | None => None
      | Some s => Some (mkWorld (this w) (<[l := ProviderStats.setIsHealthy s b]> (heap w)))
      end
  end.

(** The callback up to its [await], for every descriptor in list order. *)
Fixpoint startProbes (w : World) (configs : list ProviderConfig.t)
    (healthStatus : gmap string bool) : gmap string bool * list Effect :=
  match configs with
  | [] => (healthStatus, [])
  | providerConfig :: rest =>
      match LLMLoadBalancer.providers (this w) !! ProviderConfig.name providerConfig with
      | None =>
          startProbes w rest (<[ProviderConfig.name providerConfig := false]> healthStatus)
      | Some provider =>
          let '(hs, effects) := startProbes w rest healthStatus in
          (hs,
           snd (makeRequestWithTimeout w provider probeRequest
                  (ProviderConfig.withTimeout providerConfig 5000) TimedOut)
           ++ effects)
      end
  end.

(** The [catch] block of the callback. *)
Definition probeFailed (name : string) (st : World * gmap string bool)
  : World * gmap string bool :=
  let '(w, healthStatus) := st in
  let healthStatus := <[name := false]> healthStatus in
  match writeIsHealthy name false w with
  | Some w' => (w', healthStatus)
  | None => (w, healthStatus)
  end.

(** The callback from its [await] on, when the race of position [i] settles. *)
Definition settleProbe (w0 : World) (env : ProbeEnv) (i : nat)
    (st : World * gmap string bool) : World * gmap string bool :=
  match LoadBalancerConfig.providers (LLMLoadBalancer.config (this w0)) !! i with
  | None => st
  | Some providerConfig =>
      let name := ProviderConfig.name providerConfig in
      match LLMLoadBalancer.providers (this w0) !! name with
      | None => st
      | Some provider =>
          match fst (makeRequestWithTimeout w0 provider probeRequest
                       (ProviderConfig.withTimeout providerConfig 5000) (probe env i)) with
          | Return _ =>
              let '(w, healthStatus) := st in
              let healthStatus := <[name := true]> healthStatus in
              match writeIsHealthy name true w with
              | Some w' => (w', healthStatus)
              | None => probeFailed name (w, healthStatus)
              end
          | Throw _ => probeFailed name st
          end
      end
  end.

Definition healthCheck (w : World) (env : ProbeEnv)
  : World * gmap string bool * list Effect :=
  let '(healthStatus, effects) :=
    startProbes w (LoadBalancerConfig.providers (LLMLoadBalancer.config (this w))) ∅ in
  let '(w', healthStatus) :=
    fold_left (fun st i => settleProbe w env i st) (order env) (w, healthStatus) in
  (w', healthStatus, effects).

(** *** addProvider and removeProvider *)

Definition addProvider (w : World) (config : ProviderConfig.t) : World * Result unit :=
  match createProvider config with
  | Throw e => (w, Throw e)
  | Return provider =>
      let b := this w in
      let providers := <[ProviderConfig.name config := provider]> (LLMLoadBalancer.providers b) in
      let cfg :=
        LoadBalancerConfig.setProviders (LLMLoadBalancer.config b)
          (LoadBalancerConfig.providers (LLMLoadBalancer.config b) ++ [config]) in
      let stats := <[ProviderConfig.name config := length (heap w)]> (LLMLoadBalancer.stats b) in
      let h := heap w ++ [ProviderStats.fresh] in
      match createStrategy (LoadBalancerConfig.strategy cfg)
              (LoadBalancerConfig.providers cfg)
              (LoadBalancerConfig.customStrategy cfg) with
      | Throw e =>
          (mkWorld (LLMLoadBalancer.mk providers (LLMLoadBalancer.strategy b) stats cfg) h,
           Throw e)
      | Return s => (mkWorld (LLMLoadBalancer.mk providers s stats cfg) h, Return tt)
      end
  end.

Definition removeProvider (w : World) (providerName : string) : World * Result unit :=
  let b := this w in
  let providers := delete providerName (LLMLoadBalancer.providers b) in
  let cfg :=
    LoadBalancerConfig.setProviders (LLMLoadBalancer.config b)
      (List.filter (fun p => negb (String.eqb (ProviderConfig.name p) providerName))
         (LoadBalancerConfig.providers (LLMLoadBalancer.config b))) in
  let stats := delete providerName (LLMLoadBalancer.stats b) in
  match createStrategy (LoadBalancerConfig.strategy cfg)
          (LoadBalancerConfig.providers cfg)
          (LoadBalancerConfig.customStrategy cfg) with
  | Throw e =>
      (mkWorld (LLMLoadBalancer.mk providers (LLMLoadBalancer.strategy b) stats cfg) (heap w),
       Throw e)
  | Return s => (mkWorld (LLMLoadBalancer.mk providers s stats cfg) (heap w), Return tt)
  end.

(** ** Histories of public calls *)

Inductive Call : Type :=
| CallRequest (req : LLMRequest.t) (env : nat -> AttemptEnv)
| CallGetStats
| CallGetHealthyProviders
| CallHealthCheck (env : ProbeEnv)
| CallAddProvider (config : ProviderConfig.t)
| CallRemoveProvider (providerName : string).

Definition exec (w : World) (c : Call) : World :=
  match c with
  | CallRequest req env => fst (fst (request w req env))
  | CallGetStats => w
  | CallGetHealthyProviders => w
  | CallHealthCheck env => fst (fst (healthCheck w env))
  | CallAddProvider config => fst (addProvider w config)
  | CallRemoveProvider providerName => fst (removeProvider w providerName)
  end.

Definition run (w : World) (calls : list Call) : World := fold_left exec calls w.

Definition isHealthCheck (c : Call) : bool :=
  match c with
  | CallHealthCheck _ => true
  | _ => false
  end.

(** A balancer built by the constructor and then used through its public
    methods, while nothing else writes to its configuration object. The
    states of a balancer whose configuration object is shared with other
    balancers are [reachableShared], below. *)
Definition reachable (w : World) : Prop :=
  exists config w0 calls, construct config = Return w0 /\ w = run w0 calls.

(** ** Balancers on one configuration object *)

(** The constructor stores the configuration object it is given
    ([this.config = config]); [addProvider] pushes onto the [providers] array
    of that object and [removeProvider] assigns a filtered array to its
    [providers] property. Balancers built from one configuration object
    therefore read each other's changes of the provider list, while each has
    its own adapters, statistics and strategy object.

    [LLMLoadBalancer.config (this w)] is the content of the configuration
    object as the balancer [w] reads it. A call on another balancer [peer]
    that holds the same object runs on that content and leaves the object
    changed for [w] too; nothing else of [w] changes. *)
Definition setConfig (w : World) (cfg : LoadBalancerConfig.t) : World :=
  mkWorld
    (LLMLoadBalancer.mk (LLMLoadBalancer.providers (this w))
       (LLMLoadBalancer.strategy (this w)) (LLMLoadBalancer.stats (this w)) cfg)
    (heap w).

Definition peerExec (w peer : World) (c : Call) : World :=
  setConfig w
    (LLMLoadBalancer.config
       (this (exec (setConfig peer (LLMLoadBalancer.config (this w))) c))).

(** What happens to a balancer: a call of its own, or a call on a peer. *)
Inductive Event : Type :=
| Own (c : Call)
| Peer (peer : World) (c : Call).

Definition step (w : World) (e : Event) : World :=
  match e with
  | Own c => exec w c
  | Peer peer c => peerExec w peer c
  end.

Definition runShared (w : World) (events : list Event) : World :=
  fold_left step events w.

(** A balancer some program can hold, whoever else holds its configuration
    object. *)
Definition reachableShared (w : World) : Prop :=
  exists config w0 events, construct config = Return w0 /\ w = runShared w0 events.

(** Sequential calls of [selectProvider] on one strategy object and one
    provider list; each call gets its own statistics and random draw. *)
Fixpoint selections (s : LoadBalancingStrategy) (providers : list ProviderConfig.t)
    (inputs : list (StatsView * number)) : list (Result (option ProviderConfig.t)) :=
  match inputs with
  | [] => []
  | (stats, rnd) :: rest =>
      let '(r, s') := selectProvider s providers stats rnd in
      r :: selections s' providers rest
  end.

(** A provider's statistics entry is absent, or its health flag is true. *)
Definition absentOrHealthy (stats : StatsView) (p : ProviderConfig.t) : bool :=
  match stats !! ProviderConfig.name p with
  | None => true
  | Some s => ProviderStats.isHealthy s
  end.

(** The test of the failover loop, [!providerStats || providerStats.isHealthy]:
    [stats[name]] is [undefined], or it is a record flagged healthy. *)
Definition qualifies (stats : StatsView) (p : ProviderConfig.t) : bool :=
  match getProperty stats (ProviderConfig.name p) with
  | Undefined => true
  | OwnEntry s => ProviderStats.isHealthy s
  | InheritedMember => false
  end.


(** The two halves of the statistics invariant, on one record. *)
Definition counted (s : ProviderStats.t) : Prop :=
  ProviderStats.totalRequests s
  = (ProviderStats.successfulRequests s + ProviderStats.failedRequests s)%nat.

Definition successRate (s : ProviderStats.t) : Q :=
  (natQ (ProviderStats.successfulRequests s) / natQ (ProviderStats.totalRequests s))%Q.

Definition healthDerived (s : ProviderStats.t) : Prop :=
  match ProviderStats.totalRequests s with
  | O => ProviderStats.isHealthy s = true
  | S _ => ProviderStats.isHealthy s = Qgtb (successRate s) (1 # 2)
  end.


(** The elapsed times of the successful updates, in order. *)
Fixpoint latencies (updates : list (bool * Z * Z)) : list Z :=
  match updates with
  | [] => []
  | (true, responseTime, _) :: rest => responseTime :: latencies rest
  | (false, _, _) :: rest => latencies rest
  end.

Definition sumZ (l : list Z) : Z := fold_right Z.add 0 l.

(** The arithmetic mean of a non-empty list of integers. *)
Definition mean (l : list Z) : Q := (inject_Z (sumZ l) / natQ (length l))%Q.

(** What a successful update stores as the average: the incremental-mean
    formula with the incremented count [n], in three rounded operations. *)
Definition averageStep (avg : number) (n : nat) (rt : Z) : number :=
  Number.div
    (Number.add (Number.mul avg (Number.ofNat (n - 1))) (Number.ofZ rt))
    (Number.ofNat n).

(** The formula applied to the elapsed times one after the other, starting
    from the average [avg] of [n] successes. *)
Fixpoint runningAverage (avg : number) (n : nat) (ls : list Z) : number :=
  match ls with
  | [] => avg
  | rt :: rest => runningAverage (averageStep avg (S n) rt) (S n) rest
  end.

(** [x] is finite and its value is exactly [q]. *)
Definition exactly (x : number) (q : Q) : bool :=
  match Number.toQ x with
  | Some v => Qeq_bool v q
  | None => false
  end.

(** No update rounds: every stored average has exactly the value of the
    formula at the average stored before it. *)
Fixpoint unrounded (avg : number) (n : nat) (ls : list Z) : bool :=
  match ls with
  | [] => true
  | rt :: rest =>
      match Number.toQ avg with
      | Some a =>
          exactly (averageStep avg (S n) rt)
            ((a * (natQ (S n) - 1) + inject_Z rt) / natQ (S n))%Q
          && unrounded (averageStep avg (S n) rt) (S n) rest
      | None => false
      end
  end.

(** A property of records that survives an overwrite of the health flag. *)
Definition flagClosed (P : ProviderStats.t -> Prop) : Prop :=
  forall s b, P s -> P (ProviderStats.setIsHealthy s b).

(** A name has an adapter; a name has a descriptor in the configured list;
    a name is accepted by the factory. *)
Definition registered (w : World) (name : string) : Prop :=
  is_Some (LLMLoadBalancer.providers (this w) !! name).

Definition configuredIn (providers : list ProviderConfig.t) (name : string) : Prop :=
  exists p, p ∈ providers /\ ProviderConfig.name p = name.

Definition supported (name : string) : Prop :=
  is_Some (providerKindOf (toLowerCase name)).

(** What the constructor establishes and the public methods keep. *)
Definition wellFormed (w : World) : Prop :=
  (forall name,
     registered w name
     <-> configuredIn (LoadBalancerConfig.providers (LLMLoadBalancer.config (this w))) name) /\
  (forall name, registered w name -> supported name) /\
  (LoadBalancerConfig.strategy (LLMLoadBalancer.config (this w)) = Custom ->
   is_Some (LoadBalancerConfig.customStrategy (LLMLoadBalancer.config (this w)))).

(** The balancer's tables other than the strategy object and the records. *)
Definition sameRegistry (w w' : World) : Prop :=
  LLMLoadBalancer.providers (this w') = LLMLoadBalancer.providers (this w) /\
  LLMLoadBalancer.config (this w') = LLMLoadBalancer.config (this w) /\
  LLMLoadBalancer.stats (this w') = LLMLoadBalancer.stats (this w).

(** A run in which the [n] passes starting at number [attempt] all fail:
    what each [try] block threw, in order, and the state after the last
    [catch] block. [None] when one of them returns a response. *)
Fixpoint failedRun (n : nat) (attempt : nat) (req : LLMRequest.t)
    (env : nat -> AttemptEnv) (w : World) : option (list Thrown * World) :=
  match n with
  | O => Some ([], w)
  | S n' =>
      let '(w1, outcome, _) := tryBlock w req (env attempt) in
      match outcome with
      | Return _ => None
      | Throw error =>
          let w2 := chargeFailure (toLLMError error) (statsTime (env attempt)) w1 in
          match failedRun n' (S attempt) req env w2 with
          | Some (thrown, w') => Some (error :: thrown, w')
          | None => None
          end
      end
  end.

(** The waiting times in a trace, in order. *)
Fixpoint delays (trace : list Effect) : list Z :=
  match trace with
  | [] => []
  | Delay ms :: rest => ms :: delays rest
  | MakeRequest _ _ _ :: rest => delays rest
  end.

Definition aggregateMessage (attempts : Z) : string :=
  "All providers failed after " ++ numberToString attempts ++ " attempts".

(** ** Sample data *)

Definition descriptor (n : string) : ProviderConfig.t :=
  ProviderConfig.mk n "test-key" "model" None None None None.

Definition openai : ProviderConfig.t := descriptor "openai".
Definition claude : ProviderConfig.t := descriptor "claude".
Definition gemini : ProviderConfig.t := descriptor "gemini".

(** The custom strategy of the test suite: [(providers) => providers[1]]. *)
Definition pickSecond : StrategyFunction := fun providers => Return (providers !! 1%nat).

Definition unhealthy : ProviderStats.t :=
  ProviderStats.mk 2 0 2 Number.zero (Some 7) false.

Definition sampleConfig : LoadBalancerConfig.t :=
  LoadBalancerConfig.mk RoundRobin [openai] None None (Some 2) (Some 10).

Definition sampleWorld : World :=
  mkWorld
    (LLMLoadBalancer.mk {["openai" := BaseProvider.mk OpenAIProvider openai]}
       (RoundRobinStrategy 0) {["openai" := 0%nat]} sampleConfig)
    [ProviderStats.fresh].

Definition sampleRequest : LLMRequest.t :=
  LLMRequest.mk "Test prompt" None None None None.

Definition sampleResponse : LLMResponse.t :=
  LLMResponse.mk "Success" None "model" "openai" (Some "stop").

Definition apiError : Thrown :=
  ThrowLLMError (LLMError.mk "API Error" "openai" None (Some "API Error")).

(** Every attempt is answered after 12 ms. *)
Definition alwaysOk : nat -> AttemptEnv :=
  fun _ => mkAttemptEnv Number.zero 1000 (Resolved sampleResponse) 1012 1012.

(** Every attempt is refused by the adapter. *)
Definition alwaysFail : nat -> AttemptEnv :=
  fun _ => mkAttemptEnv Number.zero 1000 (Rejected apiError) 1003 1003.

(** The first attempt dies on a plain [Error], the following ones are refused
    by the adapter. *)
Definition hangUpThenFail : nat -> AttemptEnv :=
  fun i =>
    match i with
    | O => mkAttemptEnv Number.zero 1000 (Rejected (ThrowError "socket hang up")) 1003 1003
    | S _ => alwaysFail i
    end.

(** The first attempt is refused, the following ones are answered. *)
Definition failThenOk : nat -> AttemptEnv :=
  fun i => match i with O => alwaysFail i | S _ => alwaysOk i end.

Definition probesFail : ProbeEnv := mkProbeEnv [0%nat] (fun _ => Rejected apiError).


(** Two successes (10 ms, 20 ms) around one failure. *)
Definition sampleUpdates : list (bool * Z * Z) :=
  [(true, 10, 1); (false, 0, 2); (true, 20, 3)].

(** Eight successes whose elapsed times add up to 480 ms. *)
Definition eightUpdates : list (bool * Z * Z) :=
  map (fun rt => (true, rt, 0)) [61; 18; 68; 80; 84; 62; 94; 13].

(** A descriptor and a configuration in which every optional number is 0. *)
Definition openaiZero : ProviderConfig.t :=
  ProviderConfig.mk "openai" "test-key" "model" None None (Some 0) None.

Definition zeroConfig : LoadBalancerConfig.t :=
  LoadBalancerConfig.mk Failover [openaiZero] None (Some 5000) (Some 0) (Some 0).

Definition zeroWorld : World :=
  mkWorld
    (LLMLoadBalancer.mk {["openai" := BaseProvider.mk OpenAIProvider openaiZero]}
       FailoverStrategy {["openai" := 0%nat]} zeroConfig)
    [ProviderStats.fresh].

(** Every race is lost to the timer. *)
Definition alwaysTimeout : nat -> AttemptEnv :=
  fun _ => mkAttemptEnv Number.zero 1000 TimedOut 31000 31000.

(** A balancer with the test suite's custom strategy and no provider. *)
Definition emptyCustomConfig : LoadBalancerConfig.t :=
  LoadBalancerConfig.mk Custom [] (Some pickSecond) None (Some 1) None.

(** ** Further invariants of a reachable balancer *)

(** The two tables and the heap: each reference points into the heap, no
    two names share one, the statistics table has the names of the adapters,
    and every adapter sits under the name of the descriptor it was built
    from. *)
Definition tablesSound (providers : gmap string BaseProvider.t)
    (stats : gmap string nat) (h : list ProviderStats.t) : Prop :=
  (forall n l, stats !! n = Some l -> (l < length h)%nat) /\
  (forall n1 n2 l, stats !! n1 = Some l -> stats !! n2 = Some l -> n1 = n2) /\
  (forall n, is_Some (stats !! n) <-> is_Some (providers !! n)) /\
  (forall n a, providers !! n = Some a -> ProviderConfig.name (BaseProvider.config a) = n).

(** The strategy object is of the configured kind, and a round-robin cursor
    is 0 or an index of the configured list. *)
Definition fits (s : LoadBalancingStrategy) (cfg : LoadBalancerConfig.t) : Prop :=
  match s with
  | RoundRobinStrategy c =>
      LoadBalancerConfig.strategy cfg = RoundRobin /\
      (c = 0 \/ c < length (LoadBalancerConfig.providers cfg))%nat
  | FailoverStrategy => LoadBalancerConfig.strategy cfg = Failover
  | WeightedStrategy _ _ => LoadBalancerConfig.strategy cfg = Weighted
  | CustomStrategy f =>
      LoadBalancerConfig.strategy cfg = Custom /\
      LoadBalancerConfig.customStrategy cfg = Some f
  end.

(** The strategy object is of the configured kind. *)
Definition kindFits (s : LoadBalancingStrategy) (cfg : LoadBalancerConfig.t) : Prop :=
  match s with
  | RoundRobinStrategy _ => LoadBalancerConfig.strategy cfg = RoundRobin
  | FailoverStrategy => LoadBalancerConfig.strategy cfg = Failover
  | WeightedStrategy _ _ => LoadBalancerConfig.strategy cfg = Weighted
  | CustomStrategy f =>
      LoadBalancerConfig.strategy cfg = Custom /\
      LoadBalancerConfig.customStrategy cfg = Some f
  end.

(** What holds of a balancer whatever its peers do to the provider list:
    its own tables are sound, it has adapters for accepted names only, its
    strategy object is of the configured kind, and every configured name is
    an accepted one. That every configured descriptor has an adapter, and
    that a round-robin cursor is within the list, holds only as long as no
    peer adds or removes a provider ([sound]). *)
Definition coherent (w : World) : Prop :=
  tablesSound (LLMLoadBalancer.providers (this w)) (LLMLoadBalancer.stats (this w))
    (heap w) /\
  (forall name, registered w name -> supported name) /\
  kindFits (LLMLoadBalancer.strategy (this w)) (LLMLoadBalancer.config (this w)) /\
  (forall p, p ∈ LoadBalancerConfig.providers (LLMLoadBalancer.config (this w)) ->
     supported (ProviderConfig.name p)).

(** Whether a descriptor's name has an adapter in this balancer. *)
Definition hasAdapter (w : World) (p : ProviderConfig.t) : bool :=
  match LLMLoadBalancer.providers (this w) !! ProviderConfig.name p with
  | Some _ => true
  | None => false
  end.

(** The probe that a sweep starts for a descriptor, if its name has an
    adapter. *)
Definition probeOf (w : World) (p : ProviderConfig.t) : option Effect :=
  match LLMLoadBalancer.providers (this w) !! ProviderConfig.name p with
  | Some a => Some (MakeRequest a probeRequest 5000)
  | None => None
  end.

Definition sound (w : World) : Prop :=
  wellFormed w /\
  tablesSound (LLMLoadBalancer.providers (this w)) (LLMLoadBalancer.stats (this w))
    (heap w) /\
  fits (LLMLoadBalancer.strategy (this w)) (LLMLoadBalancer.config (this w)).

(** Two records that differ at most in the health flag. *)
Definition sameButFlag (s s' : ProviderStats.t) : Prop :=
  ProviderStats.totalRequests s' = ProviderStats.totalRequests s /\
  ProviderStats.successfulRequests s' = ProviderStats.successfulRequests s /\
  ProviderStats.failedRequests s' = ProviderStats.failedRequests s /\
  ProviderStats.averageResponseTime s' = ProviderStats.averageResponseTime s /\
  ProviderStats.lastRequestTime s' = ProviderStats.lastRequestTime s.

(** Counters that have not gone down. *)
Definition countersLe (s s' : ProviderStats.t) : Prop :=
  (ProviderStats.totalRequests s <= ProviderStats.totalRequests s')%nat /\
  (ProviderStats.successfulRequests s <= ProviderStats.successfulRequests s')%nat /\
  (ProviderStats.failedRequests s <= ProviderStats.failedRequests s')%nat.

(** The adapter calls in a trace. *)
Fixpoint adapterCalls (trace : list Effect) : list (BaseProvider.t * LLMRequest.t * Z) :=
  match trace with
  | [] => []
  | MakeRequest provider request timeout :: rest =>
      (provider, request, timeout) :: adapterCalls rest
  | Delay _ :: rest => adapterCalls rest
  end.

(** Whether a race was won by an answer. *)
Definition answered (s : Settled) : bool :=
  match s with
  | Resolved _ => true
  | _ => false
  end.

(** [provider.weight || 1] *)
Definition effectiveWeight (p : ProviderConfig.t) : number :=
  jsOrNumber (ProviderConfig.weight p) (Number.ofZ 1).

(** The effective weights of the first [n] providers, added up from 0 one
    after the other, each addition rounded. *)
Definition prefixWeight (providers : list ProviderConfig.t) (n : nat) : number :=
  fold_left Number.add (map effectiveWeight (take n providers)) (Number.ofZ 0).

Definition weighted (p : ProviderConfig.t) (w : number) : ProviderConfig.t :=
  ProviderConfig.mk (ProviderConfig.name p) (ProviderConfig.apiKey p)
    (ProviderConfig.model p) (ProviderConfig.baseUrl p) (Some w)
    (ProviderConfig.timeout p) (ProviderConfig.maxRetries p).

(** The weighted scenario of the specification: weights 3, 2 and 1. *)
Definition weightedProviders : list ProviderConfig.t :=
  [weighted openai (Number.ofZ 3); weighted claude (Number.ofZ 2);
   weighted gemini (Number.ofZ 1)].

(** Weights 0.9, 0.7 and 0.8: none of them, and neither of their sums, is a
    binary fraction. *)
Definition decimalProviders : list ProviderConfig.t :=
  [weighted openai (Number.ratio 9 10); weighted claude (Number.ratio 7 10);
   weighted gemini (Number.ratio 8 10)].

(** What [toLLMError] makes of the strategies' "No providers available". *)
Definition noProvidersError : LLMError.t :=
  LLMError.mk "No providers available" "unknown" None None.

(** The values of [maxRetries] and [retryDelay] that [request] works with. *)
Definition effectiveMaxRetries (w : World) : Z :=
  jsOrNum (LoadBalancerConfig.maxRetries (LLMLoadBalancer.config (this w))) 3.

Definition effectiveRetryDelay (w : World) : Z :=
  jsOrNum (LoadBalancerConfig.retryDelay (LLMLoadBalancer.config (this w))) 1000.

(** A balancer without providers; the constructor accepts it. *)
Definition emptyConfig : LoadBalancerConfig.t :=
  LoadBalancerConfig.mk RoundRobin [] None None None None.

Definition emptyWorld : World :=
  mkWorld (LLMLoadBalancer.mk ∅ (RoundRobinStrategy 0) ∅ emptyConfig) [].

(** ** providers.ts: handleError *)

(** The shape [handleError] reads from what an adapter caught: an HTTP
    client error with an optional response, or any other object with an
    optional [message]. [isError] records [error instanceof Error]. A caught
    [null] or [undefined] is outside the model. *)
Module ErrorBody.
Record t := mk {
  message : option string
}.
End ErrorBody.

Module ResponseData.
Record t := mk {
  error : option ErrorBody.t;
  message : option string
}.
End ResponseData.

Module ErrorResponse.
Record t := mk {
  status : option Z;
  data : option ResponseData.t
}.
End ErrorResponse.

Module CaughtError.
Record t := mk {
  response : option ErrorResponse.t;
  message : option string;
  isError : bool
}.
End CaughtError.

(** [x || y] on optional strings: [undefined] and the empty string are
    falsy. *)
Definition falsyStr (x : option string) : bool :=
  match x with
  | Some s => String.eqb s ""
  | None => true
  end.

Definition jsOrStr (x y : option string) : option string :=
  if falsyStr x then y else x.

Definition jsOrStrLit (x : option string) (d : string) : string :=
  match x with
  | Some s => if String.eqb s "" then d else s
  | None => d
  end.

(** [a?.b] *)
Definition optChain {A B : Type} (a : option A) (f : A -> option B) : option B :=
  match a with
  | Some v => f v
  | None => None
  end.

(** What [handleError] throws; [originalError] keeps the message of the
    caught [Error]. *)
Definition handleError (provider : BaseProvider.t) (error : CaughtError.t) : LLMError.t :=
  let statusCode := optChain (CaughtError.response error) ErrorResponse.status in
  let data := optChain (CaughtError.response error) ErrorResponse.data in
  let message :=
    jsOrStrLit
      (jsOrStr
         (jsOrStr
            (optChain (optChain data ResponseData.error) ErrorBody.message)
            (optChain data ResponseData.message))
         (CaughtError.message error))
      "Unknown error" in
  LLMError.mk message (ProviderConfig.name (BaseProvider.config provider)) statusCode
    (if CaughtError.isError error
     then Some (default "" (CaughtError.message error))
     else None).

(** ** The package entry points *)

Definition upperAscii (c : ascii) : ascii :=
  let n := nat_of_ascii c in
  if ((97 <=? n)%nat && (n <=? 122)%nat)%bool then ascii_of_nat (n - 32) else c.

(** [String.prototype.toUpperCase] on the ASCII letters. *)
Fixpoint toUpperCase (s : string) : string :=
  match s with
  | EmptyString => EmptyString
  | String c rest => String (upperAscii c) (toUpperCase rest)
  end.

(** [process.env]. *)
Abbreviation Env := (gmap string string).

(** [if (process.env[key])]: the value when set and not empty. *)
Definition envValue (env : Env) (key : string) : option string :=
  match env !! key with
  | Some v => if String.eqb v "" then None else Some v
  | None => None
  end.

Definition defaultModels : list (string * string) :=
  [("openai", "gpt-3.5-turbo"); ("claude", "claude-3-haiku"); ("gemini", "gemini-pro");
   ("cohere", "command"); ("mistral", "mistral-small"); ("perplexity", "pplx-7b-online");
   ("groq", "llama2-70b-4096"); ("together", "llama-2-70b"); ("ollama", "llama2")].

Fixpoint assoc (table : list (string * string)) (key : string) : option string :=
  match table with
  | [] => None
  | (k, v) :: rest => if String.eqb k key then Some v else assoc rest key
  end.

Definition getDefaultModel (provider : string) : string :=
  jsOrStrLit (assoc defaultModels provider) "gpt-3.5-turbo".

(** The table of [createAutoBalancer]: name, environment key, default model. *)
Definition providerConfigs : list (string * string * string) :=
  [("openai", "OPENAI_API_KEY", "gpt-3.5-turbo");
   ("claude", "CLAUDE_API_KEY", "claude-3-haiku");
   ("gemini", "GEMINI_API_KEY", "gemini-pro");
   ("cohere", "COHERE_API_KEY", "command");
   ("mistral", "MISTRAL_API_KEY", "mistral-small");
   ("perplexity", "PERPLEXITY_API_KEY", "pplx-7b-online");
   ("groq", "GROQ_API_KEY", "llama2-70b-4096");
   ("together", "TOGETHER_API_KEY", "llama-2-70b")].

(** The loop over [providerConfigs]. *)
Fixpoint keyedProviders (env : Env) (table : list (string * string * string))
  : list ProviderConfig.t :=
  match table with
  | [] => []
  | (name, envKey, defaultModel) :: rest =>
      match envValue env envKey with
      | Some apiKey =>
          ProviderConfig.mk name apiKey defaultModel None None None None
          :: keyedProviders env rest
      | None => keyedProviders env rest
      end
  end.

Definition ollamaProvider (env : Env) : list ProviderConfig.t :=
  match envValue env "OLLAMA_MODEL" with
  | Some model =>
      [ProviderConfig.mk "ollama" "" model
         (Some (jsOrStrLit (env !! "OLLAMA_BASE_URL") "http://localhost:11434"))
         None None None]
  | None => []
  end.

(** The provider list that [createAutoBalancer] assembles. *)
Definition autoProviders (env : Env) : list ProviderConfig.t :=
  keyedProviders env providerConfigs ++ ollamaProvider env.

Definition createLLMBalancer (config : LoadBalancerConfig.t) : Result World :=
  construct config.

(** [strategy] is [None] when the argument is left out. *)
Definition createAutoBalancer (env : Env) (strategy : option StrategyKind)
    (customStrategy : option StrategyFunction) : Result World :=
  let strategy := default RoundRobin strategy in
  let providers := autoProviders env in
  if (length providers =? 0)%nat
  then Throw (ThrowError "No provider API keys found in environment variables")
  else
    createLLMBalancer
      (LoadBalancerConfig.mk strategy providers customStrategy None None None).

(** The descriptor that [singleModelRequest] builds. *)
Definition singleConfig (provider apiKey : string) (model : option string)
  : ProviderConfig.t :=
  ProviderConfig.mk provider apiKey (jsOrStrLit model (getDefaultModel provider))
    None None None None.

(** [singleModelRequest]; [attempts] is the environment of the request it
    issues. The balancer it builds is dropped with the result. *)
Definition singleModelRequest (env : Env) (provider : string) (req : LLMRequest.t)
    (model : option string) (attempts : nat -> AttemptEnv)
  : Result LLMResponse.t * list Effect :=
  match envValue env (toUpperCase provider ++ "_API_KEY") with
  | None =>
      (Throw (ThrowError
                ("Missing " ++ toUpperCase provider ++ "_API_KEY environment variable")),
       [])
  | Some apiKey =>
      let config := singleConfig provider apiKey model in
      match createLLMBalancer
              (LoadBalancerConfig.mk Failover [config] None None None None) with
      | Throw e => (Throw e, [])
      | Return llm =>
          let '(_, outcome, trace) := request llm req attempts in
          (outcome, trace)
      end
  end.

(** The nine names of the [provider] parameter's type. *)
Definition providerNames : list string :=
  ["openai"; "claude"; "gemini"; "cohere"; "mistral"; "perplexity"; "ollama";
   "together"; "groq"].

Definition sampleEnv : Env :=
  <["CLAUDE_API_KEY" := "key-c"]> (<["OPENAI_API_KEY" := "key-o"]> ∅).

(** An HTTP 429 with a vendor message, as the HTTP client reports it. *)
Definition rateLimited : CaughtError.t :=
  CaughtError.mk
    (Some (ErrorResponse.mk (Some 429)
             (Some (ResponseData.mk (Some (ErrorBody.mk (Some "Rate limit reached")))
                      None))))
    (Some "Request failed with status code 429") true.

(** Every attempt is refused with what [handleError] makes of [rateLimited]
    in the adapter of openai. *)
Definition alwaysRateLimited : nat -> AttemptEnv :=
  fun _ =>
    mkAttemptEnv Number.zero 1000
      (Rejected (ThrowLLMError
                   (handleError (BaseProvider.mk OpenAIProvider openai) rateLimited)))
      1003 1003.

(** A descriptor under another name. *)
Definition renamed (c : ProviderConfig.t) (n : string) : ProviderConfig.t :=
  ProviderConfig.mk n (ProviderConfig.apiKey c) (ProviderConfig.model c)
    (ProviderConfig.baseUrl c) (ProviderConfig.weight c) (ProviderConfig.timeout c)
    (ProviderConfig.maxRetries c).

(** The traces of requests issued one after the other, each with its own
    environment. *)
Fixpoint serveAll (w : World) (req : LLMRequest.t) (envs : list (nat -> AttemptEnv))
  : list (list Effect) :=
  match envs with
  | [] => []
  | env :: rest =>
      let '(w', _, trace) := request w req env in
      trace :: serveAll w' req rest
  end.

(** Two balancers built on the configuration object of [sampleConfig]; the
    other one has added claude. This one reads claude in the provider list
    and has no adapter for it. *)
Definition sharedWorld : World :=
  runShared sampleWorld [Peer sampleWorld (CallAddProvider claude)].

(** A statistics object with the record of openai, read against a list whose
    first name is a member of [Object.prototype]. *)
Definition inheritedNameWorld : World :=
  setConfig sampleWorld
    (LoadBalancerConfig.setProviders sampleConfig [descriptor "toString"; openai]).

Definition threeProviders : LoadBalancerConfig.t :=
  LoadBalancerConfig.mk RoundRobin [openai; claude; gemini] None None None None.

Definition threeWorld : World :=
  mkWorld
    (LLMLoadBalancer.mk
       (<["gemini" := BaseProvider.mk GeminiProvider gemini]>
          (<["claude" := BaseProvider.mk ClaudeProvider claude]>
             (<["openai" := BaseProvider.mk OpenAIProvider openai]> ∅)))
       (RoundRobinStrategy 0)
       (<["gemini" := 2%nat]> (<["claude" := 1%nat]> (<["openai" := 0%nat]> ∅)))
       threeProviders)
    [ProviderStats.fresh; ProviderStats.fresh; ProviderStats.fresh].

(** * Properties *)

(** ** Strategies *)

Section RoundRobin.
Variable providers : list ProviderConfig.t.
Hypothesis nonempty : providers <> [].

Lemma providers_length_pos : (0 < length providers)%nat.
Proof. destruct providers; [congruence | simpl; lia]. Qed.

Lemma round_robin_from (inputs : list (StatsView * number)) :
  forall (c i : nat), (c < length providers)%nat -> (i < length inputs)%nat ->
    selections (RoundRobinStrategy c) providers inputs !! i
    = Some (Return (providers !! ((c + i) mod length providers)%nat)).
Proof.
  pose proof providers_length_pos as Hpos.
  induction inputs as [|[stats rnd] rest IH]; intros c i Hc Hi; simpl in Hi; [lia|].
  cbn [selections selectProvider]. unfold RoundRobinStrategy.selectProvider.
  destruct (Nat.eqb_spec (length providers) 0) as [E|_]; [lia|].
  destruct i as [|i].
  - rewrite Nat.add_0_r, (Nat.mod_small c) by lia. reflexivity.
  - cbn [lookup list_lookup]. rewrite IH; [| apply Nat.mod_upper_bound; lia | lia].
    rewrite Nat.Div0.add_mod_idemp_l.
    replace (c + 1 + i)%nat with (c + S i)%nat by lia. reflexivity.
Qed.
End RoundRobin.

(** C5. On a fixed non-empty provider list of length N, a round-robin strategy
    as [createStrategy] builds it answers its i-th call (from 0) with
    [providers[i mod N]]; hence N calls in a row return the list itself, in
    order, and the call after those returns the first provider again. *)
Theorem round_robin_rotation (providers : list ProviderConfig.t)
    (custom : option StrategyFunction) (inputs : list (StatsView * number)) :
  providers <> [] ->
  exists s, createStrategy RoundRobin providers custom = Return s /\
    (forall i, (i < length inputs)%nat ->
       exists p, providers !! (i mod length providers)%nat = Some p /\
         selections s providers inputs !! i = Some (Return (Some p))) /\
    (length inputs = S (length providers) ->
       take (length providers) (selections s providers inputs)
         = map (fun p => Return (Some p)) providers /\
       selections s providers inputs !! length providers
         = Some (Return (providers !! 0%nat))).
Proof.
  intros Hne. exists (RoundRobinStrategy 0). split; [reflexivity|].
  pose proof (providers_length_pos providers Hne) as Hpos.
  assert (Hi : forall i, (i < length inputs)%nat ->
            selections (RoundRobinStrategy 0) providers inputs !! i
            = Some (Return (providers !! (i mod length providers)%nat))).
  { intros i Hlt. rewrite (round_robin_from providers Hne inputs 0 i) by lia.
    reflexivity. }
  split.
  - intros i Hlt.
    destruct (lookup_lt_is_Some_2 providers (i mod length providers)%nat) as [p Hp].
    { apply Nat.mod_upper_bound. lia. }
    exists p. split; [exact Hp|]. rewrite Hi by exact Hlt. rewrite Hp. reflexivity.
  - intros Hlen. split.
    + apply list_eq. intros i.
      destruct (decide (i < length providers)%nat) as [Hlt|Hge].
      * rewrite lookup_take_lt by exact Hlt. rewrite Hi by lia.
        rewrite Nat.mod_small by exact Hlt. rewrite list_lookup_fmap.
        destruct (providers !! i) eqn:E; [reflexivity|].
        apply lookup_ge_None in E. lia.
      * rewrite lookup_take_ge by lia. symmetry. apply lookup_ge_None.
        rewrite length_map. lia.
    + rewrite Hi by lia. rewrite Nat.Div0.mod_same. reflexivity.
Qed.

(** The three sample providers, four calls. *)
Lemma round_robin_rotation_witness :
  [openai; claude; gemini] <> [] /\
  exists s, createStrategy RoundRobin [openai; claude; gemini] None = Return s /\
    (forall i, (i < 4)%nat ->
       exists p, [openai; claude; gemini] !! (i mod 3)%nat = Some p /\
         selections s [openai; claude; gemini] (replicate 4 (∅, Number.zero)) !! i
           = Some (Return (Some p))) /\
    (4%nat = 4%nat ->
       take 3 (selections s [openai; claude; gemini] (replicate 4 (∅, Number.zero)))
         = map (fun p => Return (Some p)) [openai; claude; gemini] /\
       selections s [openai; claude; gemini] (replicate 4 (∅, Number.zero)) !! 3%nat
         = Some (Return ([openai; claude; gemini] !! 0%nat))).
Proof.
  split; [discriminate|].
  apply (round_robin_rotation [openai; claude; gemini] None (replicate 4 (∅, Number.zero))).
  discriminate.
Defined.

Lemma failover_scan_step (stats : StatsView) (x : ProviderConfig.t)
    (rest : list ProviderConfig.t) :
  FailoverStrategy.scan (x :: rest) stats
  = if qualifies stats x then Some x else FailoverStrategy.scan rest stats.
Proof.
  cbn [FailoverStrategy.scan]. unfold qualifies.
  destruct (getProperty stats (ProviderConfig.name x)) as [s| |]; [|reflexivity..].
  destruct (ProviderStats.isHealthy s); reflexivity.
Qed.

Lemma failover_scan_some (stats : StatsView) (providers : list ProviderConfig.t)
    (p : ProviderConfig.t) :
  FailoverStrategy.scan providers stats = Some p ->
  exists i, providers !! i = Some p /\ qualifies stats p = true /\
    forall j q, (j < i)%nat -> providers !! j = Some q -> qualifies stats q = false.
Proof.
  induction providers as [|x rest IH]; [discriminate|].
  rewrite failover_scan_step. destruct (qualifies stats x) eqn:Hx.
  - intros [= <-]. exists 0%nat. repeat split; [exact Hx | intros; lia].
  - intros Hs. destruct (IH Hs) as (i & Hi & Hq & Hbefore).
    exists (S i). repeat split; [exact Hi | exact Hq |].
    intros [|j] q Hj Hl; simpl in Hl.
    + injection Hl as <-. exact Hx.
    + apply (Hbefore j); [lia | exact Hl].
Qed.


(** The loop's test spelled out, and where it departs from "absent or
    healthy": at a name inherited from [Object.prototype] that has no entry. *)
Lemma qualifies_spec (stats : StatsView) (p : ProviderConfig.t) :
  (qualifies stats p = true <->
   (exists s, stats !! ProviderConfig.name p = Some s /\ ProviderStats.isHealthy s = true) \/
   (stats !! ProviderConfig.name p = None /\ inherited (ProviderConfig.name p) = false)) /\
  (inherited (ProviderConfig.name p) = false ->
   qualifies stats p = absentOrHealthy stats p).
Proof.
  unfold qualifies, absentOrHealthy, getProperty.
  destruct (stats !! ProviderConfig.name p) as [s|] eqn:E.
  - split; [|reflexivity]. split.
    + intros H. left. exists s. split; [reflexivity | exact H].
    + intros [(s' & [= <-] & H)|[[=] _]]. exact H.
  - destruct (inherited (ProviderConfig.name p)); split; try reflexivity; try discriminate.
    + split; [discriminate|]. intros [(s & [=] & _)|[_ [=]]].
    + split; [|reflexivity]. intros _. right. split; reflexivity.
Qed.

(** No name the factory accepts is inherited from [Object.prototype]. *)
Lemma supported_not_inherited (name : string) :
  is_Some (providerKindOf (toLowerCase name)) -> inherited name = false.
Proof.
  intros Hs. destruct (inherited name) eqn:Hi; [|reflexivity].
  exfalso. unfold inherited in Hi. apply existsb_exists in Hi as (k & Hk & Heq).
  apply String.eqb_eq in Heq. subst k.
  destruct Hs as [kind Hkind].
  unfold objectPrototypeKeys in Hk. cbn [In] in Hk.
  repeat (destruct Hk as [<-|Hk]; [vm_compute in Hkind; discriminate|]).
  exact Hk.
Qed.




(** The same input, evaluated. *)
Example failover_passes_over_toString :
  selectProvider FailoverStrategy [descriptor "toString"; openai] ∅ Number.zero
  = (Return (Some openai), FailoverStrategy).
Proof. reflexivity. Qed.

Example failover_skips_unhealthy :
  selectProvider FailoverStrategy [openai; claude; gemini]
    {["openai" := unhealthy]} Number.zero = (Return (Some claude), FailoverStrategy).
Proof. reflexivity. Qed.

(** The guard of the three built-in strategies. *)
Lemma builtin_strategies_guard_empty_list (stats : StatsView) (rnd : number) (c : nat)
    (cw : list number) (tw : number) :
  fst (selectProvider (RoundRobinStrategy c) [] stats rnd) = Throw noProviders /\
  fst (selectProvider FailoverStrategy [] stats rnd) = Throw noProviders /\
  fst (selectProvider (WeightedStrategy cw tw) [] stats rnd) = Throw noProviders.
Proof. repeat split. Qed.

(** C3. The custom strategy has no guard of its own: with the test suite's
    function [providers => providers[1]] and an empty list, [selectProvider]
    returns [undefined] instead of failing with "No providers available". *)
Theorem custom_strategy_empty_list_unguarded (stats : StatsView) (rnd : number) :
  selectProvider (CustomStrategy pickSecond) [] stats rnd
    = (Return None, CustomStrategy pickSecond) /\
  fst (selectProvider (CustomStrategy pickSecond) [] stats rnd) <> Throw noProviders.
Proof. split; [reflexivity | discriminate]. Qed.

(** In the balancer the missing guard surfaces as an unattributed failure:
    the attempt dies on [undefined.name] and is charged to "unknown". *)
Example custom_strategy_empty_list_in_request :
  exists w0,
    construct emptyCustomConfig = Return w0 /\
    snd (fst (request w0 sampleRequest alwaysOk))
    = Throw (ThrowLoadBalancerError
               (LoadBalancerError.mk "All providers failed after 1 attempts"
                  [LLMError.mk undefinedNameMessage "unknown" None None])).
Proof. eexists. split; reflexivity. Qed.

(** ** Statistics records *)



Lemma updateRecord_counted (s : ProviderStats.t) (success : bool) (rt now : Z) :
  counted s -> counted (updateRecord s success rt now).
Proof.
  unfold counted, updateRecord. destruct success; simpl; lia.
Qed.

Lemma updateRecord_healthDerived (s : ProviderStats.t) (success : bool) (rt now : Z) :
  healthDerived (updateRecord s success rt now).
Proof.
  unfold healthDerived, updateRecord. destruct success; reflexivity.
Qed.

Lemma updateRecord_failure_average (s : ProviderStats.t) (rt now : Z) :
  ProviderStats.averageResponseTime (updateRecord s false rt now)
  = ProviderStats.averageResponseTime s.
Proof. reflexivity. Qed.

Lemma updateRecord_success_average (s : ProviderStats.t) (rt now : Z) :
  ProviderStats.averageResponseTime (updateRecord s true rt now)
  = averageStep (ProviderStats.averageResponseTime s)
      (S (ProviderStats.successfulRequests s)) rt.
Proof. reflexivity. Qed.

(** ** A property of every record of the heap, through every call *)

Section HeapInvariant.
Variable P : ProviderStats.t -> Prop.
Hypothesis P_fresh : P ProviderStats.fresh.
Hypothesis P_update :
  forall s success rt now, P s -> P (updateRecord s success rt now).

Lemma updateStats_heap (name : string) (success : bool) (rt now : Z) (w : World) :
  Forall P (heap w) -> Forall P (heap (updateStats name success rt now w)).
Proof.
  intros H. unfold updateStats.
  destruct (LLMLoadBalancer.stats (this w) !! name) as [l|]; [|exact H].
  destruct (heap w !! l) as [s|] eqn:E; [|exact H].
  simpl. apply Forall_insert; [exact H|].
  apply P_update. exact (Forall_lookup_1 _ _ _ _ H E).
Qed.

Lemma tryBlock_heap (w : World) (req : LLMRequest.t) (e : AttemptEnv) :
  Forall P (heap w) -> Forall P (heap (fst (fst (tryBlock w req e)))).
Proof.
  intros H. unfold tryBlock.
  destruct (selectProvider _ _ _ _) as [[[sel|]|x] s]; simpl; try exact H.
  destruct (LLMLoadBalancer.providers _ !! _) as [provider|]; simpl; [|exact H].
  destruct (settled e); simpl; try exact H.
  apply updateStats_heap. exact H.
Qed.

Lemma chargeFailure_heap (e : LLMError.t) (now : Z) (w : World) :
  Forall P (heap w) -> Forall P (heap (chargeFailure e now w)).
Proof.
  intros H. unfold chargeFailure.
  destruct (String.eqb _ _); [exact H | apply updateStats_heap; exact H].
Qed.

Lemma requestLoop_heap (remaining : nat) :
  forall attempt maxRetries retryDelay req env w errors trace,
    Forall P (heap w) ->
    Forall P (heap (fst (fst (requestLoop remaining attempt maxRetries retryDelay
                                req env w errors trace)))).
Proof.
  induction remaining as [|r IH]; intros attempt maxRetries retryDelay req env w errors trace H.
  - exact H.
  - cbn [requestLoop].
    pose proof (tryBlock_heap w req (env attempt) H) as H1.
    destruct (tryBlock w req (env attempt)) as [[w1 [response|error]] effects];
      simpl in H1.
    + exact H1.
    + apply IH. apply chargeFailure_heap. exact H1.
Qed.

Lemma writeIsHealthy_heap (name : string) (b : bool) (w w' : World) :
  flagClosed P -> Forall P (heap w) -> writeIsHealthy name b w = Some w' ->
  Forall P (heap w').
Proof.
  intros Hflag H. unfold writeIsHealthy.
  destruct (LLMLoadBalancer.stats (this w) !! name) as [l|]; [|discriminate].
  destruct (heap w !! l) as [s|] eqn:E; [|discriminate].
  intros [= <-]. simpl. apply Forall_insert; [exact H|].
  apply Hflag. exact (Forall_lookup_1 _ _ _ _ H E).
Qed.

Lemma probeFailed_heap (name : string) (st : World * gmap string bool) :
  flagClosed P -> Forall P (heap (fst st)) -> Forall P (heap (fst (probeFailed name st))).
Proof.
  intros Hflag H. destruct st as [w hs]. unfold probeFailed.
  destruct (writeIsHealthy name false w) as [w'|] eqn:E; simpl; [|exact H].
  exact (writeIsHealthy_heap _ _ _ _ Hflag H E).
Qed.

Lemma settleProbe_heap (w0 : World) (env : ProbeEnv) (i : nat)
    (st : World * gmap string bool) :
  flagClosed P -> Forall P (heap (fst st)) ->
  Forall P (heap (fst (settleProbe w0 env i st))).
Proof.
  intros Hflag H. unfold settleProbe.
  destruct (LoadBalancerConfig.providers _ !! i) as [pc|]; [|exact H].
  destruct (LLMLoadBalancer.providers _ !! _) as [provider|]; [|exact H].
  destruct (fst (makeRequestWithTimeout _ _ _ _ _)).
  - destruct st as [w hs].
    destruct (writeIsHealthy (ProviderConfig.name pc) true w) as [w'|] eqn:E.
    + simpl. exact (writeIsHealthy_heap _ _ _ _ Hflag H E).
    + apply probeFailed_heap; assumption.
  - apply probeFailed_heap; assumption.
Qed.

Lemma healthCheck_heap (w : World) (env : ProbeEnv) :
  flagClosed P -> Forall P (heap w) ->
  Forall P (heap (fst (fst (healthCheck w env)))).
Proof.
  intros Hflag H. unfold healthCheck.
  destruct (startProbes w _ ∅) as [hs effects].
  assert (G : forall l st, Forall P (heap (fst st)) ->
            Forall P (heap (fst (fold_left (fun st i => settleProbe w env i st) l st)))).
  { induction l as [|i l IH]; intros st Hst; simpl; [exact Hst|].
    apply IH. apply settleProbe_heap; assumption. }
  specialize (G (order env) (w, hs) H).
  destruct (fold_left _ _ _) as [w' hs']. exact G.
Qed.

Lemma addProvider_heap (w : World) (config : ProviderConfig.t) :
  Forall P (heap w) -> Forall P (heap (fst (addProvider w config))).
Proof.
  intros H. unfold addProvider.
  destruct (createProvider config); [|exact H].
  destruct (createStrategy _ _ _); simpl;
    (apply Forall_app; split; [exact H | repeat constructor; exact P_fresh]).
Qed.

Lemma removeProvider_heap (w : World) (name : string) :
  Forall P (heap w) -> Forall P (heap (fst (removeProvider w name))).
Proof.
  intros H. unfold removeProvider. destruct (createStrategy _ _ _); exact H.
Qed.

Lemma exec_heap (w : World) (c : Call) :
  (isHealthCheck c = true -> flagClosed P) ->
  Forall P (heap w) -> Forall P (heap (exec w c)).
Proof.
  intros Hflag H. destruct c; simpl.
  - apply requestLoop_heap. exact H.
  - exact H.
  - exact H.
  - apply healthCheck_heap; [apply Hflag; reflexivity | exact H].
  - apply addProvider_heap. exact H.
  - apply removeProvider_heap. exact H.
Qed.

Lemma initializeProviders_heap (configs : list ProviderConfig.t) :
  forall providers stats h providers' stats' h',
    Forall P h ->
    initializeProviders configs providers stats h = Return (providers', stats', h') ->
    Forall P h'.
Proof.
  induction configs as [|pc rest IH]; intros providers stats h providers' stats' h' H;
    simpl.
  - intros [= _ _ <-]. exact H.
  - destruct (createProvider pc); [|discriminate].
    apply IH. apply Forall_app. split; [exact H | repeat constructor; exact P_fresh].
Qed.

Lemma construct_heap (config : LoadBalancerConfig.t) (w0 : World) :
  construct config = Return w0 -> Forall P (heap w0).
Proof.
  unfold construct.
  destruct (initializeProviders _ ∅ ∅ []) as [[[providers stats] h]|] eqn:E;
    [|discriminate].
  destruct (createStrategy _ _ _); [|discriminate].
  intros [= <-]. simpl.
  exact (initializeProviders_heap _ _ _ _ _ _ _ (Forall_nil_2 P) E).
Qed.
End HeapInvariant.

Lemma statsView_elem (w : World) (name : string) (s : ProviderStats.t) :
  statsView w !! name = Some s -> s ∈ heap w.
Proof.
  unfold statsView, deref. rewrite lookup_omap.
  destruct (LLMLoadBalancer.stats (this w) !! name) as [l|]; simpl; [|discriminate].
  intros E. exact (list_elem_of_lookup_2 _ _ _ E).
Qed.

(** The sample balancers are what the constructor builds. *)
Example construct_sample : construct sampleConfig = Return sampleWorld.
Proof. reflexivity. Qed.

Example construct_zero : construct zeroConfig = Return zeroWorld.
Proof. reflexivity. Qed.

(** ** The statistics invariant *)

Lemma setIsHealthy_counted (s : ProviderStats.t) (b : bool) :
  counted s -> counted (ProviderStats.setIsHealthy s b).
Proof. intros H. exact H. Qed.

Lemma fresh_healthDerived : healthDerived ProviderStats.fresh.
Proof. reflexivity. Qed.

Lemma statsView_updateStats (w : World) (name : string) (s : ProviderStats.t)
    (success : bool) (rt now : Z) :
  statsView w !! name = Some s ->
  statsView (updateStats name success rt now w) !! name
  = Some (updateRecord s success rt now).
Proof.
  unfold statsView, deref, updateStats. rewrite lookup_omap.
  destruct (LLMLoadBalancer.stats (this w) !! name) as [l|] eqn:El; simpl;
    [|discriminate].
  intros Hl. rewrite Hl. simpl. rewrite lookup_omap, El. simpl.
  rewrite list_lookup_insert_eq by (eapply lookup_lt_Some; exact Hl).
  reflexivity.
Qed.

(** C1 as stated fails: a sweep whose probe of a never-used provider fails
    leaves a record with no requests flagged unhealthy. *)
Lemma healthCheck_overwrites_derived_flag :
  ~ (forall config w0 calls name s,
       construct config = Return w0 ->
       statsView (run w0 calls) !! name = Some s ->
       counted s /\ healthDerived s).
Proof.
  intros H.
  destruct (H sampleConfig sampleWorld [CallHealthCheck probesFail] "openai"
              (ProviderStats.setIsHealthy ProviderStats.fresh false)
              eq_refl eq_refl) as [_ Hd].
  discriminate Hd.
Qed.

(** The same with requests on record: one success, then a failed probe. *)
Example healthCheck_overrides_ratio :
  statsView
    (run sampleWorld [CallRequest sampleRequest alwaysOk; CallHealthCheck probesFail])
    !! "openai"
  = Some (ProviderStats.setIsHealthy (updateRecord ProviderStats.fresh true 12 1012) false).
Proof. vm_compute. reflexivity. Qed.

(** ** The running average *)







Example average_of_10_and_20 :
  unrounded Number.zero 0 (latencies sampleUpdates) = true /\
  runningAverage Number.zero 0 (latencies sampleUpdates) = Number.ofZ 15 /\
  (mean (latencies sampleUpdates) == 15)%Q.
Proof. repeat split; vm_compute; reflexivity. Qed.


(** The stored value, and the double that is the mean. *)
Example average_of_eight :
  (mean (latencies eightUpdates) == 60)%Q /\
  runningAverage Number.zero 0 (latencies eightUpdates)
  = SpecFloat.S754_finite false 8444249301319679 (-47) /\
  Number.ofZ 60 = SpecFloat.S754_finite false 8444249301319680 (-47) /\
  unrounded Number.zero 0 (latencies eightUpdates) = false.
Proof. repeat split; vm_compute; reflexivity. Qed.

(** ** getStats *)

(** C4. The object returned by [getStats] shares its records with the
    balancer: a snapshot taken before a request shows the counters as the
    request's [updateStats] left them (one request, 12 ms) and no longer the
    zeros it held when it was taken. *)
Theorem getStats_snapshot_shares_records :
  let snapshot := getStats sampleWorld in
  let later := run sampleWorld [CallRequest sampleRequest alwaysOk] in
  deref (heap sampleWorld) snapshot !! "openai" = Some ProviderStats.fresh /\
  deref (heap later) snapshot !! "openai"
  = Some (updateRecord ProviderStats.fresh true 12 1012) /\
  ProviderStats.totalRequests (updateRecord ProviderStats.fresh true 12 1012) = 1%nat /\
  deref (heap later) snapshot <> deref (heap sampleWorld) snapshot.
Proof.
  cbv zeta. split; [reflexivity|]. split; [vm_compute; reflexivity|].
  split; [reflexivity|].
  intros E.
  assert (H : deref (heap (run sampleWorld [CallRequest sampleRequest alwaysOk]))
                (getStats sampleWorld) !! "openai"
              = deref (heap sampleWorld) (getStats sampleWorld) !! "openai")
    by (rewrite E; reflexivity).
  vm_compute in H. discriminate H.
Qed.

(** What the copy does protect: the table of names. Removing a provider
    later does not take its entry out of a snapshot. *)
Lemma getStats_snapshot_keeps_removed (w : World) (name : string) :
  deref (heap (fst (removeProvider w name))) (getStats w) = deref (heap w) (getStats w).
Proof.
  unfold removeProvider. destruct (createStrategy _ _ _); reflexivity.
Qed.

(** ** What requests and sweeps leave alone *)

Lemma sameRegistry_refl (w : World) : sameRegistry w w.
Proof. repeat split. Qed.

Lemma sameRegistry_trans (w1 w2 w3 : World) :
  sameRegistry w1 w2 -> sameRegistry w2 w3 -> sameRegistry w1 w3.
Proof.
  intros (A1 & B1 & C1) (A2 & B2 & C2). repeat split; congruence.
Qed.

Lemma updateStats_registry (name : string) (success : bool) (rt now : Z) (w : World) :
  sameRegistry w (updateStats name success rt now w).
Proof.
  unfold updateStats.
  destruct (LLMLoadBalancer.stats (this w) !! name); [|apply sameRegistry_refl].
  destruct (heap w !! _); repeat split.
Qed.

Lemma tryBlock_registry (w : World) (req : LLMRequest.t) (e : AttemptEnv) :
  sameRegistry w (fst (fst (tryBlock w req e))).
Proof.
  unfold tryBlock.
  destruct (selectProvider _ _ _ _) as [[[sel|]|x] s]; simpl; try (repeat split; fail).
  destruct (LLMLoadBalancer.providers _ !! _) as [provider|]; simpl;
    [|repeat split].
  destruct (settled e); simpl; try (repeat split; fail).
  apply (sameRegistry_trans w (withStrategy w s)); [repeat split|].
  apply updateStats_registry.
Qed.

Lemma chargeFailure_registry (e : LLMError.t) (now : Z) (w : World) :
  sameRegistry w (chargeFailure e now w).
Proof.
  unfold chargeFailure.
  destruct (String.eqb _ _); [apply sameRegistry_refl | apply updateStats_registry].
Qed.

Lemma requestLoop_registry (remaining : nat) :
  forall attempt maxRetries retryDelay req env w errors trace,
    sameRegistry w
      (fst (fst (requestLoop remaining attempt maxRetries retryDelay req env w
                   errors trace))).
Proof.
  induction remaining as [|r IH]; intros attempt maxRetries retryDelay req env w errors trace.
  - apply sameRegistry_refl.
  - cbn [requestLoop].
    pose proof (tryBlock_registry w req (env attempt)) as H1.
    destruct (tryBlock w req (env attempt)) as [[w1 [response|error]] effects];
      simpl in H1.
    + exact H1.
    + eapply sameRegistry_trans; [exact H1|].
      eapply sameRegistry_trans; [apply chargeFailure_registry | apply IH].
Qed.

Lemma writeIsHealthy_registry (name : string) (b : bool) (w w' : World) :
  writeIsHealthy name b w = Some w' -> sameRegistry w w'.
Proof.
  unfold writeIsHealthy.
  destruct (LLMLoadBalancer.stats (this w) !! name); [|discriminate].
  destruct (heap w !! _); [|discriminate].
  intros [= <-]. repeat split.
Qed.

Lemma probeFailed_registry (name : string) (st : World * gmap string bool) :
  sameRegistry (fst st) (fst (probeFailed name st)).
Proof.
  destruct st as [w hs]. unfold probeFailed.
  destruct (writeIsHealthy name false w) eqn:E; simpl;
    [exact (writeIsHealthy_registry _ _ _ _ E) | apply sameRegistry_refl].
Qed.

Lemma settleProbe_registry (w0 : World) (env : ProbeEnv) (i : nat)
    (st : World * gmap string bool) :
  sameRegistry (fst st) (fst (settleProbe w0 env i st)).
Proof.
  unfold settleProbe.
  destruct (LoadBalancerConfig.providers _ !! i) as [pc|]; [|apply sameRegistry_refl].
  destruct (LLMLoadBalancer.providers _ !! _); [|apply sameRegistry_refl].
  destruct (fst (makeRequestWithTimeout _ _ _ _ _)).
  - destruct st as [w hs].
    destruct (writeIsHealthy (ProviderConfig.name pc) true w) eqn:E.
    + simpl. exact (writeIsHealthy_registry _ _ _ _ E).
    + apply (probeFailed_registry _ (w, <[ProviderConfig.name pc := true]> hs)).
  - apply probeFailed_registry.
Qed.

Lemma healthCheck_registry (w : World) (env : ProbeEnv) :
  sameRegistry w (fst (fst (healthCheck w env))).
Proof.
  unfold healthCheck. destruct (startProbes w _ ∅) as [hs effects].
  assert (G : forall l st,
            sameRegistry (fst st)
              (fst (fold_left (fun st i => settleProbe w env i st) l st))).
  { induction l as [|i l IH]; intros st; simpl; [apply sameRegistry_refl|].
    eapply sameRegistry_trans; [apply settleProbe_registry | apply IH]. }
  specialize (G (order env) (w, hs)).
  destruct (fold_left _ _ _) as [w' hs']. exact G.
Qed.

Lemma wellFormed_registry (w w' : World) :
  sameRegistry w w' -> wellFormed w -> wellFormed w'.
Proof.
  intros (A & B & _) (H1 & H2 & H3). unfold wellFormed, registered.
  rewrite A, B. repeat split; try apply H1; auto.
Qed.

(** ** Well-formedness of every reachable balancer *)

Lemma createProvider_supported (c : ProviderConfig.t) (provider : BaseProvider.t) :
  createProvider c = Return provider ->
  supported (ProviderConfig.name c) /\ BaseProvider.config provider = c.
Proof.
  unfold createProvider, supported.
  destruct (providerKindOf _) as [k|]; [|discriminate].
  intros [= <-]. split; [eexists; reflexivity | reflexivity].
Qed.

Lemma supported_createProvider (c : ProviderConfig.t) :
  supported (ProviderConfig.name c) ->
  exists k, createProvider c = Return (BaseProvider.mk k c).
Proof.
  unfold createProvider, supported. intros [k E]. rewrite E. exists k. reflexivity.
Qed.

Lemma createStrategy_total (kind : StrategyKind) (custom : option StrategyFunction)
    (providers : list ProviderConfig.t) :
  (kind = Custom -> is_Some custom) ->
  exists s, createStrategy kind providers custom = Return s.
Proof.
  intros H. destruct kind; simpl.
  - eexists; reflexivity.
  - eexists; reflexivity.
  - destruct (WeightedStrategy.calculateWeights providers). eexists; reflexivity.
  - destruct (H eq_refl) as [f ->]. eexists; reflexivity.
Qed.

Lemma createStrategy_custom (kind : StrategyKind) (custom : option StrategyFunction)
    (providers : list ProviderConfig.t) (s : LoadBalancingStrategy) :
  createStrategy kind providers custom = Return s -> kind = Custom -> is_Some custom.
Proof.
  intros H ->. simpl in H. destruct custom; [eexists; reflexivity | discriminate].
Qed.

Lemma initializeProviders_registered (configs : list ProviderConfig.t) :
  forall providers stats h providers' stats' h',
    initializeProviders configs providers stats h = Return (providers', stats', h') ->
    forall name,
      (is_Some (providers' !! name)
       <-> is_Some (providers !! name) \/ configuredIn configs name) /\
      (is_Some (providers' !! name) -> is_Some (providers !! name) \/ supported name).
Proof.
  induction configs as [|pc rest IH]; intros providers stats h providers' stats' h';
    simpl.
  - intros [= <- _ _] name. split; [|auto]. split; [auto|].
    intros [H|(p & Hp & _)]; [exact H | inversion Hp].
  - destruct (createProvider pc) as [provider|] eqn:Ec; [|discriminate].
    intros Hinit name. destruct (IH _ _ _ _ _ _ Hinit name) as [H1 H2].
    destruct (createProvider_supported _ _ Ec) as [Hsup _].
    split; [split|].
    + intros H. apply H1 in H as [H|(p & Hp & Hn)].
      * destruct (decide (ProviderConfig.name pc = name)) as [E|N].
        -- right. exists pc. split; [apply elem_of_cons; auto | exact E].
        -- rewrite lookup_insert_ne in H by exact N. left. exact H.
      * right. exists p. split; [apply elem_of_cons; auto | exact Hn].
    + intros [H|(p & Hp & Hn)]; apply H1.
      * left. destruct (decide (ProviderConfig.name pc = name)) as [E|N].
        -- rewrite E, lookup_insert_eq. eexists; reflexivity.
        -- rewrite lookup_insert_ne by exact N. exact H.
      * apply elem_of_cons in Hp as [->|Hp].
        -- left. rewrite Hn, lookup_insert_eq. eexists; reflexivity.
        -- right. exists p. split; assumption.
    + intros H. apply H2 in H as [H|H]; [|right; exact H].
      destruct (decide (ProviderConfig.name pc = name)) as [E|N].
      * right. rewrite <- E. exact Hsup.
      * rewrite lookup_insert_ne in H by exact N. left. exact H.
Qed.

Lemma construct_wellFormed (config : LoadBalancerConfig.t) (w0 : World) :
  construct config = Return w0 -> wellFormed w0.
Proof.
  unfold construct.
  destruct (initializeProviders _ ∅ ∅ []) as [[[providers stats] h]|] eqn:E;
    [|discriminate].
  destruct (createStrategy _ _ _) as [s|] eqn:Es; [|discriminate].
  intros [= <-]. unfold wellFormed, registered. simpl.
  pose proof (initializeProviders_registered _ _ _ _ _ _ _ E) as H.
  split; [|split].
  - intros name. destruct (H name) as [H1 _]. rewrite H1. split; [|auto].
    intros [[x Hx]|Hc]; [rewrite lookup_empty in Hx; discriminate | exact Hc].
  - intros name Hr. destruct (H name) as [_ H2].
    destruct (H2 Hr) as [[x Hx]|Hs]; [rewrite lookup_empty in Hx; discriminate | exact Hs].
  - apply (createStrategy_custom _ _ _ _ Es).
Qed.

Lemma addProvider_wellFormed (w : World) (c : ProviderConfig.t) :
  wellFormed w -> wellFormed (fst (addProvider w c)).
Proof.
  intros (H1 & H2 & H3). unfold addProvider.
  destruct (createProvider c) as [provider|] eqn:Ec; [|repeat split; auto; apply H1].
  destruct (createProvider_supported _ _ Ec) as [Hsup _].
  assert (G : forall s,
            wellFormed
              (mkWorld
                 (LLMLoadBalancer.mk
                    (<[ProviderConfig.name c := provider]> (LLMLoadBalancer.providers (this w)))
                    s
                    (<[ProviderConfig.name c := length (heap w)]> (LLMLoadBalancer.stats (this w)))
                    (LoadBalancerConfig.setProviders (LLMLoadBalancer.config (this w))
                       (LoadBalancerConfig.providers (LLMLoadBalancer.config (this w)) ++ [c])))
                 (heap w ++ [ProviderStats.fresh]))).
  { intros s. unfold wellFormed, registered. simpl. split; [|split].
    - intros name. destruct (decide (ProviderConfig.name c = name)) as [E|N].
      + rewrite E, lookup_insert_eq. split; [|eexists; reflexivity].
        intros _. exists c. split; [apply elem_of_app; right; apply list_elem_of_singleton; reflexivity | exact E].
      + rewrite lookup_insert_ne by exact N. split.
        * intros H. apply H1 in H as (p & Hp & Hn).
          exists p. split; [apply elem_of_app; left; exact Hp | exact Hn].
        * intros (p & Hp & Hn). apply H1.
          apply elem_of_app in Hp as [Hp|Hp].
          -- exists p. split; assumption.
          -- apply list_elem_of_singleton in Hp. subst p. contradiction.
    - intros name. destruct (decide (ProviderConfig.name c = name)) as [E|N].
      + intros _. rewrite <- E. exact Hsup.
      + rewrite lookup_insert_ne by exact N. apply H2.
    - exact H3. }
  destruct (createStrategy _ _ _); simpl; apply G.
Qed.

Lemma removeProvider_wellFormed (w : World) (name : string) :
  wellFormed w -> wellFormed (fst (removeProvider w name)).
Proof.
  intros (H1 & H2 & H3). unfold removeProvider.
  assert (G : forall s,
            wellFormed
              (mkWorld
                 (LLMLoadBalancer.mk
                    (delete name (LLMLoadBalancer.providers (this w)))
                    s
                    (delete name (LLMLoadBalancer.stats (this w)))
                    (LoadBalancerConfig.setProviders (LLMLoadBalancer.config (this w))
                       (List.filter
                          (fun p => negb (String.eqb (ProviderConfig.name p) name))
                          (LoadBalancerConfig.providers (LLMLoadBalancer.config (this w))))))
                 (heap w))).
  { intros s. unfold wellFormed, registered. simpl. split; [|split].
    - intros n. destruct (decide (name = n)) as [E|N].
      + subst n. rewrite lookup_delete_eq. split.
        * intros [x Hx]. discriminate.
        * intros (p & Hp & Hn). apply list_elem_of_In, filter_In in Hp as [_ Hp].
          rewrite Hn, String.eqb_refl in Hp. discriminate.
      + rewrite lookup_delete_ne by exact N. split.
        * intros H. apply H1 in H as (p & Hp & Hn). exists p. split; [|exact Hn].
          apply list_elem_of_In, filter_In. split; [apply list_elem_of_In; exact Hp|].
          rewrite Hn. apply negb_true_iff, String.eqb_neq. congruence.
        * intros (p & Hp & Hn). apply H1. exists p. split; [|exact Hn].
          apply list_elem_of_In, filter_In in Hp as [Hp _]. apply list_elem_of_In. exact Hp.
    - intros n. destruct (decide (name = n)) as [E|N].
      + subst n. rewrite lookup_delete_eq. intros [x Hx]. discriminate.
      + rewrite lookup_delete_ne by exact N. apply H2.
    - exact H3. }
  destruct (createStrategy _ _ _); simpl; apply G.
Qed.

Lemma exec_wellFormed (w : World) (c : Call) : wellFormed w -> wellFormed (exec w c).
Proof.
  intros H. destruct c; simpl; try exact H.
  - eapply wellFormed_registry; [apply requestLoop_registry | exact H].
  - eapply wellFormed_registry; [apply healthCheck_registry | exact H].
  - apply addProvider_wellFormed. exact H.
  - apply removeProvider_wellFormed. exact H.
Qed.

Lemma reachable_wellFormed (w : World) : reachable w -> wellFormed w.
Proof.
  intros (config & w0 & calls & Hc & ->).
  apply construct_wellFormed in Hc. revert w0 Hc. unfold run.
  induction calls as [|c calls IH]; intros w0 H; simpl; [exact H|].
  apply IH. apply exec_wellFormed. exact H.
Qed.

(** ** addProvider under a name already in use *)



Example addProvider_twice_lists_both :
  LoadBalancerConfig.providers
    (LLMLoadBalancer.config (this (fst (addProvider sampleWorld openai))))
  = [openai; openai].
Proof. reflexivity. Qed.

(** ** The retry loop *)

Lemma requestLoop_exhausted (req : LLMRequest.t) (env : nat -> AttemptEnv)
    (maxRetries retryDelay : Z) (remaining : nat) :
  forall attempt w errors trace thrown w',
    failedRun remaining attempt req env w = Some (thrown, w') ->
    length thrown = remaining /\
    exists trace',
      requestLoop remaining attempt maxRetries retryDelay req env w errors trace
      = (w',
         Throw (ThrowLoadBalancerError
                  (LoadBalancerError.mk (aggregateMessage maxRetries)
                     (errors ++ map toLLMError thrown))),
         trace').
Proof.
  induction remaining as [|r IH]; intros attempt w errors trace thrown w'; simpl.
  - intros [= <- <-]. split; [reflexivity|]. exists trace.
    rewrite app_nil_r. reflexivity.
  - destruct (tryBlock w req (env attempt)) as [[w1 [response|error]] effects];
      [discriminate|].
    destruct (failedRun r (S attempt) req env _) as [[thrown1 w1']|] eqn:E;
      [|discriminate].
    intros [= <- <-].
    destruct (IH _ _ (errors ++ [toLLMError error])
                (trace ++ effects ++ backoff attempt maxRetries retryDelay) _ _ E)
      as [Hlen [trace' Hloop]].
    split; [simpl; rewrite Hlen; reflexivity|].
    exists trace'. rewrite Hloop. simpl. rewrite <- app_assoc. reflexivity.
Qed.

(** Whatever happens, the loop either returns a response or throws the
    aggregate error, with one entry per pass. *)
Lemma requestLoop_throws_aggregate (req : LLMRequest.t) (env : nat -> AttemptEnv)
    (maxRetries retryDelay : Z) (remaining : nat) :
  forall attempt w errors trace w' x trace',
    requestLoop remaining attempt maxRetries retryDelay req env w errors trace
    = (w', Throw x, trace') ->
    exists more,
      x = ThrowLoadBalancerError
            (LoadBalancerError.mk (aggregateMessage maxRetries) (errors ++ more)) /\
      length more = remaining.
Proof.
  induction remaining as [|r IH]; intros attempt w errors trace w' x trace'; simpl.
  - intros [= _ <- _]. exists []. rewrite app_nil_r. split; reflexivity.
  - destruct (tryBlock w req (env attempt)) as [[w1 [response|error]] effects];
      [discriminate|].
    intros H. destruct (IH _ _ _ _ _ _ _ H) as (more & -> & Hlen).
    exists (toLLMError error :: more). rewrite <- app_assoc.
    split; [reflexivity | simpl; rewrite Hlen; reflexivity].
Qed.

(** A response in pass [attempt + n], after [n] failed passes, is returned. *)
Lemma requestLoop_returns (req : LLMRequest.t) (env : nat -> AttemptEnv)
    (maxRetries retryDelay : Z) (n : nat) :
  forall remaining attempt w errors trace thrown w1 w2 response effects,
    (n < remaining)%nat ->
    failedRun n attempt req env w = Some (thrown, w1) ->
    tryBlock w1 req (env (attempt + n)%nat) = (w2, Return response, effects) ->
    exists trace',
      requestLoop remaining attempt maxRetries retryDelay req env w errors trace
      = (w2, Return response, trace').
Proof.
  induction n as [|n IH];
    intros remaining attempt w errors trace thrown w1 w2 response effects Hlt Hrun Htry;
    (destruct remaining as [|r]; [lia|]); simpl in Hrun |- *.
  - injection Hrun as <- <-. rewrite Nat.add_0_r in Htry. rewrite Htry.
    eexists. reflexivity.
  - destruct (tryBlock w req (env attempt)) as [[w0 [resp0|error]] effects0];
      [discriminate|].
    destruct (failedRun n (S attempt) req env _) as [[thrown1 w1']|] eqn:E;
      [|discriminate].
    injection Hrun as <- <-.
    apply (IH r (S attempt) _ _ _ thrown1 w1' w2 response effects); [lia | exact E |].
    rewrite <- Htry. f_equal. f_equal. lia.
Qed.

(** In a run of failed passes, entry [i] is what pass [i] threw, in the state
    that the [i] passes before it left. *)
Lemma failedRun_nth (req : LLMRequest.t) (env : nat -> AttemptEnv) (n : nat) :
  forall attempt w thrown w' i x,
    failedRun n attempt req env w = Some (thrown, w') ->
    thrown !! i = Some x ->
    exists wi,
      failedRun i attempt req env w = Some (take i thrown, wi) /\
      snd (fst (tryBlock wi req (env (attempt + i)%nat))) = Throw x.
Proof.
  induction n as [|n IH]; intros attempt w thrown w' i x; simpl.
  - intros [= <- <-] Hx. discriminate.
  - destruct (tryBlock w req (env attempt)) as [[w1 [response|error]] effects] eqn:Etry;
      [discriminate|].
    destruct (failedRun n (S attempt) req env _) as [[thrown1 w1']|] eqn:E;
      [|discriminate].
    intros [= <- <-] Hx. destruct i as [|j].
    + injection Hx as <-. exists w. split; [reflexivity|].
      rewrite Nat.add_0_r, Etry. reflexivity.
    + simpl in Hx. destruct (IH _ _ _ _ _ _ E Hx) as (wj & Hrun & Hthrow).
      exists wj. split.
      * simpl. rewrite Etry, Hrun. reflexivity.
      * rewrite <- Hthrow. f_equal. f_equal. f_equal. f_equal. lia.
Qed.

(** C2. With [maxRetries = k >= 1], a run whose [k] attempts all fail makes
    [request] fail with the aggregate error, whose message names [k] and
    whose list holds one entry per attempt, in the order of the attempts.
    Entry [i] stands for what attempt [i] threw: it is that very [LLMError]
    when the attempt threw one (an adapter's error, a timeout), and
    otherwise an [LLMError] attributed to "unknown" that carries the message
    of the thrown [Error] ("Unknown error" for a value that is no
    [Error]). *)
Theorem request_exhausts_retries (w : World) (req : LLMRequest.t)
    (env : nat -> AttemptEnv) (k : nat) (thrown : list Thrown) (w' : World) :
  (1 <= k)%nat ->
  LoadBalancerConfig.maxRetries (LLMLoadBalancer.config (this w)) = Some (Z.of_nat k) ->
  failedRun k 0 req env w = Some (thrown, w') ->
  exists errs trace,
    request w req env
    = (w',
       Throw (ThrowLoadBalancerError
                (LoadBalancerError.mk
                   ("All providers failed after " ++ numberToString (Z.of_nat k)
                    ++ " attempts")
                   errs)),
       trace) /\
    length errs = k /\
    (forall i, (i < k)%nat ->
       exists wi x e,
         failedRun i 0 req env w = Some (take i thrown, wi) /\
         snd (fst (tryBlock wi req (env i))) = Throw x /\
         errs !! i = Some e /\
         match x with
         | ThrowLLMError thrownError => e = thrownError
         | ThrowLoadBalancerError other =>
             e = LLMError.mk (LoadBalancerError.message other) "unknown" None None
         | ThrowError message => e = LLMError.mk message "unknown" None None
         | ThrowValue => e = LLMError.mk "Unknown error" "unknown" None None
         end).
Proof.
  intros Hk Hmax Hrun. unfold request. rewrite Hmax. simpl.
  destruct (Z.eqb_spec (Z.of_nat k) 0) as [E|_]; [lia|].
  rewrite Nat2Z.id.
  destruct (requestLoop_exhausted req env (Z.of_nat k)
              (jsOrNum (LoadBalancerConfig.retryDelay (LLMLoadBalancer.config (this w))) 1000)
              k 0%nat w [] [] thrown w' Hrun) as [Hlen [trace Hloop]].
  exists (map toLLMError thrown), trace.
  split; [exact Hloop|]. split; [rewrite length_map; exact Hlen|].
  intros i Hi.
  destruct (lookup_lt_is_Some_2 thrown i) as [x Hx]; [lia|].
  destruct (failedRun_nth req env k 0 w thrown w' i x Hrun Hx) as (wi & Hprefix & Hthrow).
  exists wi, x, (toLLMError x).
  split; [exact Hprefix|]. split; [exact Hthrow|].
  split; [rewrite list_lookup_fmap, Hx; reflexivity|].
  destruct x; reflexivity.
Qed.

(** The sample provider refuses twice: two attempts, two errors. *)
Lemma request_exhausts_retries_witness :
  (1 <= 2)%nat /\
  LoadBalancerConfig.maxRetries (LLMLoadBalancer.config (this sampleWorld))
  = Some (Z.of_nat 2) /\
  failedRun 2 0 sampleRequest alwaysFail sampleWorld
  = Some ([apiError; apiError], run sampleWorld [CallRequest sampleRequest alwaysFail]) /\
  exists errs trace,
    request sampleWorld sampleRequest alwaysFail
    = (run sampleWorld [CallRequest sampleRequest alwaysFail],
       Throw (ThrowLoadBalancerError
                (LoadBalancerError.mk
                   ("All providers failed after " ++ numberToString (Z.of_nat 2)
                    ++ " attempts")
                   errs)),
       trace) /\
    length errs = 2%nat /\
    (forall i, (i < 2)%nat ->
       exists wi x e,
         failedRun i 0 sampleRequest alwaysFail sampleWorld
         = Some (take i [apiError; apiError], wi) /\
         snd (fst (tryBlock wi sampleRequest (alwaysFail i))) = Throw x /\
         errs !! i = Some e /\
         match x with
         | ThrowLLMError thrownError => e = thrownError
         | ThrowLoadBalancerError other =>
             e = LLMError.mk (LoadBalancerError.message other) "unknown" None None
         | ThrowError message => e = LLMError.mk message "unknown" None None
         | ThrowValue => e = LLMError.mk "Unknown error" "unknown" None None
         end).
Proof.
  split; [lia|]. split; [reflexivity|]. split; [vm_compute; reflexivity|].
  apply (request_exhausts_retries sampleWorld sampleRequest alwaysFail 2
           [apiError; apiError] (run sampleWorld [CallRequest sampleRequest alwaysFail])).
  - lia.
  - reflexivity.
  - vm_compute. reflexivity.
Defined.

(** A plain [Error] first, then the adapter's own error: the list holds the
    first under "unknown" with its message, and the second as thrown. *)
Example aggregate_keeps_each_error :
  snd (fst (request sampleWorld sampleRequest hangUpThenFail))
  = Throw (ThrowLoadBalancerError
             (LoadBalancerError.mk "All providers failed after 2 attempts"
                [LLMError.mk "socket hang up" "unknown" None None;
                 LLMError.mk "API Error" "openai" None (Some "API Error")])).
Proof. vm_compute. reflexivity. Qed.

(** The retry scenario of the test suite: one provider, two attempts allowed,
    the first refused and the second answered. The answer is returned after
    one wait, and the record shows two requests, one of each kind. *)
Example retry_then_success :
  snd (fst (request sampleWorld sampleRequest failThenOk)) = Return sampleResponse /\
  delays (snd (request sampleWorld sampleRequest failThenOk)) = [10] /\
  statsView (fst (fst (request sampleWorld sampleRequest failThenOk))) !! "openai"
  = Some (ProviderStats.mk 2 1 1 (Number.ofZ 12) (Some 1012) false).
Proof. repeat split; vm_compute; reflexivity. Qed.

Example aggregate_message_names_two :
  aggregateMessage 2 = "All providers failed after 2 attempts".
Proof. reflexivity. Qed.

(** *** Timeouts *)

Lemma tryBlock_effects (w : World) (req : LLMRequest.t) (e : AttemptEnv)
    (p : ProviderConfig.t) (s' : LoadBalancingStrategy) (provider : BaseProvider.t) :
  selectProvider (LLMLoadBalancer.strategy (this w))
    (LoadBalancerConfig.providers (LLMLoadBalancer.config (this w)))
    (statsView w) (random e) = (Return (Some p), s') ->
  LLMLoadBalancer.providers (this w) !! ProviderConfig.name p = Some provider ->
  snd (tryBlock w req e) = [MakeRequest provider req (attemptTimeout w p)] /\
  (settled e = TimedOut ->
   snd (fst (tryBlock w req e))
   = Throw (ThrowLLMError (timeoutError (attemptTimeout w p) p))).
Proof.
  intros Hsel Hp. unfold tryBlock. rewrite Hsel. simpl. rewrite Hp.
  unfold makeRequestWithTimeout.
  split.
  - destruct (settled e); reflexivity.
  - intros ->. reflexivity.
Qed.

(** C8, as amended. In an attempt that selects descriptor [p], the race is
    run with [p]'s timeout when that is set and not 0, otherwise with the
    configured globalTimeout when that is set and not 0, otherwise with
    30000 ms; when the timer wins, the attempt throws an [LLMError] carrying
    the name of [p] and no status code. *)
Theorem attempt_timeout_chain (w : World) (req : LLMRequest.t) (e : AttemptEnv)
    (p : ProviderConfig.t) (s' : LoadBalancingStrategy) (provider : BaseProvider.t) :
  selectProvider (LLMLoadBalancer.strategy (this w))
    (LoadBalancerConfig.providers (LLMLoadBalancer.config (this w)))
    (statsView w) (random e) = (Return (Some p), s') ->
  LLMLoadBalancer.providers (this w) !! ProviderConfig.name p = Some provider ->
  exists T,
    snd (tryBlock w req e) = [MakeRequest provider req T] /\
    (forall t, ProviderConfig.timeout p = Some t -> t <> 0 -> T = t) /\
    (forall g, falsy (ProviderConfig.timeout p) = true ->
       LoadBalancerConfig.globalTimeout (LLMLoadBalancer.config (this w)) = Some g ->
       g <> 0 -> T = g) /\
    (falsy (ProviderConfig.timeout p) = true ->
     falsy (LoadBalancerConfig.globalTimeout (LLMLoadBalancer.config (this w))) = true ->
     T = 30000) /\
    (settled e = TimedOut ->
     exists err,
       snd (fst (tryBlock w req e)) = Throw (ThrowLLMError err) /\
       LLMError.provider err = ProviderConfig.name p /\
       LLMError.statusCode err = None /\
       LLMError.message err
       = ("Request timeout after " ++ numberToString T ++ "ms")%string).
Proof.
  intros Hsel Hp. destruct (tryBlock_effects w req e p s' provider Hsel Hp) as [He Ht].
  exists (attemptTimeout w p). split; [exact He|].
  unfold attemptTimeout, jsOr, jsOrNum, falsy.
  split; [|split; [|split]].
  - intros t -> Ht0. apply Z.eqb_neq in Ht0. rewrite Ht0. rewrite Ht0. reflexivity.
  - intros g Hf -> Hg. rewrite Hf. apply Z.eqb_neq in Hg. rewrite Hg. reflexivity.
  - intros Hf Hg. rewrite Hf.
    destruct (LoadBalancerConfig.globalTimeout _) as [g|]; [|reflexivity].
    rewrite Hg. reflexivity.
  - intros Hs. eexists. split; [apply Ht; exact Hs|]. repeat split.
Qed.

(** A descriptor with timeout 0 under a global timeout of 5000 ms, and a
    race lost to the timer. *)
Lemma attempt_timeout_chain_witness :
  selectProvider (LLMLoadBalancer.strategy (this zeroWorld))
    (LoadBalancerConfig.providers (LLMLoadBalancer.config (this zeroWorld)))
    (statsView zeroWorld) (random (alwaysTimeout 0%nat))
  = (Return (Some openaiZero), FailoverStrategy) /\
  LLMLoadBalancer.providers (this zeroWorld) !! ProviderConfig.name openaiZero
  = Some (BaseProvider.mk OpenAIProvider openaiZero) /\
  exists T,
    snd (tryBlock zeroWorld sampleRequest (alwaysTimeout 0%nat))
    = [MakeRequest (BaseProvider.mk OpenAIProvider openaiZero) sampleRequest T] /\
    (forall g, falsy (ProviderConfig.timeout openaiZero) = true ->
       LoadBalancerConfig.globalTimeout (LLMLoadBalancer.config (this zeroWorld)) = Some g ->
       g <> 0 -> T = g).
Proof.
  split; [reflexivity|]. split; [reflexivity|].
  destruct (attempt_timeout_chain zeroWorld sampleRequest (alwaysTimeout 0%nat)
              openaiZero FailoverStrategy (BaseProvider.mk OpenAIProvider openaiZero)
              eq_refl eq_refl) as (T & He & _ & Hg & _).
  exists T. split; [exact He | exact Hg].
Defined.

(** C8 as stated fails for a descriptor whose timeout is set to 0: the race
    runs with the global 5000 ms. *)
Lemma descriptor_timeout_zero_is_skipped :
  ~ (forall w req e p s' provider t,
       selectProvider (LLMLoadBalancer.strategy (this w))
         (LoadBalancerConfig.providers (LLMLoadBalancer.config (this w)))
         (statsView w) (random e) = (Return (Some p), s') ->
       LLMLoadBalancer.providers (this w) !! ProviderConfig.name p = Some provider ->
       ProviderConfig.timeout p = Some t ->
       snd (tryBlock w req e) = [MakeRequest provider req t]).
Proof.
  intros H.
  specialize (H zeroWorld sampleRequest (alwaysTimeout 0%nat) openaiZero
                FailoverStrategy (BaseProvider.mk OpenAIProvider openaiZero) 0
                eq_refl eq_refl eq_refl).
  vm_compute in H. discriminate H.
Qed.

Example zero_timeout_races_global :
  snd (tryBlock zeroWorld sampleRequest (alwaysTimeout 0%nat))
  = [MakeRequest (BaseProvider.mk OpenAIProvider openaiZero) sampleRequest 5000].
Proof. reflexivity. Qed.

(** *** Back-off *)

Lemma delays_app (a b : list Effect) : delays (a ++ b) = delays a ++ delays b.
Proof.
  induction a as [|[provider req t|ms] a IH]; simpl; [reflexivity | exact IH |].
  rewrite IH. reflexivity.
Qed.

Lemma tryBlock_no_delay (w : World) (req : LLMRequest.t) (e : AttemptEnv) :
  delays (snd (tryBlock w req e)) = [].
Proof.
  unfold tryBlock.
  destruct (selectProvider _ _ _ _) as [[[sel|]|x] s]; simpl; try reflexivity.
  destruct (LLMLoadBalancer.providers _ !! _) as [provider|]; simpl; [|reflexivity].
  destruct (settled e); reflexivity.
Qed.



(** * Further properties of the code *)

(** ** Relating the heap before and after a call *)

Section HeapRelation.
Variable R : ProviderStats.t -> ProviderStats.t -> Prop.
Hypothesis R_refl : forall s, R s s.
Hypothesis R_trans : forall a b c, R a b -> R b c -> R a c.
Hypothesis R_update : forall s success rt now, R s (updateRecord s success rt now).
Hypothesis R_flag : forall s b, R s (ProviderStats.setIsHealthy s b).

Lemma heap_rel_refl (h : list ProviderStats.t) : Forall2 R h h.
Proof. induction h; constructor; auto. Qed.

Lemma heap_rel_trans (h1 h2 h3 : list ProviderStats.t) :
  Forall2 R h1 h2 -> Forall2 R h2 h3 -> Forall2 R h1 h3.
Proof.
  intros H12. revert h3. induction H12; intros h3 H23; inversion H23; subst;
    constructor; eauto.
Qed.

Lemma heap_rel_insert (h : list ProviderStats.t) (l : nat) (s x : ProviderStats.t) :
  h !! l = Some s -> R s x -> Forall2 R h (<[l := x]> h).
Proof.
  intros Hl Hr. apply Forall2_same_length_lookup_2.
  - rewrite length_insert. reflexivity.
  - intros i a b Ha Hb. destruct (decide (l = i)) as [->|N].
    + rewrite list_lookup_insert_eq in Hb by (eapply lookup_lt_Some; exact Hl).
      congruence.
    + rewrite list_lookup_insert_ne in Hb by exact N.
      assert (a = b) by congruence. subst. apply R_refl.
Qed.

Lemma updateStats_rel (name : string) (success : bool) (rt now : Z) (w : World) :
  Forall2 R (heap w) (heap (updateStats name success rt now w)).
Proof.
  unfold updateStats.
  destruct (LLMLoadBalancer.stats (this w) !! name) as [l|]; [|apply heap_rel_refl].
  destruct (heap w !! l) as [s|] eqn:E; [|apply heap_rel_refl].
  simpl. apply (heap_rel_insert _ _ s); [exact E | apply R_update].
Qed.

Lemma tryBlock_rel (w : World) (req : LLMRequest.t) (e : AttemptEnv) :
  Forall2 R (heap w) (heap (fst (fst (tryBlock w req e)))).
Proof.
  unfold tryBlock.
  destruct (selectProvider _ _ _ _) as [[[sel|]|x] s]; simpl; try apply heap_rel_refl.
  destruct (LLMLoadBalancer.providers _ !! _) as [provider|]; simpl;
    [|apply heap_rel_refl].
  destruct (settled e); simpl; try apply heap_rel_refl.
  apply (updateStats_rel _ _ _ _ (withStrategy w s)).
Qed.

Lemma chargeFailure_rel (e : LLMError.t) (now : Z) (w : World) :
  Forall2 R (heap w) (heap (chargeFailure e now w)).
Proof.
  unfold chargeFailure.
  destruct (String.eqb _ _); [apply heap_rel_refl | apply updateStats_rel].
Qed.

Lemma requestLoop_rel (remaining : nat) :
  forall attempt maxRetries retryDelay req env w errors trace,
    Forall2 R (heap w)
      (heap (fst (fst (requestLoop remaining attempt maxRetries retryDelay req env w
                         errors trace)))).
Proof.
  induction remaining as [|r IH]; intros attempt maxRetries retryDelay req env w errors trace.
  - apply heap_rel_refl.
  - cbn [requestLoop].
    pose proof (tryBlock_rel w req (env attempt)) as H1.
    destruct (tryBlock w req (env attempt)) as [[w1 [response|error]] effects];
      simpl in H1.
    + exact H1.
    + eapply heap_rel_trans; [exact H1|].
      eapply heap_rel_trans; [apply chargeFailure_rel | apply IH].
Qed.

Lemma writeIsHealthy_rel (name : string) (b : bool) (w w' : World) :
  writeIsHealthy name b w = Some w' -> Forall2 R (heap w) (heap w').
Proof.
  unfold writeIsHealthy.
  destruct (LLMLoadBalancer.stats (this w) !! name) as [l|]; [|discriminate].
  destruct (heap w !! l) as [s|] eqn:E; [|discriminate].
  intros [= <-]. simpl. apply (heap_rel_insert _ _ s); [exact E | apply R_flag].
Qed.

Lemma probeFailed_rel (name : string) (st : World * gmap string bool) :
  Forall2 R (heap (fst st)) (heap (fst (probeFailed name st))).
Proof.
  destruct st as [w hs]. unfold probeFailed.
  destruct (writeIsHealthy name false w) eqn:E; simpl;
    [exact (writeIsHealthy_rel _ _ _ _ E) | apply heap_rel_refl].
Qed.

Lemma settleProbe_rel (w0 : World) (env : ProbeEnv) (i : nat)
    (st : World * gmap string bool) :
  Forall2 R (heap (fst st)) (heap (fst (settleProbe w0 env i st))).
Proof.
  unfold settleProbe.
  destruct (LoadBalancerConfig.providers _ !! i) as [pc|]; [|apply heap_rel_refl].
  destruct (LLMLoadBalancer.providers _ !! _); [|apply heap_rel_refl].
  destruct (fst (makeRequestWithTimeout _ _ _ _ _)).
  - destruct st as [w hs].
    destruct (writeIsHealthy (ProviderConfig.name pc) true w) eqn:E.
    + simpl. exact (writeIsHealthy_rel _ _ _ _ E).
    + apply (probeFailed_rel _ (w, <[ProviderConfig.name pc := true]> hs)).
  - apply probeFailed_rel.
Qed.

Lemma healthCheck_rel (w : World) (env : ProbeEnv) :
  Forall2 R (heap w) (heap (fst (fst (healthCheck w env)))).
Proof.
  unfold healthCheck. destruct (startProbes w _ ∅) as [hs effects].
  assert (G : forall l st,
            Forall2 R (heap (fst st))
              (heap (fst (fold_left (fun st i => settleProbe w env i st) l st)))).
  { induction l as [|i l IH]; intros st; simpl; [apply heap_rel_refl|].
    eapply heap_rel_trans; [apply settleProbe_rel | apply IH]. }
  specialize (G (order env) (w, hs)).
  destruct (fold_left _ _ _) as [w' hs']. exact G.
Qed.
End HeapRelation.

(** ** Soundness of every reachable balancer *)

Lemma tablesSound_register (providers : gmap string BaseProvider.t)
    (stats : gmap string nat) (h : list ProviderStats.t) (c : ProviderConfig.t)
    (a : BaseProvider.t) :
  createProvider c = Return a ->
  tablesSound providers stats h ->
  tablesSound (<[ProviderConfig.name c := a]> providers)
    (<[ProviderConfig.name c := length h]> stats) (h ++ [ProviderStats.fresh]).
Proof.
  intros Hc (V & I & D & N).
  destruct (createProvider_supported _ _ Hc) as [_ Hcfg].
  split; [|split; [|split]].
  - intros n l. rewrite length_app. simpl.
    destruct (decide (ProviderConfig.name c = n)) as [->|Hne].
    + rewrite lookup_insert_eq. intros [= <-]. lia.
    + rewrite lookup_insert_ne by exact Hne. intros H. apply V in H. lia.
  - intros n1 n2 l.
    destruct (decide (ProviderConfig.name c = n1)) as [E1|N1];
      destruct (decide (ProviderConfig.name c = n2)) as [E2|N2].
    + congruence.
    + rewrite E1, lookup_insert_eq. rewrite <- E1, lookup_insert_ne by exact N2.
      intros [= <-] H. apply V in H. lia.
    + rewrite E2, lookup_insert_eq. rewrite <- E2, lookup_insert_ne by exact N1.
      intros H [= <-]. apply V in H. lia.
    + rewrite !lookup_insert_ne by assumption. apply I.
  - intros n. destruct (decide (ProviderConfig.name c = n)) as [->|Hne].
    + rewrite !lookup_insert_eq. split; intros _; eexists; reflexivity.
    + rewrite !lookup_insert_ne by exact Hne. apply D.
  - intros n b. destruct (decide (ProviderConfig.name c = n)) as [<-|Hne].
    + rewrite lookup_insert_eq. intros [= <-]. rewrite Hcfg. reflexivity.
    + rewrite lookup_insert_ne by exact Hne. apply N.
Qed.

Lemma tablesSound_delete (providers : gmap string BaseProvider.t)
    (stats : gmap string nat) (h : list ProviderStats.t) (name : string) :
  tablesSound providers stats h ->
  tablesSound (delete name providers) (delete name stats) h.
Proof.
  intros (V & I & D & N). split; [|split; [|split]].
  - intros n l H. apply lookup_delete_Some in H as [_ H]. exact (V _ _ H).
  - intros n1 n2 l H1 H2. apply lookup_delete_Some in H1 as [_ H1].
    apply lookup_delete_Some in H2 as [_ H2]. exact (I _ _ _ H1 H2).
  - intros n. destruct (decide (name = n)) as [->|Hne].
    + rewrite !lookup_delete_eq. split; intros [x Hx]; discriminate.
    + rewrite !lookup_delete_ne by exact Hne. apply D.
  - intros n a H. apply lookup_delete_Some in H as [_ H]. exact (N _ _ H).
Qed.

Lemma tablesSound_empty : tablesSound ∅ ∅ [].
Proof.
  split; [|split; [|split]].
  - intros n l H. rewrite lookup_empty in H. discriminate.
  - intros n1 n2 l H. rewrite lookup_empty in H. discriminate.
  - intros n. rewrite !lookup_empty. split; intros [x Hx]; discriminate.
  - intros n a H. rewrite lookup_empty in H. discriminate.
Qed.

Lemma initializeProviders_tablesSound (configs : list ProviderConfig.t) :
  forall providers stats h providers' stats' h',
    tablesSound providers stats h ->
    initializeProviders configs providers stats h = Return (providers', stats', h') ->
    tablesSound providers' stats' h'.
Proof.
  induction configs as [|pc rest IH]; intros providers stats h providers' stats' h' H;
    simpl.
  - intros [= <- <- <-]. exact H.
  - destruct (createProvider pc) as [a|] eqn:Ec; [|discriminate].
    apply IH. apply tablesSound_register; assumption.
Qed.

Lemma createStrategy_fits (cfg : LoadBalancerConfig.t) (s : LoadBalancingStrategy) :
  createStrategy (LoadBalancerConfig.strategy cfg) (LoadBalancerConfig.providers cfg)
    (LoadBalancerConfig.customStrategy cfg) = Return s ->
  fits s cfg.
Proof.
  unfold createStrategy.
  destruct (LoadBalancerConfig.strategy cfg) eqn:Ek.
  - intros [= <-]. simpl. split; [exact Ek | left; reflexivity].
  - intros [= <-]. exact Ek.
  - destruct (WeightedStrategy.calculateWeights _). intros [= <-]. exact Ek.
  - destruct (LoadBalancerConfig.customStrategy cfg) as [f|] eqn:Ef; [|discriminate].
    intros [= <-]. split; [exact Ek | exact Ef].
Qed.

Lemma selectProvider_fits (s : LoadBalancingStrategy) (cfg : LoadBalancerConfig.t)
    (stats : StatsView) (rnd : number) :
  fits s cfg ->
  fits (snd (selectProvider s (LoadBalancerConfig.providers cfg) stats rnd)) cfg.
Proof.
  destruct s as [c| |cw tw|f]; simpl.
  - unfold RoundRobinStrategy.selectProvider.
    destruct (Nat.eqb_spec (length (LoadBalancerConfig.providers cfg)) 0) as [E|N];
      simpl; [auto|].
    intros [Hk _]. split; [exact Hk|]. right. apply Nat.mod_upper_bound. exact N.
  - auto.
  - destruct (WeightedStrategy.selectProvider _ _ _ _ _) as [r [cw' tw']]. auto.
  - auto.
Qed.

Lemma tryBlock_this (w : World) (req : LLMRequest.t) (e : AttemptEnv) :
  this (fst (fst (tryBlock w req e)))
  = LLMLoadBalancer.setStrategy (this w)
      (snd (selectProvider (LLMLoadBalancer.strategy (this w))
              (LoadBalancerConfig.providers (LLMLoadBalancer.config (this w)))
              (statsView w) (random e))).
Proof.
  unfold tryBlock.
  destruct (selectProvider _ _ _ _) as [[[sel|]|x] s]; simpl; try reflexivity.
  destruct (LLMLoadBalancer.providers _ !! _) as [provider|]; simpl; [|reflexivity].
  destruct (settled e); simpl; try reflexivity.
  unfold updateStats. simpl.
  destruct (LLMLoadBalancer.stats (this w) !! _); [|reflexivity].
  destruct (heap w !! _); reflexivity.
Qed.

Lemma updateStats_this (name : string) (success : bool) (rt now : Z) (w : World) :
  this (updateStats name success rt now w) = this w.
Proof.
  unfold updateStats.
  destruct (LLMLoadBalancer.stats (this w) !! name); [|reflexivity].
  destruct (heap w !! _); reflexivity.
Qed.

Lemma chargeFailure_this (e : LLMError.t) (now : Z) (w : World) :
  this (chargeFailure e now w) = this w.
Proof.
  unfold chargeFailure. destruct (String.eqb _ _); [reflexivity | apply updateStats_this].
Qed.

Lemma requestLoop_fits (remaining : nat) :
  forall attempt maxRetries retryDelay req env w errors trace,
    fits (LLMLoadBalancer.strategy (this w)) (LLMLoadBalancer.config (this w)) ->
    let w' := fst (fst (requestLoop remaining attempt maxRetries retryDelay req env w
                          errors trace)) in
    fits (LLMLoadBalancer.strategy (this w')) (LLMLoadBalancer.config (this w')).
Proof.
  induction remaining as [|r IH];
    intros attempt maxRetries retryDelay req env w errors trace H; cbv zeta.
  - exact H.
  - cbn [requestLoop].
    pose proof (tryBlock_this w req (env attempt)) as Ht.
    destruct (tryBlock w req (env attempt)) as [[w1 [response|error]] effects];
      simpl in Ht.
    + simpl. rewrite Ht. simpl. apply selectProvider_fits. exact H.
    + apply IH. rewrite chargeFailure_this, Ht. simpl.
      apply selectProvider_fits. exact H.
Qed.

Lemma healthCheck_this (w : World) (env : ProbeEnv) :
  this (fst (fst (healthCheck w env))) = this w.
Proof.
  unfold healthCheck. destruct (startProbes w _ ∅) as [hs effects].
  assert (W : forall name b w1 w2, writeIsHealthy name b w1 = Some w2 -> this w2 = this w1).
  { intros name b w1 w2. unfold writeIsHealthy.
    destruct (LLMLoadBalancer.stats (this w1) !! name); [|discriminate].
    destruct (heap w1 !! _); [|discriminate]. intros [= <-]. reflexivity. }
  assert (F : forall name st, this (fst (probeFailed name st)) = this (fst st)).
  { intros name [w1 hs1]. unfold probeFailed.
    destruct (writeIsHealthy name false w1) eqn:E; simpl; [exact (W _ _ _ _ E) | reflexivity]. }
  assert (G : forall l st,
            this (fst (fold_left (fun st i => settleProbe w env i st) l st)) = this (fst st)).
  { induction l as [|i l IH]; intros st; simpl; [reflexivity|].
    rewrite IH. unfold settleProbe.
    destruct (LoadBalancerConfig.providers _ !! i) as [pc|]; [|reflexivity].
    destruct (LLMLoadBalancer.providers _ !! _); [|reflexivity].
    destruct (fst (makeRequestWithTimeout _ _ _ _ _)); [|apply F].
    destruct st as [w1 hs1].
    destruct (writeIsHealthy (ProviderConfig.name pc) true w1) eqn:E.
    - simpl. exact (W _ _ _ _ E).
    - apply (F _ (w1, <[ProviderConfig.name pc := true]> hs1)). }
  specialize (G (order env) (w, hs)).
  destruct (fold_left _ _ _) as [w' hs']. exact G.
Qed.

Lemma heap_length_rel (h h' : list ProviderStats.t) :
  Forall2 (fun _ _ => True) h h' -> length h' = length h.
Proof. intros H. symmetry. exact (Forall2_length _ _ _ H). Qed.

Lemma request_heap_length (w : World) (req : LLMRequest.t) (env : nat -> AttemptEnv) :
  length (heap (fst (fst (request w req env)))) = length (heap w).
Proof.
  apply heap_length_rel. unfold request. apply requestLoop_rel; auto.
Qed.

Lemma healthCheck_heap_length (w : World) (env : ProbeEnv) :
  length (heap (fst (fst (healthCheck w env)))) = length (heap w).
Proof. apply heap_length_rel. apply healthCheck_rel; auto. Qed.

Lemma sound_same_tables (w w' : World) :
  sameRegistry w w' -> length (heap w') = length (heap w) ->
  fits (LLMLoadBalancer.strategy (this w')) (LLMLoadBalancer.config (this w')) ->
  sound w -> sound w'.
Proof.
  intros Hreg Hlen Hfit (Hwf & Ht & _).
  split; [exact (wellFormed_registry _ _ Hreg Hwf)|].
  destruct Hreg as (A & B & C). unfold tablesSound in *. rewrite A, C, Hlen.
  split; assumption.
Qed.

Lemma construct_sound (config : LoadBalancerConfig.t) (w0 : World) :
  construct config = Return w0 -> sound w0.
Proof.
  intros Hc. split; [exact (construct_wellFormed _ _ Hc)|].
  revert Hc. unfold construct.
  destruct (initializeProviders _ ∅ ∅ []) as [[[providers stats] h]|] eqn:E;
    [|discriminate].
  destruct (createStrategy _ _ _) as [s|] eqn:Es; [|discriminate].
  intros [= <-]. simpl. split.
  - exact (initializeProviders_tablesSound _ _ _ _ _ _ _ tablesSound_empty E).
  - apply createStrategy_fits. exact Es.
Qed.

Lemma addProvider_sound (w : World) (c : ProviderConfig.t) :
  sound w -> sound (fst (addProvider w c)).
Proof.
  intros Hs. pose proof Hs as (Hwf & Ht & Hfit).
  split; [apply addProvider_wellFormed; exact Hwf|].
  unfold addProvider.
  destruct (createProvider c) as [a|] eqn:Ec; [|split; assumption].
  destruct Hwf as (_ & _ & H3).
  destruct (createStrategy_total
              (LoadBalancerConfig.strategy (LLMLoadBalancer.config (this w)))
              (LoadBalancerConfig.customStrategy (LLMLoadBalancer.config (this w)))
              (LoadBalancerConfig.providers (LLMLoadBalancer.config (this w)) ++ [c])
              H3) as [s Es].
  simpl. rewrite Es. simpl. split.
  - apply tablesSound_register; assumption.
  - apply (createStrategy_fits
             (LoadBalancerConfig.setProviders (LLMLoadBalancer.config (this w))
                (LoadBalancerConfig.providers (LLMLoadBalancer.config (this w)) ++ [c]))).
    exact Es.
Qed.

Lemma removeProvider_sound (w : World) (name : string) :
  sound w -> sound (fst (removeProvider w name)).
Proof.
  intros Hs. pose proof Hs as (Hwf & Ht & Hfit).
  split; [apply removeProvider_wellFormed; exact Hwf|].
  unfold removeProvider. destruct Hwf as (_ & _ & H3).
  destruct (createStrategy_total
              (LoadBalancerConfig.strategy (LLMLoadBalancer.config (this w)))
              (LoadBalancerConfig.customStrategy (LLMLoadBalancer.config (this w)))
              (List.filter (fun p => negb (String.eqb (ProviderConfig.name p) name))
                 (LoadBalancerConfig.providers (LLMLoadBalancer.config (this w))))
              H3) as [s Es].
  simpl. rewrite Es. simpl. split.
  - apply tablesSound_delete. exact Ht.
  - apply (createStrategy_fits
             (LoadBalancerConfig.setProviders (LLMLoadBalancer.config (this w))
                (List.filter (fun p => negb (String.eqb (ProviderConfig.name p) name))
                   (LoadBalancerConfig.providers (LLMLoadBalancer.config (this w)))))).
    exact Es.
Qed.

Lemma exec_sound (w : World) (c : Call) : sound w -> sound (exec w c).
Proof.
  intros H. destruct c; simpl; try exact H.
  - apply (sound_same_tables w).
    + apply requestLoop_registry.
    + apply request_heap_length.
    + apply requestLoop_fits. apply H.
    + exact H.
  - apply (sound_same_tables w).
    + apply healthCheck_registry.
    + apply healthCheck_heap_length.
    + rewrite healthCheck_this. apply H.
    + exact H.
  - apply addProvider_sound. exact H.
  - apply removeProvider_sound. exact H.
Qed.

Lemma reachable_sound (w : World) : reachable w -> sound w.
Proof.
  intros (config & w0 & calls & Hc & ->).
  apply construct_sound in Hc. revert w0 Hc. unfold run.
  induction calls as [|c calls IH]; intros w0 H; simpl; [exact H|].
  apply IH. apply exec_sound. exact H.
Qed.

Lemma deref_app_fresh (h : list ProviderStats.t) (stats : gmap string nat)
    (extra : list ProviderStats.t) (n : string) :
  (forall m l, stats !! m = Some l -> (l < length h)%nat) ->
  deref (h ++ extra) stats !! n = deref h stats !! n.
Proof.
  intros V. unfold deref. rewrite !lookup_omap.
  destruct (stats !! n) as [l|] eqn:El; simpl; [|reflexivity].
  apply lookup_app_l. exact (V _ _ El).
Qed.

(** ** Balancers on one configuration object *)

Lemma setProviders_id (cfg : LoadBalancerConfig.t) :
  LoadBalancerConfig.setProviders cfg (LoadBalancerConfig.providers cfg) = cfg.
Proof. destruct cfg. reflexivity. Qed.

Lemma fits_kindFits (s : LoadBalancingStrategy) (cfg : LoadBalancerConfig.t) :
  fits s cfg -> kindFits s cfg.
Proof. destruct s; simpl; tauto. Qed.

Lemma kindFits_custom (s : LoadBalancingStrategy) (cfg : LoadBalancerConfig.t) :
  kindFits s cfg -> LoadBalancerConfig.strategy cfg = Custom ->
  is_Some (LoadBalancerConfig.customStrategy cfg).
Proof.
  destruct s; simpl; intros H E; try congruence.
  destruct H as [_ ->]. eexists. reflexivity.
Qed.

Lemma kindFits_setProviders (s : LoadBalancingStrategy) (cfg : LoadBalancerConfig.t)
    (l : list ProviderConfig.t) :
  kindFits s cfg -> kindFits s (LoadBalancerConfig.setProviders cfg l).
Proof. destruct s; simpl; tauto. Qed.

Lemma selectProvider_kindFits (s : LoadBalancingStrategy) (cfg : LoadBalancerConfig.t)
    (providers : list ProviderConfig.t) (stats : StatsView) (rnd : number) :
  kindFits s cfg -> kindFits (snd (selectProvider s providers stats rnd)) cfg.
Proof.
  destruct s as [c| |cw tw|f]; simpl.
  - unfold RoundRobinStrategy.selectProvider.
    destruct (length providers =? 0)%nat; auto.
  - auto.
  - destruct (WeightedStrategy.selectProvider _ _ _ _ _) as [r [cw' tw']]. auto.
  - auto.
Qed.

Lemma requestLoop_kindFits (remaining : nat) :
  forall attempt maxRetries retryDelay req env w errors trace,
    kindFits (LLMLoadBalancer.strategy (this w)) (LLMLoadBalancer.config (this w)) ->
    let w' := fst (fst (requestLoop remaining attempt maxRetries retryDelay req env w
                          errors trace)) in
    kindFits (LLMLoadBalancer.strategy (this w')) (LLMLoadBalancer.config (this w')).
Proof.
  induction remaining as [|r IH];
    intros attempt maxRetries retryDelay req env w errors trace H; cbv zeta.
  - exact H.
  - cbn [requestLoop].
    pose proof (tryBlock_this w req (env attempt)) as Ht.
    destruct (tryBlock w req (env attempt)) as [[w1 [response|error]] effects];
      simpl in Ht.
    + simpl. rewrite Ht. simpl. apply selectProvider_kindFits. exact H.
    + apply IH. rewrite chargeFailure_this, Ht. simpl.
      apply selectProvider_kindFits. exact H.
Qed.

Lemma sound_coherent (w : World) : sound w -> coherent w.
Proof.
  intros ((H1 & H2 & _) & Ht & Hfit).
  split; [exact Ht|]. split; [exact H2|]. split; [apply fits_kindFits; exact Hfit|].
  intros p Hp. apply H2, H1. exists p. split; [exact Hp | reflexivity].
Qed.

Lemma coherent_same_tables (w w' : World) :
  sameRegistry w w' -> length (heap w') = length (heap w) ->
  kindFits (LLMLoadBalancer.strategy (this w')) (LLMLoadBalancer.config (this w')) ->
  coherent w -> coherent w'.
Proof.
  intros (A & B & C) Hlen Hfit (Ht & Hsup & _ & Hcfg).
  unfold coherent, registered, tablesSound in *. rewrite A, B, C, Hlen.
  split; [exact Ht|]. split; [exact Hsup|]. split; [|exact Hcfg].
  rewrite <- B. exact Hfit.
Qed.

Lemma addProvider_coherent (w : World) (c : ProviderConfig.t) :
  coherent w -> coherent (fst (addProvider w c)).
Proof.
  intros Hs. pose proof Hs as (Ht & Hsup & Hfit & Hcfg).
  unfold addProvider.
  destruct (createProvider c) as [a|] eqn:Ec; [|exact Hs].
  destruct (createProvider_supported _ _ Ec) as [Hc _].
  destruct (createStrategy_total
              (LoadBalancerConfig.strategy (LLMLoadBalancer.config (this w)))
              (LoadBalancerConfig.customStrategy (LLMLoadBalancer.config (this w)))
              (LoadBalancerConfig.providers (LLMLoadBalancer.config (this w)) ++ [c])
              (kindFits_custom _ _ Hfit)) as [s Es].
  simpl. rewrite Es. unfold coherent, registered. simpl.
  split; [apply tablesSound_register; assumption|]. split; [|split].
  - intros name. destruct (decide (ProviderConfig.name c = name)) as [<-|N].
    + intros _. exact Hc.
    + rewrite lookup_insert_ne by exact N. apply Hsup.
  - apply fits_kindFits.
    apply (createStrategy_fits
             (LoadBalancerConfig.setProviders (LLMLoadBalancer.config (this w))
                (LoadBalancerConfig.providers (LLMLoadBalancer.config (this w)) ++ [c]))).
    exact Es.
  - intros p Hp. apply elem_of_app in Hp as [Hp|Hp]; [apply Hcfg; exact Hp|].
    apply list_elem_of_singleton in Hp. subst p. exact Hc.
Qed.

Lemma removeProvider_coherent (w : World) (name : string) :
  coherent w -> coherent (fst (removeProvider w name)).
Proof.
  intros (Ht & Hsup & Hfit & Hcfg). unfold removeProvider.
  destruct (createStrategy_total
              (LoadBalancerConfig.strategy (LLMLoadBalancer.config (this w)))
              (LoadBalancerConfig.customStrategy (LLMLoadBalancer.config (this w)))
              (List.filter (fun p => negb (String.eqb (ProviderConfig.name p) name))
                 (LoadBalancerConfig.providers (LLMLoadBalancer.config (this w))))
              (kindFits_custom _ _ Hfit)) as [s Es].
  simpl. rewrite Es. unfold coherent, registered. simpl.
  split; [apply tablesSound_delete; exact Ht|]. split; [|split].
  - intros n [a Ha]. apply lookup_delete_Some in Ha as [_ Ha].
    apply Hsup. exists a. exact Ha.
  - apply fits_kindFits.
    apply (createStrategy_fits
             (LoadBalancerConfig.setProviders (LLMLoadBalancer.config (this w))
                (List.filter (fun p => negb (String.eqb (ProviderConfig.name p) name))
                   (LoadBalancerConfig.providers (LLMLoadBalancer.config (this w)))))).
    exact Es.
  - intros p Hp. apply list_elem_of_In, filter_In in Hp as [Hp _].
    apply Hcfg. apply list_elem_of_In. exact Hp.
Qed.

Lemma exec_coherent (w : World) (c : Call) : coherent w -> coherent (exec w c).
Proof.
  intros H. destruct c; simpl; try exact H.
  - apply (coherent_same_tables w).
    + apply requestLoop_registry.
    + apply request_heap_length.
    + apply requestLoop_kindFits. apply H.
    + exact H.
  - apply (coherent_same_tables w).
    + apply healthCheck_registry.
    + apply healthCheck_heap_length.
    + rewrite healthCheck_this. apply H.
    + exact H.
  - apply addProvider_coherent. exact H.
  - apply removeProvider_coherent. exact H.
Qed.

(** What a call does to the configuration object: it leaves it alone, or
    appends a descriptor with an accepted name to the provider list, or
    filters the list. *)
Lemma exec_config (w : World) (c : Call) :
  exists l,
    LLMLoadBalancer.config (this (exec w c))
    = LoadBalancerConfig.setProviders (LLMLoadBalancer.config (this w)) l /\
    (forall p, p ∈ l ->
       p ∈ LoadBalancerConfig.providers (LLMLoadBalancer.config (this w)) \/
       supported (ProviderConfig.name p)).
Proof.
  assert (Hsame : forall w', LLMLoadBalancer.config (this w') = LLMLoadBalancer.config (this w) ->
            exists l,
              LLMLoadBalancer.config (this w')
              = LoadBalancerConfig.setProviders (LLMLoadBalancer.config (this w)) l /\
              (forall p, p ∈ l ->
                 p ∈ LoadBalancerConfig.providers (LLMLoadBalancer.config (this w)) \/
                 supported (ProviderConfig.name p))).
  { intros w' E. exists (LoadBalancerConfig.providers (LLMLoadBalancer.config (this w))).
    rewrite setProviders_id. split; [exact E | auto]. }
  destruct c; simpl.
  - apply Hsame. apply requestLoop_registry.
  - apply Hsame. reflexivity.
  - apply Hsame. reflexivity.
  - apply Hsame. rewrite healthCheck_this. reflexivity.
  - unfold addProvider. destruct (createProvider config) as [a|] eqn:Ec;
      [|apply Hsame; reflexivity].
    destruct (createProvider_supported _ _ Ec) as [Hc _].
    exists (LoadBalancerConfig.providers (LLMLoadBalancer.config (this w)) ++ [config]).
    split; [destruct (createStrategy _ _ _); reflexivity|].
    intros p Hp. apply elem_of_app in Hp as [Hp|Hp]; [left; exact Hp|].
    apply list_elem_of_singleton in Hp. subst p. right. exact Hc.
  - unfold removeProvider.
    exists (List.filter (fun p => negb (String.eqb (ProviderConfig.name p) providerName))
              (LoadBalancerConfig.providers (LLMLoadBalancer.config (this w)))).
    split; [destruct (createStrategy _ _ _); reflexivity|].
    intros p Hp. left. apply list_elem_of_In, filter_In in Hp as [Hp _].
    apply list_elem_of_In. exact Hp.
Qed.

Lemma peerExec_spec (w peer : World) (c : Call) :
  exists l,
    peerExec w peer c
    = setConfig w (LoadBalancerConfig.setProviders (LLMLoadBalancer.config (this w)) l) /\
    (forall p, p ∈ l ->
       p ∈ LoadBalancerConfig.providers (LLMLoadBalancer.config (this w)) \/
       supported (ProviderConfig.name p)).
Proof.
  destruct (exec_config (setConfig peer (LLMLoadBalancer.config (this w))) c)
    as (l & Hl & Hin).
  exists l. unfold peerExec. rewrite Hl. split; [reflexivity | exact Hin].
Qed.

Lemma peerExec_coherent (w peer : World) (c : Call) :
  coherent w -> coherent (peerExec w peer c).
Proof.
  intros (Ht & Hsup & Hfit & Hcfg).
  destruct (peerExec_spec w peer c) as (l & -> & Hin).
  unfold coherent, registered, setConfig. simpl.
  split; [exact Ht|]. split; [exact Hsup|].
  split; [apply kindFits_setProviders; exact Hfit|].
  intros p Hp. destruct (Hin p Hp) as [H|H]; [apply Hcfg; exact H | exact H].
Qed.

Lemma step_coherent (w : World) (e : Event) : coherent w -> coherent (step w e).
Proof.
  destruct e as [c|peer c]; [apply exec_coherent | apply peerExec_coherent].
Qed.

Lemma runShared_coherent (events : list Event) :
  forall w, coherent w -> coherent (runShared w events).
Proof.
  unfold runShared.
  induction events as [|e events IH]; intros w H; simpl; [exact H|].
  apply IH. apply step_coherent. exact H.
Qed.

Lemma reachableShared_coherent (w : World) : reachableShared w -> coherent w.
Proof.
  intros (config & w0 & events & Hc & ->).
  apply runShared_coherent. apply sound_coherent. exact (construct_sound _ _ Hc).
Qed.

(** A balancer alone on its configuration object is a special case. *)
Lemma reachable_reachableShared (w : World) : reachable w -> reachableShared w.
Proof.
  intros (config & w0 & calls & Hc & ->).
  exists config, w0, (map Own calls). split; [exact Hc|].
  unfold run, runShared. clear Hc. revert w0.
  induction calls as [|c calls IH]; intros w0; simpl; [reflexivity | apply IH].
Qed.

(** The adapter of a name comes with a record, and was built from a
    descriptor of that name. *)
Lemma coherent_adapter_record (w : World) (name : string) (a : BaseProvider.t) :
  coherent w ->
  LLMLoadBalancer.providers (this w) !! name = Some a ->
  exists l s,
    LLMLoadBalancer.stats (this w) !! name = Some l /\
    heap w !! l = Some s /\
    statsView w !! name = Some s /\
    ProviderConfig.name (BaseProvider.config a) = name /\
    name <> "unknown".
Proof.
  intros ((V & _ & D & N) & Hsup & _) Ha.
  assert (Hreg : registered w name) by (exists a; exact Ha).
  destruct (proj2 (D _) Hreg) as [l Hl].
  destruct (lookup_lt_is_Some_2 (heap w) l (V _ _ Hl)) as [s Hs].
  exists l, s. split; [exact Hl|]. split; [exact Hs|]. split; [|split].
  - unfold statsView, deref. rewrite lookup_omap, Hl. exact Hs.
  - exact (N _ _ Ha).
  - intros E. apply Hsup in Hreg. rewrite E in Hreg. destruct Hreg as [k Hk].
    vm_compute in Hk. discriminate.
Qed.

(** A name without an adapter has no record. *)
Lemma coherent_no_adapter_no_record (w : World) (name : string) :
  coherent w ->
  LLMLoadBalancer.providers (this w) !! name = None ->
  statsView w !! name = None.
Proof.
  intros ((_ & _ & D & _) & _) Ha.
  unfold statsView, deref. rewrite lookup_omap.
  destruct (LLMLoadBalancer.stats (this w) !! name) as [l|] eqn:El; [|reflexivity].
  exfalso. destruct (proj1 (D name)) as [a Ha']; [eexists; exact El|]. congruence.
Qed.

(** ** Health sweeps, whatever the provider list holds *)

Lemma startProbes_spec (w : World) (configs : list ProviderConfig.t) :
  forall hs,
    snd (startProbes w configs hs) = omap (probeOf w) configs /\
    (forall n b, fst (startProbes w configs hs) !! n = Some b ->
       hs !! n = Some b \/
       (b = false /\
        exists pc, pc ∈ configs /\ ProviderConfig.name pc = n /\ hasAdapter w pc = false)) /\
    (forall n, is_Some (hs !! n) -> is_Some (fst (startProbes w configs hs) !! n)) /\
    (forall pc, pc ∈ configs -> hasAdapter w pc = false ->
       fst (startProbes w configs hs) !! ProviderConfig.name pc = Some false).
Proof.
  induction configs as [|pc rest IH]; intros hs.
  - simpl. split; [reflexivity|]. split; [auto|]. split; [auto|].
    intros pc Hpc. inversion Hpc.
  - cbn [startProbes omap list_omap]. unfold probeOf at 1, hasAdapter.
    destruct (LLMLoadBalancer.providers (this w) !! ProviderConfig.name pc) as [a|] eqn:Ea.
    + destruct (IH hs) as (E & A & B & C).
      destruct (startProbes w rest hs) as [hs' effects]. simpl in *.
      split; [rewrite E; reflexivity|]. split; [|split].
      * intros n b Hb. destruct (A n b Hb) as [H|(Hf & q & Hq & Hn & Hq')]; [left; exact H|].
        right. split; [exact Hf|]. exists q. split; [right; exact Hq | auto].
      * exact B.
      * intros q Hq Hq'. apply elem_of_cons in Hq as [->|Hq].
        -- rewrite Ea in Hq'. discriminate.
        -- apply C; assumption.
    + destruct (IH (<[ProviderConfig.name pc := false]> hs)) as (E & A & B & C).
      split; [exact E|]. split; [|split].
      * intros n b Hb. destruct (A n b Hb) as [H|(Hf & q & Hq & Hn & Hq')].
        -- destruct (decide (ProviderConfig.name pc = n)) as [<-|N].
           ++ rewrite lookup_insert_eq in H. injection H as <-.
              right. split; [reflexivity|]. exists pc.
              split; [left|]. split; [reflexivity|]. rewrite Ea. reflexivity.
           ++ rewrite lookup_insert_ne in H by exact N. left. exact H.
        -- right. split; [exact Hf|]. exists q. split; [right; exact Hq | auto].
      * intros n Hn. apply B.
        destruct (decide (ProviderConfig.name pc = n)) as [<-|N].
        -- rewrite lookup_insert_eq. eexists. reflexivity.
        -- rewrite lookup_insert_ne by exact N. exact Hn.
      * intros q Hq Hq'. apply elem_of_cons in Hq as [->|Hq]; [|apply C; assumption].
        destruct (B (ProviderConfig.name pc)) as [b Hb].
        { rewrite lookup_insert_eq. eexists. reflexivity. }
        rewrite Hb. f_equal.
        destruct (A _ _ Hb) as [H|[Hf _]]; [|exact Hf].
        rewrite lookup_insert_eq in H. congruence.
Qed.

Lemma statsView_insert_same (w wc : World) (name : string) (l : nat)
    (x : ProviderStats.t) :
  this wc = this w ->
  LLMLoadBalancer.stats (this w) !! name = Some l ->
  (l < length (heap wc))%nat ->
  statsView (mkWorld (this wc) (<[l := x]> (heap wc))) !! name = Some x.
Proof.
  intros Hthis Hl Hlt. unfold statsView, deref. simpl.
  rewrite lookup_omap, Hthis, Hl. simpl. apply list_lookup_insert_eq. exact Hlt.
Qed.

Lemma statsView_insert_other (w wc : World) (name n : string) (l : nat)
    (x : ProviderStats.t) :
  this wc = this w ->
  (forall n1 n2 l0,
     LLMLoadBalancer.stats (this w) !! n1 = Some l0 ->
     LLMLoadBalancer.stats (this w) !! n2 = Some l0 -> n1 = n2) ->
  LLMLoadBalancer.stats (this w) !! name = Some l ->
  n <> name ->
  statsView (mkWorld (this wc) (<[l := x]> (heap wc))) !! n = statsView wc !! n.
Proof.
  intros Hthis Hinj Hl Hne. unfold statsView, deref. simpl.
  rewrite !lookup_omap, Hthis.
  destruct (LLMLoadBalancer.stats (this w) !! n) as [l'|] eqn:El'; simpl; [|reflexivity].
  apply list_lookup_insert_ne. intros <-. apply Hne. exact (Hinj _ _ _ El' Hl).
Qed.

(** One settled probe of a descriptor whose name has an adapter: the flag
    of that name and the reported status get the same value. *)
Lemma settleProbe_registered (w : World) (env : ProbeEnv) (i : nat)
    (pc : ProviderConfig.t) (a : BaseProvider.t) (wc : World) (hs : gmap string bool) :
  coherent w -> this wc = this w -> length (heap wc) = length (heap w) ->
  LoadBalancerConfig.providers (LLMLoadBalancer.config (this w)) !! i = Some pc ->
  LLMLoadBalancer.providers (this w) !! ProviderConfig.name pc = Some a ->
  exists l s0,
    LLMLoadBalancer.stats (this w) !! ProviderConfig.name pc = Some l /\
    heap wc !! l = Some s0 /\
    settleProbe w env i (wc, hs)
    = (mkWorld (this wc)
         (<[l := ProviderStats.setIsHealthy s0 (answered (probe env i))]> (heap wc)),
       <[ProviderConfig.name pc := answered (probe env i)]> hs).
Proof.
  intros Hs Hthis Hlen Hi Ha.
  destruct (coherent_adapter_record w _ a Hs Ha) as (l & s & Hl & Hhs & _).
  destruct (lookup_lt_is_Some_2 (heap wc) l) as [s0 Hs0].
  { rewrite Hlen. eapply lookup_lt_Some. exact Hhs. }
  exists l, s0. split; [exact Hl|]. split; [exact Hs0|].
  unfold settleProbe. rewrite Hi, Ha. unfold makeRequestWithTimeout.
  assert (Hw : forall b,
            writeIsHealthy (ProviderConfig.name pc) b wc
            = Some (mkWorld (this wc) (<[l := ProviderStats.setIsHealthy s0 b]> (heap wc)))).
  { intros b. unfold writeIsHealthy. rewrite Hthis, Hl, Hs0. reflexivity. }
  destruct (probe env i) as [r|x|]; simpl.
  - rewrite Hw. reflexivity.
  - unfold probeFailed. rewrite Hw. reflexivity.
  - unfold probeFailed. rewrite Hw. reflexivity.
Qed.

Lemma settleProbe_skips (w : World) (env : ProbeEnv) (i : nat)
    (st : World * gmap string bool) :
  (forall pc,
     LoadBalancerConfig.providers (LLMLoadBalancer.config (this w)) !! i = Some pc ->
     LLMLoadBalancer.providers (this w) !! ProviderConfig.name pc = None) ->
  settleProbe w env i st = st.
Proof.
  intros H. unfold settleProbe.
  destruct (LoadBalancerConfig.providers _ !! i) as [pc|]; [|reflexivity].
  rewrite (H pc eq_refl). reflexivity.
Qed.

Lemma healthCheck_fold (w : World) (env : ProbeEnv) :
  coherent w ->
  forall (todo : list nat) (wc : World) (hs : gmap string bool),
    this wc = this w -> length (heap wc) = length (heap w) ->
    (forall n b, hs !! n = Some b -> registered w n ->
       (exists s, statsView wc !! n = Some s /\ ProviderStats.isHealthy s = b) /\
       (exists i pc,
          LoadBalancerConfig.providers (LLMLoadBalancer.config (this w)) !! i = Some pc /\
          ProviderConfig.name pc = n /\ b = answered (probe env i))) ->
    (forall n s', statsView wc !! n = Some s' ->
       statsView w !! n = Some s' \/
       (exists b, hs !! n = Some b /\ ProviderStats.isHealthy s' = b)) ->
    let st := fold_left (fun st i => settleProbe w env i st) todo (wc, hs) in
    (forall n b, snd st !! n = Some b -> registered w n ->
       (exists s, statsView (fst st) !! n = Some s /\ ProviderStats.isHealthy s = b) /\
       (exists i pc,
          LoadBalancerConfig.providers (LLMLoadBalancer.config (this w)) !! i = Some pc /\
          ProviderConfig.name pc = n /\ b = answered (probe env i))) /\
    (forall n s', statsView (fst st) !! n = Some s' ->
       statsView w !! n = Some s' \/
       (exists b, snd st !! n = Some b /\ ProviderStats.isHealthy s' = b)) /\
    (forall n b, snd st !! n = Some b -> ~ registered w n -> hs !! n = Some b) /\
    (forall n, is_Some (hs !! n) -> is_Some (snd st !! n)) /\
    (forall i pc, i ∈ todo ->
       LoadBalancerConfig.providers (LLMLoadBalancer.config (this w)) !! i = Some pc ->
       hasAdapter w pc = true ->
       is_Some (snd st !! ProviderConfig.name pc)).
Proof.
  intros Hs. pose proof Hs as ((_ & Hinj & _) & _).
  induction todo as [|i todo IH]; intros wc hs Hthis Hlen H1 H3; cbv zeta.
  - simpl. split; [exact H1|]. split; [exact H3|]. split; [auto|]. split; [auto|].
    intros i pc Hi. inversion Hi.
  - cbn [fold_left].
    destruct (LoadBalancerConfig.providers (LLMLoadBalancer.config (this w)) !! i)
      as [pc|] eqn:Ei.
    2:{ rewrite settleProbe_skips by (intros pc Hpc; congruence).
        destruct (IH wc hs Hthis Hlen H1 H3) as (A & B & C & D & E). cbv zeta in *.
        split; [exact A|]. split; [exact B|]. split; [exact C|]. split; [exact D|].
        intros j pcj Hj Hpcj. apply elem_of_cons in Hj as [->|Hj]; [congruence|].
        exact (E j pcj Hj Hpcj). }
    destruct (LLMLoadBalancer.providers (this w) !! ProviderConfig.name pc) as [a|] eqn:Ea.
    2:{ rewrite settleProbe_skips by (intros pc' Hpc'; congruence).
        destruct (IH wc hs Hthis Hlen H1 H3) as (A & B & C & D & E). cbv zeta in *.
        split; [exact A|]. split; [exact B|]. split; [exact C|]. split; [exact D|].
        intros j pcj Hj Hpcj Hadapter. apply elem_of_cons in Hj as [->|Hj].
        - assert (pcj = pc) by congruence. subst pcj.
          unfold hasAdapter in Hadapter. rewrite Ea in Hadapter. discriminate.
        - exact (E j pcj Hj Hpcj Hadapter). }
    destruct (settleProbe_registered w env i pc a wc hs Hs Hthis Hlen Ei Ea)
      as (l & s0 & Hl & Hs0 & ->).
    set (b0 := answered (probe env i)).
    set (wc' := mkWorld (this wc) (<[l := ProviderStats.setIsHealthy s0 b0]> (heap wc))).
    assert (Hlt : (l < length (heap wc))%nat) by (eapply lookup_lt_Some; exact Hs0).
    assert (Hsame : statsView wc' !! ProviderConfig.name pc
                    = Some (ProviderStats.setIsHealthy s0 b0)).
    { apply (statsView_insert_same w); assumption. }
    assert (Hother : forall n, n <> ProviderConfig.name pc ->
              statsView wc' !! n = statsView wc !! n).
    { intros n Hn. apply (statsView_insert_other w wc (ProviderConfig.name pc));
        assumption. }
    destruct (IH wc' (<[ProviderConfig.name pc := b0]> hs)) as (A & B & C & D & E).
    + exact Hthis.
    + unfold wc'. simpl. rewrite length_insert. exact Hlen.
    + intros n b. destruct (decide (ProviderConfig.name pc = n)) as [<-|Hne].
      * rewrite lookup_insert_eq. intros [= <-] _. split.
        -- exists (ProviderStats.setIsHealthy s0 b0). split; [exact Hsame | reflexivity].
        -- exists i, pc. repeat split. exact Ei.
      * rewrite lookup_insert_ne by exact Hne. intros Hb Hreg.
        destruct (H1 n b Hb Hreg) as ((s & Hv & Hh) & Hsrc). split; [|exact Hsrc].
        exists s. split; [|exact Hh]. rewrite Hother by congruence. exact Hv.
    + intros n s'. destruct (decide (ProviderConfig.name pc = n)) as [<-|Hne].
      * rewrite Hsame. intros [= <-]. right. exists b0.
        rewrite lookup_insert_eq. split; reflexivity.
      * rewrite Hother by congruence. intros Hv.
        destruct (H3 n s' Hv) as [H|(b & Hb & Hh)]; [left; exact H|].
        right. exists b. rewrite lookup_insert_ne by exact Hne. split; assumption.
    + cbv zeta in A, B, C, D, E. split; [exact A|]. split; [exact B|]. split; [|split].
      * intros n b Hb Hn. specialize (C n b Hb Hn).
        rewrite lookup_insert_ne in C; [exact C|].
        intros <-. apply Hn. exists a. exact Ea.
      * intros n Hn. apply D.
        destruct (decide (ProviderConfig.name pc = n)) as [<-|Hne].
        -- rewrite lookup_insert_eq. eexists. reflexivity.
        -- rewrite lookup_insert_ne by exact Hne. exact Hn.
      * intros j pcj Hj Hpcj Hadapter. apply elem_of_cons in Hj as [->|Hj].
        -- assert (pcj = pc) by congruence. subst pcj.
           apply D. rewrite lookup_insert_eq. eexists. reflexivity.
        -- exact (E j pcj Hj Hpcj Hadapter).
Qed.

(** What a sweep reports and what it stores. A reported name with an
    adapter has a record whose flag is the reported value, the outcome of a
    probe of that name; a reported name without an adapter is reported
    false and has no record. Every record is as before the sweep or has its
    flag reported. Every descriptor whose probe settled, and every
    descriptor without an adapter, has its name reported. *)
Lemma healthCheck_result (w : World) (env : ProbeEnv) :
  coherent w ->
  let w' := fst (fst (healthCheck w env)) in
  let status := snd (fst (healthCheck w env)) in
  (forall n b, status !! n = Some b -> registered w n ->
     (exists s, statsView w' !! n = Some s /\ ProviderStats.isHealthy s = b) /\
     (exists i pc,
        LoadBalancerConfig.providers (LLMLoadBalancer.config (this w)) !! i = Some pc /\
        ProviderConfig.name pc = n /\ b = answered (probe env i))) /\
  (forall n b, status !! n = Some b -> ~ registered w n ->
     b = false /\ statsView w' !! n = None /\
     exists pc,
       pc ∈ LoadBalancerConfig.providers (LLMLoadBalancer.config (this w)) /\
       ProviderConfig.name pc = n) /\
  (forall n s', statsView w' !! n = Some s' ->
     statsView w !! n = Some s' \/
     (exists b, status !! n = Some b /\ ProviderStats.isHealthy s' = b)) /\
  (forall i pc,
     LoadBalancerConfig.providers (LLMLoadBalancer.config (this w)) !! i = Some pc ->
     i ∈ order env \/ hasAdapter w pc = false ->
     is_Some (status !! ProviderConfig.name pc)).
Proof.
  intros Hs. cbv zeta.
  pose proof (exec_coherent w (CallHealthCheck env) Hs) as Hs'. simpl in Hs'.
  pose proof (healthCheck_this w env) as Hthis'.
  revert Hs' Hthis'. unfold healthCheck.
  destruct (startProbes_spec w
              (LoadBalancerConfig.providers (LLMLoadBalancer.config (this w))) ∅)
    as (_ & A0 & _ & C0).
  destruct (startProbes w _ ∅) as [hs effects]. simpl in A0, C0.
  assert (Hunreg : forall n b, hs !! n = Some b ->
            b = false /\ ~ registered w n /\
            exists pc,
              pc ∈ LoadBalancerConfig.providers (LLMLoadBalancer.config (this w)) /\
              ProviderConfig.name pc = n).
  { intros n b Hb. destruct (A0 n b Hb) as [H|(Hf & pc & Hpc & Hn & Hno)].
    - rewrite lookup_empty in H. discriminate.
    - split; [exact Hf|]. split; [|exists pc; auto].
      intros [a Ha]. unfold hasAdapter in Hno. rewrite Hn, Ha in Hno. discriminate. }
  destruct (healthCheck_fold w env Hs (order env) w hs eq_refl eq_refl)
    as (A & B & C & D & E).
  { intros n b Hb Hreg. destruct (Hunreg n b Hb) as (_ & Hno & _). contradiction. }
  { intros n s' Hv. left. exact Hv. }
  cbv zeta in A, B, C, D, E.
  destruct (fold_left _ _ _) as [w' hs']. simpl in *. intros Hs' Hthis'.
  split; [exact A|]. split; [|split; [exact B|]].
  - intros n b Hb Hno. destruct (Hunreg n b (C n b Hb Hno)) as (Hf & _ & Hpc).
    split; [exact Hf|]. split; [|exact Hpc].
    apply coherent_no_adapter_no_record; [exact Hs'|].
    rewrite Hthis'.
    destruct (LLMLoadBalancer.providers (this w) !! n) as [a|] eqn:Ea; [|reflexivity].
    exfalso. apply Hno. exists a. exact Ea.
  - intros i pc Hi Hcase. destruct (hasAdapter w pc) eqn:Hadapter.
    + destruct Hcase as [Hin|]; [|discriminate]. exact (E i pc Hin Hi Hadapter).
    + apply D. rewrite (C0 pc); [eexists; reflexivity | | exact Hadapter].
      eapply list_elem_of_lookup_2. exact Hi.
Qed.

(** ** The statistics invariant, event by event *)

Lemma statsView_back (R : ProviderStats.t -> ProviderStats.t -> Prop) (w w' : World)
    (name : string) (s' : ProviderStats.t) :
  sameRegistry w w' -> Forall2 R (heap w) (heap w') ->
  statsView w' !! name = Some s' ->
  exists s, statsView w !! name = Some s /\ R s s'.
Proof.
  intros (_ & _ & C) HR. unfold statsView, deref. rewrite !lookup_omap, C.
  destruct (LLMLoadBalancer.stats (this w) !! name) as [l|]; simpl; [|discriminate].
  intros Hl. destruct (Forall2_lookup_r _ _ _ _ _ HR Hl) as (s & Hs & Hrel).
  exists s. split; assumption.
Qed.

(** A request leaves a record as it was or with the derived flag. *)
Lemma request_record (w : World) (req : LLMRequest.t) (env : nat -> AttemptEnv)
    (name : string) (s' : ProviderStats.t) :
  statsView (fst (fst (request w req env))) !! name = Some s' ->
  healthDerived s' \/ statsView w !! name = Some s'.
Proof.
  intros Hv. unfold request in Hv.
  eapply (statsView_back (fun a b => b = a \/ healthDerived b) w) in Hv.
  - destruct Hv as (s & Hs & [->|Hd]); [right; exact Hs | left; exact Hd].
  - apply requestLoop_registry.
  - apply requestLoop_rel.
    + intros s. left. reflexivity.
    + intros a b c [->|Hb] [->|Hc]; auto.
    + intros s success rt now. right. apply updateRecord_healthDerived.
Qed.

Lemma addProvider_record (w : World) (c : ProviderConfig.t) (name : string)
    (s' : ProviderStats.t) :
  coherent w ->
  statsView (fst (addProvider w c)) !! name = Some s' ->
  healthDerived s' \/ statsView w !! name = Some s'.
Proof.
  intros ((V & _) & _) Hv. unfold addProvider in Hv.
  destruct (createProvider c) as [a|]; [|right; exact Hv].
  assert (G : forall s0 cfg,
            statsView
              (mkWorld
                 (LLMLoadBalancer.mk
                    (<[ProviderConfig.name c := a]> (LLMLoadBalancer.providers (this w))) s0
                    (<[ProviderConfig.name c := length (heap w)]>
                       (LLMLoadBalancer.stats (this w))) cfg)
                 (heap w ++ [ProviderStats.fresh])) !! name = Some s' ->
            healthDerived s' \/ statsView w !! name = Some s').
  { intros s0 cfg. unfold statsView. simpl.
    destruct (decide (ProviderConfig.name c = name)) as [<-|Hne].
    - unfold deref. rewrite lookup_omap, lookup_insert_eq. simpl.
      rewrite list_lookup_middle by reflexivity. intros [= <-]. left. reflexivity.
    - intros H. right. rewrite <- H. symmetry.
      transitivity (deref (heap w ++ [ProviderStats.fresh])
                      (LLMLoadBalancer.stats (this w)) !! name).
      + unfold deref. rewrite !lookup_omap, lookup_insert_ne by exact Hne. reflexivity.
      + apply deref_app_fresh. exact V. }
  destruct (createStrategy _ _ _); simpl in Hv; exact (G _ _ Hv).
Qed.

Lemma removeProvider_record (w : World) (removed name : string)
    (s' : ProviderStats.t) :
  statsView (fst (removeProvider w removed)) !! name = Some s' ->
  statsView w !! name = Some s'.
Proof.
  unfold removeProvider.
  assert (G : forall s0 cfg,
            statsView
              (mkWorld
                 (LLMLoadBalancer.mk (delete removed (LLMLoadBalancer.providers (this w))) s0
                    (delete removed (LLMLoadBalancer.stats (this w))) cfg)
                 (heap w)) !! name = Some s' ->
            statsView w !! name = Some s').
  { intros s0 cfg. unfold statsView, deref. simpl. rewrite !lookup_omap.
    destruct (decide (removed = name)) as [->|Hne].
    - rewrite lookup_delete_eq. discriminate.
    - rewrite lookup_delete_ne by exact Hne. auto. }
  destruct (createStrategy _ _ _); simpl; apply G.
Qed.

(** What one event does to a record: it leaves it with the derived flag, or
    as it was, or it is a sweep that reports the record's name and has
    stored the reported value, a probe's outcome, as the flag. *)
Lemma step_record (w : World) (e : Event) (name : string) (s' : ProviderStats.t) :
  coherent w ->
  statsView (step w e) !! name = Some s' ->
  healthDerived s' \/
  statsView w !! name = Some s' \/
  exists env i pc,
    e = Own (CallHealthCheck env) /\
    snd (fst (healthCheck w env)) !! name = Some (ProviderStats.isHealthy s') /\
    LoadBalancerConfig.providers (LLMLoadBalancer.config (this w)) !! i = Some pc /\
    ProviderConfig.name pc = name /\
    ProviderStats.isHealthy s' = answered (probe env i).
Proof.
  intros Hs Hv. destruct e as [c|peer c].
  2:{ right. left. simpl in Hv.
      destruct (peerExec_spec w peer c) as (l & E & _). rewrite E in Hv. exact Hv. }
  destruct c; simpl in Hv.
  - destruct (request_record _ _ _ _ _ Hv); auto.
  - auto.
  - auto.
  - destruct (healthCheck_result w env Hs) as (R1 & _ & R3 & _). cbv zeta in R1, R3.
    destruct (R3 name s' Hv) as [H|(b & Hb & Hh)]; [auto|].
    right. right.
    assert (Hreg : registered w name).
    { destruct Hs as ((_ & _ & D & _) & _). apply D.
      revert Hv. unfold statsView, deref. rewrite lookup_omap, healthCheck_this.
      destruct (LLMLoadBalancer.stats (this w) !! name) as [l|]; [|discriminate].
      intros _. eexists. reflexivity. }
    destruct (R1 name b Hb Hreg) as (_ & i & pc & Hi & Hn & Hb').
    exists env, i, pc. split; [reflexivity|]. subst b.
    split; [exact Hb|]. split; [exact Hi|]. split; [exact Hn | exact Hb'].
  - destruct (addProvider_record _ _ _ _ Hs Hv); auto.
  - right. left. exact (removeProvider_record _ _ _ _ Hv).
Qed.

Lemma runShared_snoc (w : World) (events : list Event) (e : Event) :
  runShared w (events ++ [e]) = step (runShared w events) e.
Proof. unfold runShared. rewrite fold_left_app. reflexivity. Qed.

Lemma runShared_counted (w0 : World) (events : list Event) :
  Forall counted (heap w0) -> Forall counted (heap (runShared w0 events)).
Proof.
  intros H0. induction events as [|e events IH] using rev_ind; [exact H0|].
  rewrite runShared_snoc. destruct e as [c|peer c]; cbn [step].
  - apply exec_heap; [reflexivity | | | exact IH].
    + intros; apply updateRecord_counted; assumption.
    + intros _ r b Hr. exact Hr.
  - destruct (peerExec_spec (runShared w0 events) peer c) as (l & -> & _). exact IH.
Qed.

(** C1, as amended. In every state that a balancer reaches from the
    constructor, through its own calls and those of the balancers that share
    its configuration object, every provider's record has
    total = successful + failed. Its health flag is the derived one (healthy
    exactly when successful / total > 0.5, and healthy when total = 0)
    unless a [healthCheck] was the last to write it: then the record is
    still the one that sweep left, and its flag is what the sweep reported
    for the name, the outcome of a probe of that name. Right after any
    [updateStats] the updated record has the derived flag again. *)
Theorem stats_invariant (config : LoadBalancerConfig.t) (w0 : World)
    (events : list Event) (name : string) (s : ProviderStats.t) :
  construct config = Return w0 ->
  statsView (runShared w0 events) !! name = Some s ->
  counted s /\
  (healthDerived s \/
   exists pre env post i pc,
     events = pre ++ Own (CallHealthCheck env) :: post /\
     statsView (runShared w0 (pre ++ [Own (CallHealthCheck env)])) !! name = Some s /\
     snd (fst (healthCheck (runShared w0 pre) env)) !! name
     = Some (ProviderStats.isHealthy s) /\
     LoadBalancerConfig.providers (LLMLoadBalancer.config (this (runShared w0 pre))) !! i
     = Some pc /\
     ProviderConfig.name pc = name /\
     ProviderStats.isHealthy s = answered (probe env i)) /\
  (forall success rt now s',
     statsView (updateStats name success rt now (runShared w0 events)) !! name = Some s' ->
     counted s' /\ healthDerived s').
Proof.
  intros Hc Hs.
  assert (Hcounted : Forall counted (heap (runShared w0 events))).
  { apply runShared_counted.
    apply (construct_heap counted) with (config := config); [reflexivity | exact Hc]. }
  assert (Hcoh : forall evs, coherent (runShared w0 evs)).
  { intros evs. apply runShared_coherent, sound_coherent. exact (construct_sound _ _ Hc). }
  split; [|split].
  - exact (proj1 (Forall_forall _ _) Hcounted s (statsView_elem _ _ _ Hs)).
  - clear Hcounted. revert s Hs.
    induction events as [|e events IH] using rev_ind; intros s Hs.
    + left.
      assert (Hd : Forall healthDerived (heap w0)).
      { apply (construct_heap healthDerived) with (config := config);
          [apply fresh_healthDerived | exact Hc]. }
      exact (proj1 (Forall_forall _ _) Hd s (statsView_elem _ _ _ Hs)).
    + rewrite runShared_snoc in Hs.
      destruct (step_record _ _ _ _ (Hcoh events) Hs)
        as [Hd|[Hsame|(env & i & pc & -> & Hst & Hi & Hn & Hh)]].
      * left. exact Hd.
      * destruct (IH s Hsame)
          as [Hd|(pre & env & post & i & pc & -> & Hv & Hst & Hi & Hn & Hh)];
          [left; exact Hd|].
        right. exists pre, env, (post ++ [e]), i, pc.
        split; [rewrite <- app_assoc; reflexivity|].
        split; [exact Hv|]. split; [exact Hst|]. split; [exact Hi|].
        split; [exact Hn | exact Hh].
      * right. exists events, env, [], i, pc.
        split; [reflexivity|]. split; [rewrite runShared_snoc; exact Hs|].
        split; [exact Hst|]. split; [exact Hi|]. split; [exact Hn | exact Hh].
  - intros success rt now s' Hs'.
    rewrite (statsView_updateStats _ _ _ success rt now Hs) in Hs'.
    injection Hs' as <-. split.
    + apply updateRecord_counted.
      exact (proj1 (Forall_forall _ _) Hcounted s (statsView_elem _ _ _ Hs)).
    + apply updateRecord_healthDerived.
Qed.

(** One answered request, then a sweep whose probe fails: the record shows
    one success of one request and is flagged unhealthy, as the sweep
    reported. *)
Lemma stats_invariant_witness :
  construct sampleConfig = Return sampleWorld /\
  statsView
    (runShared sampleWorld
       [Own (CallRequest sampleRequest alwaysOk); Own (CallHealthCheck probesFail)])
    !! "openai"
  = Some (ProviderStats.setIsHealthy (updateRecord ProviderStats.fresh true 12 1012) false) /\
  counted (ProviderStats.setIsHealthy (updateRecord ProviderStats.fresh true 12 1012) false) /\
  (healthDerived
     (ProviderStats.setIsHealthy (updateRecord ProviderStats.fresh true 12 1012) false) \/
   exists pre env post i pc,
     [Own (CallRequest sampleRequest alwaysOk); Own (CallHealthCheck probesFail)]
     = pre ++ Own (CallHealthCheck env) :: post /\
     statsView (runShared sampleWorld (pre ++ [Own (CallHealthCheck env)])) !! "openai"
     = Some (ProviderStats.setIsHealthy (updateRecord ProviderStats.fresh true 12 1012)
               false) /\
     snd (fst (healthCheck (runShared sampleWorld pre) env)) !! "openai"
     = Some (ProviderStats.isHealthy
               (ProviderStats.setIsHealthy (updateRecord ProviderStats.fresh true 12 1012)
                  false)) /\
     LoadBalancerConfig.providers
       (LLMLoadBalancer.config (this (runShared sampleWorld pre))) !! i = Some pc /\
     ProviderConfig.name pc = "openai" /\
     ProviderStats.isHealthy
       (ProviderStats.setIsHealthy (updateRecord ProviderStats.fresh true 12 1012) false)
     = answered (probe env i)).
Proof.
  split; [reflexivity|]. split; [vm_compute; reflexivity|].
  destruct (stats_invariant sampleConfig sampleWorld
              [Own (CallRequest sampleRequest alwaysOk); Own (CallHealthCheck probesFail)]
              "openai"
              (ProviderStats.setIsHealthy (updateRecord ProviderStats.fresh true 12 1012)
                 false)) as (H1 & H2 & _).
  - reflexivity.
  - vm_compute. reflexivity.
  - split; [exact H1 | exact H2].
Defined.

(** ** Statistics through requests and sweeps *)

Lemma statsView_rel (R : ProviderStats.t -> ProviderStats.t -> Prop) (w w' : World)
    (name : string) (s : ProviderStats.t) :
  sameRegistry w w' -> Forall2 R (heap w) (heap w') ->
  statsView w !! name = Some s ->
  exists s', statsView w' !! name = Some s' /\ R s s'.
Proof.
  intros (_ & _ & Hstats) Hrel. unfold statsView, deref. rewrite !lookup_omap, Hstats.
  destruct (LLMLoadBalancer.stats (this w) !! name) as [l|]; simpl; [|discriminate].
  intros Hl. destruct (Forall2_lookup_l _ _ _ _ _ Hrel Hl) as (s' & Hl' & Hr).
  exists s'. split; assumption.
Qed.

Lemma countersLe_refl (s : ProviderStats.t) : countersLe s s.
Proof. unfold countersLe. lia. Qed.

Lemma countersLe_trans (a b c : ProviderStats.t) :
  countersLe a b -> countersLe b c -> countersLe a c.
Proof. unfold countersLe. lia. Qed.

Lemma countersLe_update (s : ProviderStats.t) (success : bool) (rt now : Z) :
  countersLe s (updateRecord s success rt now).
Proof. unfold countersLe, updateRecord. destruct success; simpl; lia. Qed.

Lemma sameButFlag_refl (s : ProviderStats.t) : sameButFlag s s.
Proof. repeat split. Qed.

Lemma sameButFlag_trans (a b c : ProviderStats.t) :
  sameButFlag a b -> sameButFlag b c -> sameButFlag a c.
Proof. unfold sameButFlag. intuition congruence. Qed.

(** X1. A request never removes a statistics entry and never lowers a
    counter: whatever the outcome, every provider that had a record before
    has one after, with each of its three counters at least as large. *)
Theorem request_keeps_entries_and_counts (w : World) (req : LLMRequest.t)
    (env : nat -> AttemptEnv) (name : string) (s : ProviderStats.t) :
  statsView w !! name = Some s ->
  exists s',
    statsView (fst (fst (request w req env))) !! name = Some s' /\ countersLe s s'.
Proof.
  apply statsView_rel.
  - apply requestLoop_registry.
  - apply requestLoop_rel.
    + apply countersLe_refl.
    + apply countersLe_trans.
    + apply countersLe_update.
Qed.

Lemma request_keeps_entries_and_counts_witness :
  statsView sampleWorld !! "openai" = Some ProviderStats.fresh /\
  exists s',
    statsView (fst (fst (request sampleWorld sampleRequest failThenOk))) !! "openai"
    = Some s' /\ countersLe ProviderStats.fresh s'.
Proof.
  split; [reflexivity|].
  apply (request_keeps_entries_and_counts sampleWorld sampleRequest failThenOk "openai").
  reflexivity.
Defined.

(** X2. A health sweep changes nothing but health flags: the balancer's
    tables and strategy are as before, and every provider's record keeps its
    counters, its average and its last-request time. *)
Theorem healthCheck_changes_only_flags (w : World) (env : ProbeEnv) (name : string)
    (s : ProviderStats.t) :
  statsView w !! name = Some s ->
  this (fst (fst (healthCheck w env))) = this w /\
  exists s',
    statsView (fst (fst (healthCheck w env))) !! name = Some s' /\ sameButFlag s s'.
Proof.
  intros Hs. split; [apply healthCheck_this|].
  revert Hs. apply statsView_rel.
  - apply healthCheck_registry.
  - apply healthCheck_rel.
    + apply sameButFlag_refl.
    + apply sameButFlag_trans.
    + intros r b. repeat split.
Qed.

Lemma healthCheck_changes_only_flags_witness :
  statsView (run sampleWorld [CallRequest sampleRequest alwaysOk]) !! "openai"
  = Some (updateRecord ProviderStats.fresh true 12 1012) /\
  exists s',
    statsView
      (fst (fst (healthCheck (run sampleWorld [CallRequest sampleRequest alwaysOk])
                   probesFail))) !! "openai" = Some s' /\
    sameButFlag (updateRecord ProviderStats.fresh true 12 1012) s'.
Proof.
  split; [vm_compute; reflexivity|].
  apply (healthCheck_changes_only_flags
           (run sampleWorld [CallRequest sampleRequest alwaysOk]) probesFail "openai").
  vm_compute. reflexivity.
Defined.

(** ** The weighted strategy *)

Lemma accumulate_length (providers : list ProviderConfig.t) :
  forall t, length (fst (WeightedStrategy.accumulate providers t)) = length providers.
Proof.
  induction providers as [|p rest IH]; intros t; simpl; [reflexivity|].
  specialize (IH (Number.add t (jsOrNumber (ProviderConfig.weight p) (Number.ofZ 1)))).
  destruct (WeightedStrategy.accumulate rest _) as [cw total]. simpl in *.
  rewrite IH. reflexivity.
Qed.

(** The table holds the running totals, and [totalWeight] is the last. *)
Lemma accumulate_sums (providers : list ProviderConfig.t) :
  forall t,
    (forall i c, fst (WeightedStrategy.accumulate providers t) !! i = Some c ->
       c = fold_left Number.add (map effectiveWeight (take (S i) providers)) t) /\
    snd (WeightedStrategy.accumulate providers t)
    = fold_left Number.add (map effectiveWeight providers) t.
Proof.
  induction providers as [|p rest IH]; intros t; simpl.
  - split; [intros i c H; discriminate | reflexivity].
  - destruct (IH (Number.add t (jsOrNumber (ProviderConfig.weight p) (Number.ofZ 1))))
      as [Hi Ht].
    destruct (WeightedStrategy.accumulate rest _) as [cw total]. simpl in *.
    split.
    + intros [|i] c Hc; simpl in Hc.
      * injection Hc as <-. rewrite take_0. reflexivity.
      * exact (Hi i c Hc).
    + exact Ht.
Qed.

Lemma weighted_scan_bounds (random : number) (cw : list number) :
  forall i j, WeightedStrategy.scan random cw i = Some j ->
    (i <= j < i + length cw)%nat /\
    (exists c, cw !! (j - i)%nat = Some c /\ Number.leb random c = true) /\
    (forall k c, (k < j - i)%nat -> cw !! k = Some c -> Number.leb random c = false).
Proof.
  induction cw as [|c0 rest IH]; intros i j; simpl; [discriminate|].
  destruct (Number.leb random c0) eqn:E.
  - intros [= <-]. split; [lia|]. rewrite Nat.sub_diag. split.
    + exists c0. split; [reflexivity | exact E].
    + intros k c Hk. lia.
  - intros H. destruct (IH _ _ H) as (Hb & (c & Hc & Hle) & Hlt).
    split; [lia|]. split.
    + exists c. replace (j - i)%nat with (S (j - S i)) by lia. split; assumption.
    + intros [|k] c' Hk Hc'; simpl in Hc'.
      * injection Hc' as <-. exact E.
      * apply (Hlt k); [lia | exact Hc'].
Qed.

Lemma weighted_scan_none (random : number) (cw : list number) :
  forall i, WeightedStrategy.scan random cw i = None ->
    forall k c, cw !! k = Some c -> Number.leb random c = false.
Proof.
  induction cw as [|c0 rest IH]; intros i; simpl; [intros _ k c H; discriminate|].
  destruct (Number.leb random c0) eqn:E; [discriminate|].
  intros H [|k] c Hc; simpl in Hc.
  - injection Hc as <-. exact E.
  - exact (IH _ H k c Hc).
Qed.

Lemma weighted_select_listed (cw : list number) (tw : number)
    (providers : list ProviderConfig.t) (stats : StatsView) (rnd : number) :
  providers <> [] ->
  exists p cw' tw',
    WeightedStrategy.selectProvider cw tw providers stats rnd
    = (Return (Some p), (cw', tw')) /\
    p ∈ providers /\
    length cw' = length providers /\
    (length cw = length providers -> cw' = cw /\ tw' = tw) /\
    (length cw <> length providers ->
     (cw', tw') = WeightedStrategy.calculateWeights providers).
Proof.
  intros Hne. unfold WeightedStrategy.selectProvider.
  destruct (Nat.eqb_spec (length providers) 0) as [E|Hlen].
  { destruct providers; [congruence | discriminate]. }
  assert (G : forall cw1 tw1, length cw1 = length providers ->
            exists p,
              (match WeightedStrategy.scan (Number.mul rnd tw1) cw1 0 with
               | Some i => (Return (providers !! i), (cw1, tw1))
               | None => (Return (providers !! (length providers - 1)%nat), (cw1, tw1))
               end : Result (option ProviderConfig.t) * (list number * number))
              = (Return (Some p), (cw1, tw1)) /\ p ∈ providers).
  { intros cw1 tw1 Hl.
    destruct (WeightedStrategy.scan (Number.mul rnd tw1) cw1 0) as [i|] eqn:Es.
    - destruct (weighted_scan_bounds _ _ _ _ Es) as (Hb & _).
      destruct (lookup_lt_is_Some_2 providers i) as [p Hp]; [lia|].
      exists p. rewrite Hp. split; [reflexivity | eapply list_elem_of_lookup_2; exact Hp].
    - destruct (lookup_lt_is_Some_2 providers (length providers - 1)) as [p Hp]; [lia|].
      exists p. rewrite Hp. split; [reflexivity | eapply list_elem_of_lookup_2; exact Hp]. }
  destruct (Nat.eqb_spec (length cw) (length providers)) as [Heq|Hneq]; simpl.
  - destruct (G cw tw Heq) as (p & Hp & Hin).
    exists p, cw, tw. split; [exact Hp|]. split; [exact Hin|].
    split; [exact Heq|]. split; [auto | contradiction].
  - pose proof (accumulate_length providers (Number.ofZ 0)) as Hl.
    unfold WeightedStrategy.calculateWeights.
    destruct (WeightedStrategy.accumulate providers (Number.ofZ 0)) as [cw1 tw1].
    simpl in Hl.
    destruct (G cw1 tw1 Hl) as (p & Hp & Hin).
    exists p, cw1, tw1. split; [exact Hp|]. split; [exact Hin|].
    split; [exact Hl|]. split; [contradiction | reflexivity].
Qed.

(** X3. On a non-empty list the weighted strategy always returns one of the
    listed providers, whatever the cached table, the weights and the draw;
    it recomputes the table exactly when its length differs from the
    list's, so afterwards the table is as long as the list. *)
Theorem weighted_returns_listed_provider (cw : list number) (tw : number)
    (providers : list ProviderConfig.t) (stats : StatsView) (rnd : number) :
  providers <> [] ->
  exists p cw' tw',
    WeightedStrategy.selectProvider cw tw providers stats rnd
    = (Return (Some p), (cw', tw')) /\
    p ∈ providers /\
    length cw' = length providers /\
    (length cw = length providers -> cw' = cw /\ tw' = tw) /\
    (length cw <> length providers ->
     (cw', tw') = WeightedStrategy.calculateWeights providers).
Proof. apply weighted_select_listed. Qed.

Lemma weighted_returns_listed_provider_witness :
  weightedProviders <> [] /\
  exists p cw' tw',
    WeightedStrategy.selectProvider [] Number.zero weightedProviders ∅ (Number.ratio 1 2)
    = (Return (Some p), (cw', tw')) /\
    p ∈ weightedProviders /\
    length cw' = length weightedProviders.
Proof.
  split; [discriminate|].
  destruct (weighted_returns_listed_provider [] Number.zero weightedProviders ∅
              (Number.ratio 1 2))
    as (p & cw' & tw' & H1 & H2 & H3 & _).
  { discriminate. }
  exists p, cw', tw'. repeat split; assumption.
Defined.

(** X4. With the table that [createStrategy] computes, the weighted strategy
    works on running totals: the effective weights ([weight || 1]) added up
    in list order, every addition rounded to a double. [totalWeight] is the
    last running total, the draw is the rounded product
    [rnd * totalWeight], and the provider returned is the first one whose
    running total compares [>=] to the draw; when no comparison succeeds it
    is the last provider. *)
Theorem weighted_picks_first_reaching_draw (providers : list ProviderConfig.t)
    (custom : option StrategyFunction) (stats : StatsView) (rnd : number) :
  providers <> [] ->
  exists cw tw i p,
    createStrategy Weighted providers custom = Return (WeightedStrategy cw tw) /\
    tw = prefixWeight providers (length providers) /\
    (forall k, (k < length providers)%nat ->
       cw !! k = Some (prefixWeight providers (S k))) /\
    fst (selectProvider (WeightedStrategy cw tw) providers stats rnd)
    = Return (Some p) /\
    providers !! i = Some p /\
    (Number.leb (Number.mul rnd tw) (prefixWeight providers (S i)) = true \/
     i = (length providers - 1)%nat) /\
    (forall k, (k < i)%nat ->
       Number.leb (Number.mul rnd tw) (prefixWeight providers (S k)) = false).
Proof.
  intros Hne. cbn [createStrategy selectProvider].
  unfold WeightedStrategy.calculateWeights, WeightedStrategy.selectProvider.
  pose proof (accumulate_length providers (Number.ofZ 0)) as Hl.
  destruct (accumulate_sums providers (Number.ofZ 0)) as [Hcw Htw].
  destruct (WeightedStrategy.accumulate providers (Number.ofZ 0)) as [cw tw].
  simpl in Hl, Hcw, Htw.
  assert (Hpos : (0 < length providers)%nat)
    by (destruct providers; [congruence | simpl; lia]).
  assert (Hall : forall k, (k < length providers)%nat ->
            cw !! k = Some (prefixWeight providers (S k))).
  { intros k Hk. destruct (lookup_lt_is_Some_2 cw k) as [c Hc]; [lia|].
    rewrite Hc. f_equal. exact (Hcw k c Hc). }
  exists cw, tw.
  destruct (Nat.eqb_spec (length providers) 0) as [E|_]; [lia|].
  rewrite Hl, Nat.eqb_refl. simpl.
  assert (Htotal : tw = prefixWeight providers (length providers)).
  { unfold prefixWeight. rewrite firstn_all. exact Htw. }
  destruct (WeightedStrategy.scan (Number.mul rnd tw) cw 0) as [i|] eqn:Es.
  - destruct (weighted_scan_bounds _ _ _ _ Es) as (Hb & (c & Hc & Hle) & Hlt).
    rewrite Nat.sub_0_r in Hc.
    destruct (lookup_lt_is_Some_2 providers i) as [p Hp]; [lia|].
    exists i, p. split; [reflexivity|]. split; [exact Htotal|]. split; [exact Hall|].
    simpl. rewrite Hp. split; [reflexivity|]. split; [reflexivity|]. split.
    + left. rewrite Hall in Hc by lia. injection Hc as <-. exact Hle.
    + intros k Hk. apply (Hlt k); [lia | apply Hall; lia].
  - destruct (lookup_lt_is_Some_2 providers (length providers - 1)) as [p Hp]; [lia|].
    exists (length providers - 1)%nat, p.
    split; [reflexivity|]. split; [exact Htotal|]. split; [exact Hall|].
    simpl. rewrite Hp. split; [reflexivity|]. split; [reflexivity|]. split.
    + right. reflexivity.
    + intros k Hk. apply (weighted_scan_none _ _ _ Es k). apply Hall. lia.
Qed.

Lemma weighted_picks_first_reaching_draw_witness :
  decimalProviders <> [] /\
  exists cw tw i p,
    createStrategy Weighted decimalProviders None = Return (WeightedStrategy cw tw) /\
    tw = prefixWeight decimalProviders (length decimalProviders) /\
    fst (selectProvider (WeightedStrategy cw tw) decimalProviders ∅ (Number.ratio 3 8))
    = Return (Some p) /\
    decimalProviders !! i = Some p.
Proof.
  split; [discriminate|].
  destruct (weighted_picks_first_reaching_draw decimalProviders None ∅ (Number.ratio 3 8))
    as (cw & tw & i & p & H1 & H2 & _ & H3 & H4 & _).
  { discriminate. }
  exists cw, tw, i, p. repeat split; assumption.
Defined.

(** Weights 3, 2, 1: a draw of two thirds of the total lands on the second
    provider, whose running total is 5. *)
Example weighted_draw_lands_on_second :
  fst (selectProvider
         (WeightedStrategy [Number.ofZ 3; Number.ofZ 5; Number.ofZ 6] (Number.ofZ 6))
         weightedProviders ∅ (Number.ratio 2 3))
  = Return (Some (weighted claude (Number.ofZ 2))).
Proof. vm_compute. reflexivity. Qed.

(** Weights 0.9, 0.7, 0.8 and a draw of 0.375: the total is
    2.4000000000000004 and the product 0.9000000000000001, just above the
    first running total 0.9, so the second provider is returned (0.375 of
    the exact total 2.4 would be 0.9 and select the first). *)
Example weighted_draw_rounds_past_first :
  prefixWeight decimalProviders 3 = SpecFloat.S754_finite false 5404319552844596 (-51) /\
  Number.mul (Number.ratio 3 8) (prefixWeight decimalProviders 3)
  = SpecFloat.S754_finite false 8106479329266894 (-53) /\
  prefixWeight decimalProviders 1 = SpecFloat.S754_finite false 8106479329266893 (-53) /\
  exists s,
    createStrategy Weighted decimalProviders None = Return s /\
    fst (selectProvider s decimalProviders ∅ (Number.ratio 3 8))
    = Return (Some (weighted claude (Number.ratio 7 10))).
Proof.
  repeat split; try (vm_compute; reflexivity).
  eexists. split; vm_compute; reflexivity.
Qed.

(** ** Attempts on a reachable balancer *)

Lemma failover_select_listed (providers : list ProviderConfig.t) (stats : StatsView) :
  providers <> [] ->
  exists p, FailoverStrategy.selectProvider providers stats = Return (Some p) /\
    p ∈ providers.
Proof.
  intros Hne. unfold FailoverStrategy.selectProvider.
  destruct providers as [|x rest]; [congruence|]. cbn [length Nat.eqb].
  destruct (FailoverStrategy.scan (x :: rest) stats) as [p|] eqn:Es.
  - exists p. split; [reflexivity|].
    destruct (failover_scan_some _ _ _ Es) as (i & Hi & _).
    eapply list_elem_of_lookup_2. exact Hi.
  - exists x. split; [reflexivity | apply elem_of_cons; auto].
Qed.

Lemma builtin_select_listed (s : LoadBalancingStrategy) (cfg : LoadBalancerConfig.t)
    (stats : StatsView) (rnd : number) :
  fits s cfg -> LoadBalancerConfig.strategy cfg <> Custom ->
  LoadBalancerConfig.providers cfg <> [] ->
  exists p s',
    selectProvider s (LoadBalancerConfig.providers cfg) stats rnd = (Return (Some p), s') /\
    p ∈ LoadBalancerConfig.providers cfg.
Proof.
  intros Hfit Hk Hne.
  assert (Hpos : (0 < length (LoadBalancerConfig.providers cfg))%nat)
    by (destruct (LoadBalancerConfig.providers cfg); [congruence | simpl; lia]).
  destruct s as [c| |cw tw|f]; simpl in Hfit |- *.
  - destruct Hfit as [_ Hc]. unfold RoundRobinStrategy.selectProvider.
    destruct (Nat.eqb_spec (length (LoadBalancerConfig.providers cfg)) 0); [lia|].
    destruct (lookup_lt_is_Some_2 (LoadBalancerConfig.providers cfg) c) as [p Hp];
      [lia|].
    exists p. eexists. rewrite Hp. split; [reflexivity|].
    eapply list_elem_of_lookup_2. exact Hp.
  - destruct (failover_select_listed _ stats Hne) as (p & -> & Hin).
    exists p. eexists. split; [reflexivity | exact Hin].
  - destruct (weighted_select_listed cw tw _ stats rnd Hne)
      as (p & cw' & tw' & -> & Hin & _).
    exists p. eexists. split; [reflexivity | exact Hin].
  - destruct Hfit as [Hc _]. contradiction.
Qed.

Lemma sound_listed_has_adapter (w : World) (p : ProviderConfig.t) :
  sound w ->
  p ∈ LoadBalancerConfig.providers (LLMLoadBalancer.config (this w)) ->
  exists a l s,
    LLMLoadBalancer.providers (this w) !! ProviderConfig.name p = Some a /\
    ProviderConfig.name (BaseProvider.config a) = ProviderConfig.name p /\
    LLMLoadBalancer.stats (this w) !! ProviderConfig.name p = Some l /\
    heap w !! l = Some s /\
    ProviderConfig.name p <> "unknown".
Proof.
  intros ((H1 & H2 & _) & (V & _ & D & N) & _) Hin.
  assert (Hreg : registered w (ProviderConfig.name p)).
  { apply H1. exists p. split; [exact Hin | reflexivity]. }
  pose proof Hreg as [a Ha].
  destruct (proj2 (D _) Hreg) as [l Hl].
  destruct (lookup_lt_is_Some_2 (heap w) l (V _ _ Hl)) as [s Hs].
  exists a, l, s. split; [exact Ha|]. split; [exact (N _ _ Ha)|].
  split; [exact Hl|]. split; [exact Hs|].
  intros E. apply H2 in Hreg. rewrite E in Hreg. destruct Hreg as [k Hk].
  vm_compute in Hk. discriminate.
Qed.

(** What a built-in strategy returns on a non-empty list: one of the listed
    providers, or, for a round-robin cursor beyond the list, [undefined]. *)
Lemma builtin_selection (s : LoadBalancingStrategy) (cfg : LoadBalancerConfig.t)
    (stats : StatsView) (rnd : number) :
  kindFits s cfg -> LoadBalancerConfig.strategy cfg <> Custom ->
  LoadBalancerConfig.providers cfg <> [] ->
  (exists p s',
     selectProvider s (LoadBalancerConfig.providers cfg) stats rnd = (Return (Some p), s') /\
     p ∈ LoadBalancerConfig.providers cfg) \/
  (exists c s',
     s = RoundRobinStrategy c /\
     (length (LoadBalancerConfig.providers cfg) <= c)%nat /\
     selectProvider s (LoadBalancerConfig.providers cfg) stats rnd = (Return None, s')).
Proof.
  intros Hfit Hk Hne.
  assert (Hpos : (0 < length (LoadBalancerConfig.providers cfg))%nat)
    by (destruct (LoadBalancerConfig.providers cfg); [congruence | simpl; lia]).
  destruct s as [c| |cw tw|f]; simpl in Hfit |- *.
  - unfold RoundRobinStrategy.selectProvider.
    destruct (Nat.eqb_spec (length (LoadBalancerConfig.providers cfg)) 0); [lia|].
    destruct (LoadBalancerConfig.providers cfg !! c) as [p|] eqn:Hp.
    + left. exists p. eexists. split; [reflexivity|].
      eapply list_elem_of_lookup_2. exact Hp.
    + right. exists c. eexists. split; [reflexivity|]. split; [|reflexivity].
      apply lookup_ge_None. exact Hp.
  - left. destruct (failover_select_listed _ stats Hne) as (p & -> & Hin).
    exists p. eexists. split; [reflexivity | exact Hin].
  - left. destruct (weighted_select_listed cw tw _ stats rnd Hne)
      as (p & cw' & tw' & -> & Hin & _).
    exists p. eexists. split; [reflexivity | exact Hin].
  - destruct Hfit as [Hc _]. contradiction.
Qed.

(** X5. On a balancer with a built-in strategy and at least one configured
    provider the strategy never answers "No providers available", and an
    attempt goes one of three ways. Either the strategy returns a configured
    descriptor, its adapter is found under the descriptor's name, and
    exactly one adapter call is made. Or the descriptor has no adapter in
    this balancer, and the attempt fails with "Provider <name> not found"
    without a call. Or a round-robin cursor lies beyond the list, and the
    attempt dies on [undefined.name] without a call. The last two arise only
    after a balancer that shares the configuration object has added or
    removed a provider: as long as none has, it is always the first. *)
Theorem builtin_attempt_reaches_adapter (w : World) (req : LLMRequest.t)
    (e : AttemptEnv) :
  reachableShared w ->
  LoadBalancerConfig.strategy (LLMLoadBalancer.config (this w)) <> Custom ->
  LoadBalancerConfig.providers (LLMLoadBalancer.config (this w)) <> [] ->
  let reaches :=
    exists p a,
      p ∈ LoadBalancerConfig.providers (LLMLoadBalancer.config (this w)) /\
      LLMLoadBalancer.providers (this w) !! ProviderConfig.name p = Some a /\
      ProviderConfig.name (BaseProvider.config a) = ProviderConfig.name p /\
      snd (tryBlock w req e) = [MakeRequest a req (attemptTimeout w p)] in
  fst (selectProvider (LLMLoadBalancer.strategy (this w))
         (LoadBalancerConfig.providers (LLMLoadBalancer.config (this w)))
         (statsView w) (random e)) <> Throw noProviders /\
  (reaches \/
   (exists p,
      p ∈ LoadBalancerConfig.providers (LLMLoadBalancer.config (this w)) /\
      LLMLoadBalancer.providers (this w) !! ProviderConfig.name p = None /\
      tryBlock w req e
      = (withStrategy w
           (snd (selectProvider (LLMLoadBalancer.strategy (this w))
                   (LoadBalancerConfig.providers (LLMLoadBalancer.config (this w)))
                   (statsView w) (random e))),
         Throw (ThrowError ("Provider " ++ ProviderConfig.name p ++ " not found")), [])) \/
   (exists c,
      LLMLoadBalancer.strategy (this w) = RoundRobinStrategy c /\
      (length (LoadBalancerConfig.providers (LLMLoadBalancer.config (this w))) <= c)%nat /\
      tryBlock w req e
      = (withStrategy w
           (snd (selectProvider (LLMLoadBalancer.strategy (this w))
                   (LoadBalancerConfig.providers (LLMLoadBalancer.config (this w)))
                   (statsView w) (random e))),
         Throw (ThrowError undefinedNameMessage), []))) /\
  (reachable w -> reaches).
Proof.
  intros Hr Hk Hne reaches. pose proof (reachableShared_coherent w Hr) as Hs.
  pose proof Hs as (_ & _ & Hfit & _).
  assert (Hsel0 : fst (selectProvider (LLMLoadBalancer.strategy (this w))
                          (LoadBalancerConfig.providers (LLMLoadBalancer.config (this w)))
                          (statsView w) (random e)) <> Throw noProviders).
  { destruct (builtin_selection _ _ (statsView w) (random e) Hfit Hk Hne)
      as [(p & s' & -> & _)|(c & s' & _ & _ & ->)]; discriminate. }
  assert (Hways :
            reaches \/
            (exists p,
               p ∈ LoadBalancerConfig.providers (LLMLoadBalancer.config (this w)) /\
               LLMLoadBalancer.providers (this w) !! ProviderConfig.name p = None /\
               tryBlock w req e
               = (withStrategy w
                    (snd (selectProvider (LLMLoadBalancer.strategy (this w))
                            (LoadBalancerConfig.providers (LLMLoadBalancer.config (this w)))
                            (statsView w) (random e))),
                  Throw (ThrowError ("Provider " ++ ProviderConfig.name p ++ " not found")),
                  [])) \/
            (exists c,
               LLMLoadBalancer.strategy (this w) = RoundRobinStrategy c /\
               (length (LoadBalancerConfig.providers (LLMLoadBalancer.config (this w))) <= c)%nat /\
               tryBlock w req e
               = (withStrategy w
                    (snd (selectProvider (LLMLoadBalancer.strategy (this w))
                            (LoadBalancerConfig.providers (LLMLoadBalancer.config (this w)))
                            (statsView w) (random e))),
                  Throw (ThrowError undefinedNameMessage), []))).
  { destruct (builtin_selection _ _ (statsView w) (random e) Hfit Hk Hne)
      as [(p & s' & Hsel & Hin)|(c & s' & Hc & Hlen & Hsel)].
    - destruct (LLMLoadBalancer.providers (this w) !! ProviderConfig.name p) as [a|] eqn:Ha.
      + left. exists p, a. split; [exact Hin|]. split; [exact Ha|].
        destruct (coherent_adapter_record w _ a Hs Ha) as (_ & _ & _ & _ & _ & Hn & _).
        split; [exact Hn|]. exact (proj1 (tryBlock_effects w req e p s' a Hsel Ha)).
      + right. left. exists p. split; [exact Hin|]. split; [exact Ha|].
        unfold tryBlock. rewrite Hsel. simpl. rewrite Ha. reflexivity.
    - right. right. exists c. split; [exact Hc|]. split; [exact Hlen|].
      unfold tryBlock. rewrite Hsel. reflexivity. }
  split; [exact Hsel0|]. split; [exact Hways|].
  intros Hsole. pose proof (reachable_sound w Hsole) as Hsound.
  destruct (builtin_select_listed _ _ (statsView w) (random e)
              (proj2 (proj2 Hsound)) Hk Hne) as (p & s' & Hsel & Hin).
  destruct (sound_listed_has_adapter w p Hsound Hin) as (a & l & s & Ha & Hn & _).
  exists p, a. split; [exact Hin|]. split; [exact Ha|]. split; [exact Hn|].
  exact (proj1 (tryBlock_effects w req e p s' a Hsel Ha)).
Qed.

(** The balancer that reads claude in the list and has no adapter for it:
    its first attempt reaches the adapter of openai. *)
Lemma builtin_attempt_reaches_adapter_witness :
  reachableShared sharedWorld /\
  LoadBalancerConfig.strategy (LLMLoadBalancer.config (this sharedWorld)) <> Custom /\
  LoadBalancerConfig.providers (LLMLoadBalancer.config (this sharedWorld)) <> [] /\
  fst (selectProvider (LLMLoadBalancer.strategy (this sharedWorld))
         (LoadBalancerConfig.providers (LLMLoadBalancer.config (this sharedWorld)))
         (statsView sharedWorld) (random (alwaysOk 0%nat))) <> Throw noProviders.
Proof.
  assert (Hr : reachableShared sharedWorld).
  { exists sampleConfig, sampleWorld, [Peer sampleWorld (CallAddProvider claude)].
    split; reflexivity. }
  assert (Hk : LoadBalancerConfig.strategy (LLMLoadBalancer.config (this sharedWorld))
               <> Custom) by (vm_compute; discriminate).
  assert (Hne : LoadBalancerConfig.providers (LLMLoadBalancer.config (this sharedWorld))
                <> []) by (vm_compute; discriminate).
  split; [exact Hr|]. split; [exact Hk|]. split; [exact Hne|].
  exact (proj1 (builtin_attempt_reaches_adapter sharedWorld sampleRequest
                  (alwaysOk 0%nat) Hr Hk Hne)).
Defined.

(** Its second attempt selects claude and finds no adapter. *)
Example shared_list_descriptor_without_adapter :
  LoadBalancerConfig.providers (LLMLoadBalancer.config (this sharedWorld))
  = [openai; claude] /\
  LLMLoadBalancer.providers (this sharedWorld) !! "claude" = None /\
  snd (fst (tryBlock (exec sharedWorld (CallRequest sampleRequest alwaysOk))
              sampleRequest (alwaysOk 0%nat)))
  = Throw (ThrowError "Provider claude not found").
Proof. repeat split; vm_compute; reflexivity. Qed.

Lemma updateStats_other (w : World) (name other : string) (success : bool)
    (rt now : Z) :
  (forall n1 n2 l,
     LLMLoadBalancer.stats (this w) !! n1 = Some l ->
     LLMLoadBalancer.stats (this w) !! n2 = Some l -> n1 = n2) ->
  other <> name ->
  statsView (updateStats name success rt now w) !! other = statsView w !! other.
Proof.
  intros Hinj Hne. unfold statsView, deref, updateStats.
  destruct (LLMLoadBalancer.stats (this w) !! name) as [l|] eqn:El; [|reflexivity].
  destruct (heap w !! l) as [s|] eqn:Es; [|reflexivity].
  simpl. rewrite !lookup_omap.
  destruct (LLMLoadBalancer.stats (this w) !! other) as [l'|] eqn:El'; simpl;
    [|reflexivity].
  apply list_lookup_insert_ne. intros ->. apply Hne. exact (Hinj _ _ _ El' El).
Qed.

Lemma updateStats_unregistered (w : World) (name : string) (success : bool)
    (rt now : Z) :
  LLMLoadBalancer.stats (this w) !! name = None ->
  updateStats name success rt now w = w.
Proof. intros H. unfold updateStats. rewrite H. reflexivity. Qed.

(** X6. On a reachable balancer a statistics update touches one record
    only: the records of all other providers read as before, and an update
    for a name that is not registered changes nothing at all. *)
Theorem updateStats_touches_one_record (w : World) (name : string) (success : bool)
    (rt now : Z) :
  reachable w ->
  (forall other, other <> name ->
     statsView (updateStats name success rt now w) !! other = statsView w !! other) /\
  (~ registered w name -> updateStats name success rt now w = w).
Proof.
  intros Hr. destruct (reachable_sound w Hr) as (_ & (_ & Hinj & D & _) & _). split.
  - intros other Hne. apply updateStats_other; assumption.
  - intros Hn. apply updateStats_unregistered.
    destruct (LLMLoadBalancer.stats (this w) !! name) as [l|] eqn:E; [|reflexivity].
    exfalso. apply Hn. apply D. eexists. exact E.
Qed.

Lemma updateStats_touches_one_record_witness :
  reachable (fst (addProvider sampleWorld claude)) /\
  (forall other, other <> "openai" ->
     statsView (updateStats "openai" true 12 1012 (fst (addProvider sampleWorld claude)))
       !! other
     = statsView (fst (addProvider sampleWorld claude)) !! other) /\
  (~ registered (fst (addProvider sampleWorld claude)) "gemini" ->
   updateStats "gemini" true 12 1012 (fst (addProvider sampleWorld claude))
   = fst (addProvider sampleWorld claude)).
Proof.
  assert (Hr : reachable (fst (addProvider sampleWorld claude))).
  { exists sampleConfig, sampleWorld, [CallAddProvider claude]. split; reflexivity. }
  split; [exact Hr|]. split.
  - apply (updateStats_touches_one_record (fst (addProvider sampleWorld claude))
             "openai" true 12 1012 Hr).
  - apply (updateStats_touches_one_record (fst (addProvider sampleWorld claude))
             "gemini" true 12 1012 Hr).
Defined.

Lemma pass_counts (w : World) (req : LLMRequest.t)
    (env : nat -> AttemptEnv) (attempt : nat) (maxRetries retryDelay : Z)
    (errors : list LLMError.t) (trace : list Effect)
    (p : ProviderConfig.t) (s' : LoadBalancingStrategy) :
  reachable w ->
  selectProvider (LLMLoadBalancer.strategy (this w))
    (LoadBalancerConfig.providers (LLMLoadBalancer.config (this w)))
    (statsView w) (random (env attempt)) = (Return (Some p), s') ->
  p ∈ LoadBalancerConfig.providers (LLMLoadBalancer.config (this w)) ->
  (forall x, settled (env attempt) = Rejected x ->
     LLMError.provider (toLLMError x) = ProviderConfig.name p) ->
  let w' := fst (fst (requestLoop 1 attempt maxRetries retryDelay req env w errors trace)) in
  exists s,
    statsView w !! ProviderConfig.name p = Some s /\
    statsView w' !! ProviderConfig.name p
    = Some (if answered (settled (env attempt))
            then updateRecord s true (endTime (env attempt) - startTime (env attempt))
                   (statsTime (env attempt))
            else updateRecord s false 0 (statsTime (env attempt))) /\
    (forall other, other <> ProviderConfig.name p ->
       statsView w' !! other = statsView w !! other).
Proof.
  intros Hr Hsel Hin Hattr. cbv zeta.
  pose proof (reachable_sound w Hr) as Hs.
  destruct (sound_listed_has_adapter w p Hs Hin) as (a & l & s & Ha & _ & Hl & Hhs & Hunk).
  destruct Hs as (_ & (_ & Hinj & _) & _).
  assert (Hview : statsView w !! ProviderConfig.name p = Some s).
  { unfold statsView, deref. rewrite lookup_omap, Hl. exact Hhs. }
  exists s. split; [exact Hview|].
  cbn [requestLoop]. unfold tryBlock. rewrite Hsel. simpl. rewrite Ha.
  unfold makeRequestWithTimeout.
  assert (Hcharge : forall e,
            LLMError.provider e = ProviderConfig.name p ->
            chargeFailure e (statsTime (env attempt)) (withStrategy w s')
            = updateStats (ProviderConfig.name p) false 0 (statsTime (env attempt))
                (withStrategy w s')).
  { intros e He. unfold chargeFailure. rewrite He.
    destruct (String.eqb_spec (ProviderConfig.name p) "unknown"); [contradiction|].
    reflexivity. }
  destruct (settled (env attempt)) as [r|x|] eqn:Eset; simpl.
  - split.
    + apply (statsView_updateStats (withStrategy w s')). exact Hview.
    + intros other Hne. apply (updateStats_other (withStrategy w s')); assumption.
  - rewrite (Hcharge _ (Hattr x eq_refl)). split.
    + apply (statsView_updateStats (withStrategy w s')). exact Hview.
    + intros other Hne. apply (updateStats_other (withStrategy w s')); assumption.
  - erewrite Hcharge by reflexivity. split.
    + apply (statsView_updateStats (withStrategy w s')). exact Hview.
    + intros other Hne. apply (updateStats_other (withStrategy w s')); assumption.
Qed.

(** X7. One pass of the retry loop counts exactly one request against the
    selected provider, provided the provider has an adapter in this balancer
    (it always has when no balancer sharing the configuration object has
    changed the provider list) and a failure is attributed to that provider
    (a timeout always is): its record becomes the old one updated with the
    outcome (elapsed time on success, failure otherwise), and every other
    provider's record reads as before. *)
Theorem pass_counts_one_request (w : World) (req : LLMRequest.t)
    (env : nat -> AttemptEnv) (attempt : nat) (maxRetries retryDelay : Z)
    (errors : list LLMError.t) (trace : list Effect)
    (p : ProviderConfig.t) (s' : LoadBalancingStrategy) :
  reachableShared w ->
  selectProvider (LLMLoadBalancer.strategy (this w))
    (LoadBalancerConfig.providers (LLMLoadBalancer.config (this w)))
    (statsView w) (random (env attempt)) = (Return (Some p), s') ->
  registered w (ProviderConfig.name p) ->
  (forall x, settled (env attempt) = Rejected x ->
     LLMError.provider (toLLMError x) = ProviderConfig.name p) ->
  let w' := fst (fst (requestLoop 1 attempt maxRetries retryDelay req env w errors trace)) in
  exists s,
    statsView w !! ProviderConfig.name p = Some s /\
    statsView w' !! ProviderConfig.name p
    = Some (if answered (settled (env attempt))
            then updateRecord s true (endTime (env attempt) - startTime (env attempt))
                   (statsTime (env attempt))
            else updateRecord s false 0 (statsTime (env attempt))) /\
    (forall other, other <> ProviderConfig.name p ->
       statsView w' !! other = statsView w !! other).
Proof.
  intros Hr Hsel [a Ha] Hattr. cbv zeta.
  pose proof (reachableShared_coherent w Hr) as Hs.
  destruct (coherent_adapter_record w _ a Hs Ha) as (l & s & Hl & Hhs & Hview & _ & Hunk).
  destruct Hs as ((_ & Hinj & _) & _).
  exists s. split; [exact Hview|].
  cbn [requestLoop]. unfold tryBlock. rewrite Hsel. simpl. rewrite Ha.
  unfold makeRequestWithTimeout.
  assert (Hcharge : forall e,
            LLMError.provider e = ProviderConfig.name p ->
            chargeFailure e (statsTime (env attempt)) (withStrategy w s')
            = updateStats (ProviderConfig.name p) false 0 (statsTime (env attempt))
                (withStrategy w s')).
  { intros e He. unfold chargeFailure. rewrite He.
    destruct (String.eqb_spec (ProviderConfig.name p) "unknown"); [contradiction|].
    reflexivity. }
  destruct (settled (env attempt)) as [r|x|] eqn:Eset; simpl.
  - split.
    + apply (statsView_updateStats (withStrategy w s')). exact Hview.
    + intros other Hne. apply (updateStats_other (withStrategy w s')); assumption.
  - rewrite (Hcharge _ (Hattr x eq_refl)). split.
    + apply (statsView_updateStats (withStrategy w s')). exact Hview.
    + intros other Hne. apply (updateStats_other (withStrategy w s')); assumption.
  - erewrite Hcharge by reflexivity. split.
    + apply (statsView_updateStats (withStrategy w s')). exact Hview.
    + intros other Hne. apply (updateStats_other (withStrategy w s')); assumption.
Qed.

(** On the balancer that reads claude in the list without having an adapter
    for it, a pass that selects openai and times out. *)
Lemma pass_counts_one_request_witness :
  reachableShared sharedWorld /\
  selectProvider (LLMLoadBalancer.strategy (this sharedWorld))
    (LoadBalancerConfig.providers (LLMLoadBalancer.config (this sharedWorld)))
    (statsView sharedWorld) (random (alwaysTimeout 0%nat))
  = (Return (Some openai), RoundRobinStrategy 1) /\
  registered sharedWorld (ProviderConfig.name openai) /\
  exists s,
    statsView sharedWorld !! ProviderConfig.name openai = Some s /\
    statsView (fst (fst (requestLoop 1 0 2 10 sampleRequest alwaysTimeout sharedWorld [] [])))
      !! ProviderConfig.name openai
    = Some (if answered (settled (alwaysTimeout 0%nat))
            then updateRecord s true
                   (endTime (alwaysTimeout 0%nat) - startTime (alwaysTimeout 0%nat))
                   (statsTime (alwaysTimeout 0%nat))
            else updateRecord s false 0 (statsTime (alwaysTimeout 0%nat))) /\
    (forall other, other <> ProviderConfig.name openai ->
       statsView (fst (fst (requestLoop 1 0 2 10 sampleRequest alwaysTimeout sharedWorld
                              [] []))) !! other
       = statsView sharedWorld !! other).
Proof.
  assert (Hr : reachableShared sharedWorld).
  { exists sampleConfig, sampleWorld, [Peer sampleWorld (CallAddProvider claude)].
    split; reflexivity. }
  assert (Hreg : registered sharedWorld (ProviderConfig.name openai)).
  { eexists. vm_compute. reflexivity. }
  split; [exact Hr|]. split; [reflexivity|]. split; [exact Hreg|].
  apply (pass_counts_one_request sharedWorld sampleRequest alwaysTimeout 0 2 10 [] []
           openai (RoundRobinStrategy 1) Hr eq_refl Hreg).
  intros x Hx. discriminate Hx.
Defined.

(** ** The retry loop: outcomes, calls and waits *)

Lemma tryBlock_one_call (w : World) (req : LLMRequest.t) (e : AttemptEnv) :
  (length (adapterCalls (snd (tryBlock w req e))) <= 1)%nat.
Proof.
  unfold tryBlock.
  destruct (selectProvider _ _ _ _) as [[[sel|]|x] s]; simpl; try lia.
  destruct (LLMLoadBalancer.providers _ !! _) as [provider|]; simpl; [|lia].
  destruct (settled e); simpl; lia.
Qed.

Lemma adapterCalls_app (a b : list Effect) :
  adapterCalls (a ++ b) = adapterCalls a ++ adapterCalls b.
Proof.
  induction a as [|[provider req t|ms] a IH]; simpl; [reflexivity | | exact IH].
  rewrite IH. reflexivity.
Qed.

Lemma backoff_spec (attempt : nat) (maxRetries retryDelay : Z) :
  (Z.of_nat attempt < maxRetries - 1 ->
   backoff attempt maxRetries retryDelay = [Delay (backoffDelay retryDelay attempt)]) /\
  (~ Z.of_nat attempt < maxRetries - 1 -> backoff attempt maxRetries retryDelay = []).
Proof.
  unfold backoff.
  destruct (Z.ltb_spec (Z.of_nat attempt) (maxRetries - 1)); split; intros; auto; lia.
Qed.

Lemma requestLoop_trace_bounds (req : LLMRequest.t) (env : nat -> AttemptEnv)
    (maxRetries retryDelay : Z) (remaining : nat) :
  forall attempt w errors trace,
    Z.of_nat (attempt + remaining) = maxRetries ->
    let out := snd (requestLoop remaining attempt maxRetries retryDelay req env w
                      errors trace) in
    (length (adapterCalls out) <= length (adapterCalls trace) + remaining)%nat /\
    (length (delays out) <= length (delays trace) + (remaining - 1))%nat.
Proof.
  induction remaining as [|r IH]; intros attempt w errors trace Hmr; cbv zeta.
  - simpl. split; lia.
  - cbn [requestLoop].
    pose proof (tryBlock_one_call w req (env attempt)) as Hc.
    pose proof (tryBlock_no_delay w req (env attempt)) as Hd.
    destruct (tryBlock w req (env attempt)) as [[w1 [response|error]] effects];
      simpl in Hc, Hd.
    + simpl. rewrite adapterCalls_app, delays_app, !length_app, Hd. simpl. split; lia.
    + destruct r as [|r].
      * cbn [requestLoop]. simpl.
        rewrite (proj2 (backoff_spec attempt maxRetries retryDelay)) by lia.
        rewrite !adapterCalls_app, !delays_app, !length_app, Hd. simpl. split; lia.
      * specialize (IH (S attempt)
                      (chargeFailure (toLLMError error) (statsTime (env attempt)) w1)
                      (errors ++ [toLLMError error])
                      (trace ++ effects ++ backoff attempt maxRetries retryDelay)).
        cbv zeta in IH. destruct IH as [IHc IHd]; [lia|].
        rewrite (proj1 (backoff_spec attempt maxRetries retryDelay)) in IHc, IHd |- * by lia.
        rewrite !adapterCalls_app, !length_app in IHc.
        rewrite !delays_app, !length_app, Hd in IHd.
        cbn [adapterCalls delays length app] in IHc, IHd. split; lia.
Qed.

(** X8. [request] has two outcomes only: it returns a response, or it throws
    a [LoadBalancerError] whose list has one error per allowed attempt and
    whose message names the configured number of attempts. It calls adapters
    at most [maxRetries] times and waits at most [maxRetries - 1] times
    (with [maxRetries] read as 3 when unset or 0). *)
Theorem request_outcomes (w : World) (req : LLMRequest.t) (env : nat -> AttemptEnv) :
  let k := Z.to_nat (effectiveMaxRetries w) in
  let out := request w req env in
  (length (adapterCalls (snd out)) <= k)%nat /\
  (length (delays (snd out)) <= k - 1)%nat /\
  ((exists response, snd (fst out) = Return response) \/
   (exists errs,
      snd (fst out)
      = Throw (ThrowLoadBalancerError
                 (LoadBalancerError.mk (aggregateMessage (effectiveMaxRetries w)) errs)) /\
      length errs = k)).
Proof.
  cbv zeta. unfold request. fold (effectiveMaxRetries w). fold (effectiveRetryDelay w).
  destruct (Z_le_gt_dec (effectiveMaxRetries w) 0) as [Hle|Hgt].
  - replace (Z.to_nat (effectiveMaxRetries w)) with 0%nat by lia. simpl.
    split; [lia|]. split; [lia|]. right. exists []. split; reflexivity.
  - destruct (requestLoop_trace_bounds req env (effectiveMaxRetries w)
                (effectiveRetryDelay w) (Z.to_nat (effectiveMaxRetries w)) 0%nat w [] [])
      as [Hc Hd]; [lia|].
    simpl in Hc, Hd. split; [exact Hc|]. split; [exact Hd|].
    destruct (requestLoop _ _ _ _ _ _ _ _ _) as [[w' [response|x]] trace] eqn:E.
    + left. exists response. reflexivity.
    + right. destruct (requestLoop_throws_aggregate _ _ _ _ _ _ _ _ _ _ _ _ E)
        as (errs & -> & Hlen).
      exists errs. split; [reflexivity | exact Hlen].
Qed.

Lemma requestLoop_delays_success (req : LLMRequest.t) (env : nat -> AttemptEnv)
    (maxRetries retryDelay : Z) (n : nat) :
  forall remaining attempt w errors trace thrown w1 w2 response effects,
    Z.of_nat (attempt + remaining) = maxRetries ->
    (n < remaining)%nat ->
    failedRun n attempt req env w = Some (thrown, w1) ->
    tryBlock w1 req (env (attempt + n)%nat) = (w2, Return response, effects) ->
    delays (snd (requestLoop remaining attempt maxRetries retryDelay req env w
                   errors trace))
    = delays trace ++ map (backoffDelay retryDelay) (seq attempt n).
Proof.
  induction n as [|n IH];
    intros remaining attempt w errors trace thrown w1 w2 response effects Hmr Hlt Hrun Htry;
    (destruct remaining as [|r]; [lia|]); simpl in Hrun; cbn [requestLoop].
  - injection Hrun as <- <-. rewrite Nat.add_0_r in Htry.
    pose proof (tryBlock_no_delay w req (env attempt)) as Hd.
    rewrite Htry in Hd |- *. simpl in Hd |- *.
    rewrite delays_app, Hd. reflexivity.
  - pose proof (tryBlock_no_delay w req (env attempt)) as Hd.
    destruct (tryBlock w req (env attempt)) as [[w0 [resp0|error]] effects0];
      [discriminate|].
    destruct (failedRun n (S attempt) req env _) as [[thrown1 w1']|] eqn:E;
      [|discriminate].
    injection Hrun as <- <-. simpl in Hd.
    rewrite (IH r (S attempt) _ _ _ thrown1 w1' w2 response effects); [|lia|lia|exact E|].
    + rewrite (proj1 (backoff_spec attempt maxRetries retryDelay)) by lia.
      rewrite !delays_app, Hd. simpl. rewrite <- app_assoc. reflexivity.
    + rewrite <- Htry. f_equal. f_equal. lia.
Qed.

Lemma requestLoop_delays_exhausted (req : LLMRequest.t) (env : nat -> AttemptEnv)
    (maxRetries retryDelay : Z) (remaining : nat) :
  forall attempt w errors trace thrown w',
    Z.of_nat (attempt + remaining) = maxRetries ->
    failedRun remaining attempt req env w = Some (thrown, w') ->
    delays (snd (requestLoop remaining attempt maxRetries retryDelay req env w
                   errors trace))
    = delays trace ++ map (backoffDelay retryDelay) (seq attempt (remaining - 1)).
Proof.
  induction remaining as [|r IH]; intros attempt w errors trace thrown w' Hmr Hrun;
    simpl in Hrun; cbn [requestLoop].
  - simpl. rewrite app_nil_r. reflexivity.
  - pose proof (tryBlock_no_delay w req (env attempt)) as Hd.
    destruct (tryBlock w req (env attempt)) as [[w0 [resp0|error]] effects0];
      [discriminate|].
    destruct (failedRun r (S attempt) req env _) as [[thrown1 w1']|] eqn:E;
      [|discriminate].
    simpl in Hd. rewrite (IH (S attempt) _ _ _ thrown1 w1'); [|lia|exact E].
    rewrite !delays_app, Hd. destruct r as [|r].
    + rewrite (proj2 (backoff_spec attempt maxRetries retryDelay)) by lia.
      simpl. rewrite app_nil_r. reflexivity.
    + rewrite (proj1 (backoff_spec attempt maxRetries retryDelay)) by lia.
      simpl. rewrite Nat.sub_0_r, <- app_assoc. reflexivity.
Qed.

(** X9. The waits of a request follow the attempts exactly: a response in
    attempt [n] (counted from 0), after [n] failed attempts, has been
    preceded by the waits retryDelay * 2^0, ..., retryDelay * 2^(n-1), and a
    request that exhausts its [k] attempts has waited [k - 1] times, never
    after the last attempt (with [retryDelay] read as 1000 ms when unset or
    0). *)
Theorem request_backoff_schedule (w : World) (req : LLMRequest.t)
    (env : nat -> AttemptEnv) :
  let k := Z.to_nat (effectiveMaxRetries w) in
  let schedule n := map (backoffDelay (effectiveRetryDelay w)) (seq 0 n) in
  (forall n thrown w1 w2 response effects,
     (n < k)%nat ->
     failedRun n 0 req env w = Some (thrown, w1) ->
     tryBlock w1 req (env n) = (w2, Return response, effects) ->
     delays (snd (request w req env)) = schedule n) /\
  (forall thrown w',
     failedRun k 0 req env w = Some (thrown, w') ->
     delays (snd (request w req env)) = schedule (k - 1)%nat).
Proof.
  cbv zeta. unfold request. fold (effectiveMaxRetries w). fold (effectiveRetryDelay w).
  split.
  - intros n thrown w1 w2 response effects Hn Hrun Htry.
    apply (requestLoop_delays_success req env _ _ n _ 0%nat w [] [] thrown w1 w2
             response effects); [lia | exact Hn | exact Hrun | exact Htry].
  - intros thrown w' Hrun.
    destruct (Z_le_gt_dec (effectiveMaxRetries w) 0) as [Hle|Hgt].
    + replace (Z.to_nat (effectiveMaxRetries w)) with 0%nat by lia. reflexivity.
    + apply (requestLoop_delays_exhausted req env _ _ _ 0%nat w [] [] thrown w');
        [lia | exact Hrun].
Qed.

(** *** Zero as a configuration value *)

(** C9. A numeric option set to 0 counts as not set. With [maxRetries = 0]
    a request makes the default three attempts: a response in the first,
    second or third attempt is returned, a run whose first three attempts
    fail ends in the aggregate error listing those three, and [request]
    cannot fail in any other way. With [retryDelay = 0] the wait after
    failed attempt [i] is 1000 * 2^i ms: a response in attempt [n] has been
    preceded by exactly the waits 1000 * 2^0, ..., 1000 * 2^(n-1), and a
    request that exhausts its [k] attempts has waited 1000 * 2^0, ...,
    1000 * 2^(k-2). And an attempt whose descriptor has [timeout = 0] races
    against globalTimeout, or 30000 ms when that is unset or 0 too. *)
Theorem zero_counts_as_unset (w : World) (req : LLMRequest.t) (env : nat -> AttemptEnv) :
  (LoadBalancerConfig.maxRetries (LLMLoadBalancer.config (this w)) = Some 0 ->
   (forall n thrown w1 w2 response effects,
      (n < 3)%nat ->
      failedRun n 0 req env w = Some (thrown, w1) ->
      tryBlock w1 req (env n) = (w2, Return response, effects) ->
      exists trace, request w req env = (w2, Return response, trace)) /\
   (forall thrown w',
      failedRun 3 0 req env w = Some (thrown, w') ->
      exists trace,
        request w req env
        = (w',
           Throw (ThrowLoadBalancerError
                    (LoadBalancerError.mk "All providers failed after 3 attempts"
                       (map toLLMError thrown))),
           trace)) /\
   (forall w' x trace,
      request w req env = (w', Throw x, trace) ->
      exists errs,
        x = ThrowLoadBalancerError
              (LoadBalancerError.mk "All providers failed after 3 attempts" errs) /\
        length errs = 3%nat)) /\
  (LoadBalancerConfig.retryDelay (LLMLoadBalancer.config (this w)) = Some 0 ->
   let k := Z.to_nat (effectiveMaxRetries w) in
   (forall n thrown w1 w2 response effects,
      (n < k)%nat ->
      failedRun n 0 req env w = Some (thrown, w1) ->
      tryBlock w1 req (env n) = (w2, Return response, effects) ->
      delays (snd (request w req env))
      = map (fun i => 1000 * 2 ^ Z.of_nat i) (seq 0 n)) /\
   (forall thrown w',
      failedRun k 0 req env w = Some (thrown, w') ->
      delays (snd (request w req env))
      = map (fun i => 1000 * 2 ^ Z.of_nat i) (seq 0 (k - 1)))) /\
  (forall e p s' provider,
     selectProvider (LLMLoadBalancer.strategy (this w))
       (LoadBalancerConfig.providers (LLMLoadBalancer.config (this w)))
       (statsView w) (random e) = (Return (Some p), s') ->
     LLMLoadBalancer.providers (this w) !! ProviderConfig.name p = Some provider ->
     ProviderConfig.timeout p = Some 0 ->
     snd (tryBlock w req e)
     = [MakeRequest provider req
          (jsOrNum (LoadBalancerConfig.globalTimeout (LLMLoadBalancer.config (this w)))
             30000)]).
Proof.
  split; [|split].
  - intros Hmax. unfold request. rewrite Hmax.
    change (jsOrNum (Some 0) 3) with 3. change (Z.to_nat 3) with 3%nat.
    split; [|split].
    + intros n thrown w1 w2 response effects Hn Hrun Htry.
      apply (requestLoop_returns req env 3 _ n 3%nat 0%nat w [] [] thrown w1 w2
               response effects Hn Hrun Htry).
    + intros thrown w' Hrun.
      destruct (requestLoop_exhausted req env 3
                  (jsOrNum (LoadBalancerConfig.retryDelay (LLMLoadBalancer.config (this w))) 1000)
                  3 0%nat w [] [] thrown w' Hrun) as [_ [trace Hloop]].
      exists trace. exact Hloop.
    + intros w' x trace Hreq.
      destruct (requestLoop_throws_aggregate req env 3 _ 3 _ _ _ _ _ _ _ Hreq)
        as (errs & -> & Hlen).
      exists errs. split; [reflexivity | exact Hlen].
  - intros Hdelay. cbv zeta.
    assert (Hmr : Z.of_nat (Z.to_nat (effectiveMaxRetries w)) = effectiveMaxRetries w
                  \/ effectiveMaxRetries w < 0).
    { destruct (Z.le_gt_cases 0 (effectiveMaxRetries w)); [left; lia | right; lia]. }
    unfold request. rewrite Hdelay. change (jsOrNum (Some 0) 1000) with 1000.
    fold (effectiveMaxRetries w). split.
    + intros n thrown w1 w2 response effects Hn Hrun Htry.
      destruct Hmr as [Hmr|Hneg]; [|lia].
      rewrite (requestLoop_delays_success req env (effectiveMaxRetries w) 1000 n
                 (Z.to_nat (effectiveMaxRetries w)) 0%nat w [] [] thrown w1 w2
                 response effects); [reflexivity | exact Hmr | exact Hn | exact Hrun |].
      exact Htry.
    + intros thrown w' Hrun.
      destruct Hmr as [Hmr|Hneg].
      * rewrite (requestLoop_delays_exhausted req env (effectiveMaxRetries w) 1000
                   (Z.to_nat (effectiveMaxRetries w)) 0%nat w [] [] thrown w');
          [|exact Hmr | exact Hrun].
        reflexivity.
      * replace (Z.to_nat (effectiveMaxRetries w)) with 0%nat by lia. reflexivity.
  - intros e p s' provider Hsel Hp Ht.
    destruct (tryBlock_effects w req e p s' provider Hsel Hp) as [He _].
    rewrite He. unfold attemptTimeout, jsOr. rewrite Ht. reflexivity.
Qed.

(** Every optional number is 0 and every race is lost to the timer: three
    attempts, waits of 1000 and 2000 ms, races against 5000 ms. *)
Lemma zero_counts_as_unset_witness :
  LoadBalancerConfig.maxRetries (LLMLoadBalancer.config (this zeroWorld)) = Some 0 /\
  LoadBalancerConfig.retryDelay (LLMLoadBalancer.config (this zeroWorld)) = Some 0 /\
  ProviderConfig.timeout openaiZero = Some 0 /\
  failedRun 3 0 sampleRequest alwaysTimeout zeroWorld
  = Some (replicate 3 (ThrowLLMError (timeoutError 5000 openaiZero)),
          run zeroWorld [CallRequest sampleRequest alwaysTimeout]) /\
  (exists trace,
     request zeroWorld sampleRequest alwaysTimeout
     = (run zeroWorld [CallRequest sampleRequest alwaysTimeout],
        Throw (ThrowLoadBalancerError
                 (LoadBalancerError.mk "All providers failed after 3 attempts"
                    (map toLLMError
                       (replicate 3 (ThrowLLMError (timeoutError 5000 openaiZero)))))),
        trace)) /\
  delays (snd (request zeroWorld sampleRequest alwaysTimeout))
  = map (fun i => 1000 * 2 ^ Z.of_nat i) (seq 0 (3 - 1)) /\
  snd (tryBlock zeroWorld sampleRequest (alwaysTimeout 0%nat))
  = [MakeRequest (BaseProvider.mk OpenAIProvider openaiZero) sampleRequest 5000].
Proof.
  destruct (zero_counts_as_unset zeroWorld sampleRequest alwaysTimeout)
    as (Hmax & Hdelay & Htimeout).
  destruct (Hmax eq_refl) as (_ & Hrun & _).
  destruct (Hdelay eq_refl) as (_ & Hwaits).
  split; [reflexivity|]. split; [reflexivity|]. split; [reflexivity|].
  split; [vm_compute; reflexivity|].
  split; [|split].
  - apply Hrun. vm_compute. reflexivity.
  - apply (Hwaits (replicate 3 (ThrowLLMError (timeoutError 5000 openaiZero)))
             (run zeroWorld [CallRequest sampleRequest alwaysTimeout])).
    vm_compute. reflexivity.
  - apply (Htimeout (alwaysTimeout 0%nat) openaiZero FailoverStrategy
             (BaseProvider.mk OpenAIProvider openaiZero)); reflexivity.
Defined.

Example zero_retryDelay_waits :
  delays (snd (request zeroWorld sampleRequest alwaysTimeout)) = [1000; 2000].
Proof. reflexivity. Qed.

(** *** No provider configured *)

Lemma withStrategy_same (w : World) : withStrategy w (LLMLoadBalancer.strategy (this w)) = w.
Proof. destruct w as [[providers s stats cfg] h]. reflexivity. Qed.

Lemma tryBlock_no_providers (w : World) (req : LLMRequest.t) (e : AttemptEnv) :
  fits (LLMLoadBalancer.strategy (this w)) (LLMLoadBalancer.config (this w)) ->
  LoadBalancerConfig.strategy (LLMLoadBalancer.config (this w)) <> Custom ->
  LoadBalancerConfig.providers (LLMLoadBalancer.config (this w)) = [] ->
  tryBlock w req e = (w, Throw noProviders, []).
Proof.
  intros Hfit Hk Hnil. unfold tryBlock. rewrite Hnil.
  destruct (LLMLoadBalancer.strategy (this w)) as [c| |cw tw|f] eqn:Es; simpl.
  - rewrite <- Es, withStrategy_same. reflexivity.
  - rewrite <- Es, withStrategy_same. reflexivity.
  - rewrite <- Es, withStrategy_same. reflexivity.
  - destruct Hfit as [Hc _]. contradiction.
Qed.

Lemma requestLoop_no_providers (req : LLMRequest.t) (env : nat -> AttemptEnv)
    (maxRetries retryDelay : Z) (w : World) :
  fits (LLMLoadBalancer.strategy (this w)) (LLMLoadBalancer.config (this w)) ->
  LoadBalancerConfig.strategy (LLMLoadBalancer.config (this w)) <> Custom ->
  LoadBalancerConfig.providers (LLMLoadBalancer.config (this w)) = [] ->
  forall remaining attempt errors trace,
    exists trace',
      requestLoop remaining attempt maxRetries retryDelay req env w errors trace
      = (w,
         Throw (ThrowLoadBalancerError
                  (LoadBalancerError.mk (aggregateMessage maxRetries)
                     (errors ++ replicate remaining noProvidersError))),
         trace') /\
      adapterCalls trace' = adapterCalls trace.
Proof.
  intros Hfit Hk Hnil.
  induction remaining as [|r IH]; intros attempt errors trace; cbn [requestLoop].
  - exists trace. rewrite app_nil_r. split; reflexivity.
  - rewrite (tryBlock_no_providers w req (env attempt) Hfit Hk Hnil).
    change (toLLMError noProviders) with noProvidersError.
    change (chargeFailure noProvidersError (statsTime (env attempt)) w) with w.
    destruct (IH (S attempt) (errors ++ [noProvidersError])
                (trace ++ [] ++ backoff attempt maxRetries retryDelay))
      as (trace' & Hloop & Hcalls).
    exists trace'. split.
    + rewrite Hloop. rewrite <- app_assoc. reflexivity.
    + rewrite Hcalls, !adapterCalls_app. simpl. unfold backoff.
      destruct (_ <? _); simpl; rewrite app_nil_r; reflexivity.
Qed.

(** X10. A reachable balancer with a built-in strategy and an empty provider
    list (the constructor accepts one) fails every request in the same way:
    no adapter is called, nothing in the balancer or its statistics changes,
    and the aggregate error lists, once per allowed attempt, the error
    "No providers available" attributed to "unknown". *)
Theorem request_without_providers (w : World) (req : LLMRequest.t)
    (env : nat -> AttemptEnv) :
  reachable w ->
  LoadBalancerConfig.strategy (LLMLoadBalancer.config (this w)) <> Custom ->
  LoadBalancerConfig.providers (LLMLoadBalancer.config (this w)) = [] ->
  exists trace,
    request w req env
    = (w,
       Throw (ThrowLoadBalancerError
                (LoadBalancerError.mk (aggregateMessage (effectiveMaxRetries w))
                   (replicate (Z.to_nat (effectiveMaxRetries w)) noProvidersError))),
       trace) /\
    adapterCalls trace = [].
Proof.
  intros Hr Hk Hnil. destruct (reachable_sound w Hr) as (_ & _ & Hfit).
  unfold request. fold (effectiveMaxRetries w). fold (effectiveRetryDelay w).
  destruct (requestLoop_no_providers req env (effectiveMaxRetries w)
              (effectiveRetryDelay w) w Hfit Hk Hnil
              (Z.to_nat (effectiveMaxRetries w)) 0%nat [] [])
    as (trace & Hloop & Hcalls).
  exists trace. split; [exact Hloop | exact Hcalls].
Qed.

Example construct_empty : construct emptyConfig = Return emptyWorld.
Proof. reflexivity. Qed.

Lemma request_without_providers_witness :
  reachable emptyWorld /\
  exists trace,
    request emptyWorld sampleRequest alwaysOk
    = (emptyWorld,
       Throw (ThrowLoadBalancerError
                (LoadBalancerError.mk (aggregateMessage (effectiveMaxRetries emptyWorld))
                   (replicate (Z.to_nat (effectiveMaxRetries emptyWorld)) noProvidersError))),
       trace) /\
    adapterCalls trace = [].
Proof.
  assert (Hr : reachable emptyWorld).
  { exists emptyConfig, emptyWorld, []. split; reflexivity. }
  split; [exact Hr|].
  apply (request_without_providers emptyWorld sampleRequest alwaysOk Hr).
  - discriminate.
  - reflexivity.
Defined.

(** ** The constructor *)

Lemma initializeProviders_total (configs : list ProviderConfig.t) :
  forall providers stats h,
    (forall p, p ∈ configs -> supported (ProviderConfig.name p)) ->
    exists r, initializeProviders configs providers stats h = Return r.
Proof.
  induction configs as [|pc rest IH]; intros providers stats h Hsup; simpl.
  - eexists. reflexivity.
  - destruct (supported_createProvider pc) as [k ->].
    { apply Hsup. apply elem_of_cons. auto. }
    apply IH. intros p Hp. apply Hsup. apply elem_of_cons. auto.
Qed.

Lemma initializeProviders_supported (configs : list ProviderConfig.t) :
  forall providers stats h r,
    initializeProviders configs providers stats h = Return r ->
    forall p, p ∈ configs -> supported (ProviderConfig.name p).
Proof.
  induction configs as [|pc rest IH]; intros providers stats h r; simpl.
  - intros _ p Hp. inversion Hp.
  - destruct (createProvider pc) as [a|] eqn:Ec; [|discriminate].
    intros Hinit p Hp. apply elem_of_cons in Hp as [->|Hp].
    + exact (proj1 (createProvider_supported _ _ Ec)).
    + exact (IH _ _ _ _ Hinit p Hp).
Qed.

Lemma construct_total (config : LoadBalancerConfig.t) :
  (forall p, p ∈ LoadBalancerConfig.providers config ->
     supported (ProviderConfig.name p)) ->
  (LoadBalancerConfig.strategy config = Custom ->
   is_Some (LoadBalancerConfig.customStrategy config)) ->
  exists w0, construct config = Return w0.
Proof.
  intros Hsup Hcustom. unfold construct.
  destruct (initializeProviders_total _ ∅ ∅ [] Hsup) as [[[providers stats] h] ->].
  destruct (createStrategy_total _ _ (LoadBalancerConfig.providers config) Hcustom)
    as [s ->].
  eexists. reflexivity.
Qed.

(** X11. The constructor succeeds exactly when every configured name is one
    the factory accepts and, for the custom strategy, a function is
    supplied; in particular an empty provider list is accepted. *)
Theorem construct_succeeds_iff (config : LoadBalancerConfig.t) :
  (exists w0, construct config = Return w0)
  <->
  (forall p, p ∈ LoadBalancerConfig.providers config ->
     supported (ProviderConfig.name p)) /\
  (LoadBalancerConfig.strategy config = Custom ->
   is_Some (LoadBalancerConfig.customStrategy config)).
Proof.
  unfold construct. split.
  - intros [w0 Hc].
    destruct (initializeProviders _ ∅ ∅ []) as [[[providers stats] h]|] eqn:E;
      [|discriminate].
    destruct (createStrategy _ _ _) as [s|] eqn:Es; [|discriminate].
    split.
    + exact (initializeProviders_supported _ _ _ _ _ E).
    + exact (createStrategy_custom _ _ _ _ Es).
  - intros [Hsup Hcustom]. apply construct_total; assumption.
Qed.

Lemma getHealthyProviders_all (w : World) :
  (forall s, s ∈ heap w -> ProviderStats.isHealthy s = true) ->
  getHealthyProviders w = LoadBalancerConfig.providers (LLMLoadBalancer.config (this w)).
Proof.
  intros Hall. unfold getHealthyProviders.
  induction (LoadBalancerConfig.providers (LLMLoadBalancer.config (this w)))
    as [|p rest IH]; simpl; [reflexivity|].
  destruct (statsView w !! ProviderConfig.name p) as [s|] eqn:E.
  - rewrite (Hall s (statsView_elem _ _ _ E)), IH. reflexivity.
  - rewrite IH. reflexivity.
Qed.

Lemma construct_state (config : LoadBalancerConfig.t) (w0 : World) :
  construct config = Return w0 ->
  LLMLoadBalancer.config (this w0) = config /\
  (forall name,
     configuredIn (LoadBalancerConfig.providers config) name ->
     statsView w0 !! name = Some ProviderStats.fresh) /\
  (forall name,
     ~ configuredIn (LoadBalancerConfig.providers config) name ->
     statsView w0 !! name = None) /\
  getHealthyProviders w0 = LoadBalancerConfig.providers config.
Proof.
  intros Hc.
  assert (Hcfg : LLMLoadBalancer.config (this w0) = config).
  { revert Hc. unfold construct.
    destruct (initializeProviders _ ∅ ∅ []) as [[[providers stats] h]|]; [|discriminate].
    destruct (createStrategy _ _ _); [|discriminate]. intros [= <-]. reflexivity. }
  assert (Hfresh : forall s, s ∈ heap w0 -> s = ProviderStats.fresh).
  { apply Forall_forall.
    apply (construct_heap (fun s => s = ProviderStats.fresh) eq_refl config w0 Hc). }
  destruct (construct_sound _ _ Hc) as ((H1 & _) & (V & _ & D & _) & _).
  rewrite Hcfg in H1.
  split; [exact Hcfg|]. split; [|split].
  - intros name Hn. apply H1 in Hn. apply D in Hn as [l Hl].
    destruct (lookup_lt_is_Some_2 (heap w0) l (V _ _ Hl)) as [s Hs].
    unfold statsView, deref. rewrite lookup_omap, Hl. simpl. rewrite Hs.
    f_equal. apply Hfresh. eapply list_elem_of_lookup_2. exact Hs.
  - intros name Hn. unfold statsView, deref. rewrite lookup_omap.
    destruct (LLMLoadBalancer.stats (this w0) !! name) as [l|] eqn:El; [|reflexivity].
    exfalso. apply Hn. apply H1. apply D. eexists. exact El.
  - rewrite <- Hcfg. apply getHealthyProviders_all.
    intros s Hs. rewrite (Hfresh s Hs). reflexivity.
Qed.

(** X12. A freshly constructed balancer keeps the configuration it was
    given, has a zeroed, healthy statistics record for exactly the configured
    names, and reports every configured provider as healthy. *)
Theorem construct_initial_state (config : LoadBalancerConfig.t) (w0 : World) :
  construct config = Return w0 ->
  LLMLoadBalancer.config (this w0) = config /\
  (forall name,
     configuredIn (LoadBalancerConfig.providers config) name ->
     statsView w0 !! name = Some ProviderStats.fresh) /\
  (forall name,
     ~ configuredIn (LoadBalancerConfig.providers config) name ->
     statsView w0 !! name = None) /\
  getHealthyProviders w0 = LoadBalancerConfig.providers config.
Proof. apply construct_state. Qed.


Lemma construct_initial_state_witness :
  construct sampleConfig = Return sampleWorld /\
  LLMLoadBalancer.config (this sampleWorld) = sampleConfig /\
  (forall name,
     configuredIn (LoadBalancerConfig.providers sampleConfig) name ->
     statsView sampleWorld !! name = Some ProviderStats.fresh) /\
  (forall name,
     ~ configuredIn (LoadBalancerConfig.providers sampleConfig) name ->
     statsView sampleWorld !! name = None) /\
  getHealthyProviders sampleWorld = LoadBalancerConfig.providers sampleConfig.
Proof.
  split; [reflexivity|].
  apply (construct_initial_state sampleConfig sampleWorld). reflexivity.
Defined.

(** ** Failover and getHealthyProviders *)

Lemma failover_scan_head (stats : StatsView) (providers : list ProviderConfig.t) :
  (forall p, p ∈ providers -> inherited (ProviderConfig.name p) = false) ->
  FailoverStrategy.scan providers stats
  = head (List.filter
            (fun provider =>
               match stats !! ProviderConfig.name provider with
               | Some s => ProviderStats.isHealthy s
               | None => true
               end) providers).
Proof.
  induction providers as [|p rest IH]; intros Hplain; [reflexivity|].
  rewrite failover_scan_step.
  destruct (qualifies_spec stats p) as [_ Heq].
  rewrite Heq by (apply Hplain; left). unfold absentOrHealthy. cbn [List.filter].
  destruct (match stats !! ProviderConfig.name p with
            | Some s => ProviderStats.isHealthy s
            | None => true
            end); [reflexivity|].
  apply IH. intros q Hq. apply Hplain. right. exact Hq.
Qed.

(** The configured names of a balancer built by the constructor are names
    that the factory accepts: none is inherited from [Object.prototype]. *)
Lemma reachableShared_plain_names (w : World) :
  reachableShared w ->
  forall p, p ∈ LoadBalancerConfig.providers (LLMLoadBalancer.config (this w)) ->
    inherited (ProviderConfig.name p) = false.
Proof.
  intros Hr p Hp. apply supported_not_inherited.
  destruct (reachableShared_coherent w Hr) as (_ & _ & _ & Hnames).
  exact (Hnames p Hp).
Qed.

(** X13. Failover and [getHealthyProviders] agree: with a non-empty
    configured list, none of whose names is a property inherited from
    [Object.prototype] (as on every balancer built by the constructor: the
    factory accepts no such name), the failover strategy selects the first
    of the providers that [getHealthyProviders] reports, and the first
    configured provider when that report is empty. *)
Theorem failover_selects_first_healthy (w : World) (rnd : number) :
  LoadBalancerConfig.providers (LLMLoadBalancer.config (this w)) <> [] ->
  (forall p, p ∈ LoadBalancerConfig.providers (LLMLoadBalancer.config (this w)) ->
     inherited (ProviderConfig.name p) = false) ->
  exists p,
    fst (selectProvider FailoverStrategy
           (LoadBalancerConfig.providers (LLMLoadBalancer.config (this w)))
           (statsView w) rnd) = Return (Some p) /\
    (head (getHealthyProviders w) = Some p \/
     (getHealthyProviders w = [] /\
      head (LoadBalancerConfig.providers (LLMLoadBalancer.config (this w))) = Some p)).
Proof.
  intros Hne Hplain. cbn [selectProvider fst]. unfold FailoverStrategy.selectProvider.
  rewrite failover_scan_head by exact Hplain. fold (getHealthyProviders w).
  destruct (LoadBalancerConfig.providers (LLMLoadBalancer.config (this w)))
    as [|x rest] eqn:Eps; [congruence|].
  cbn [length Nat.eqb].
  destruct (getHealthyProviders w) as [|h hs] eqn:Eh; simpl.
  - exists x. split; [reflexivity|]. right. split; reflexivity.
  - exists h. split; [reflexivity|]. left. reflexivity.
Qed.

Lemma failover_selects_first_healthy_witness :
  LoadBalancerConfig.providers
    (LLMLoadBalancer.config (this (run sampleWorld [CallHealthCheck probesFail]))) <> [] /\
  exists p,
    fst (selectProvider FailoverStrategy
           (LoadBalancerConfig.providers
              (LLMLoadBalancer.config (this (run sampleWorld [CallHealthCheck probesFail]))))
           (statsView (run sampleWorld [CallHealthCheck probesFail])) Number.zero)
    = Return (Some p) /\
    (head (getHealthyProviders (run sampleWorld [CallHealthCheck probesFail])) = Some p \/
     (getHealthyProviders (run sampleWorld [CallHealthCheck probesFail]) = [] /\
      head (LoadBalancerConfig.providers
              (LLMLoadBalancer.config (this (run sampleWorld [CallHealthCheck probesFail]))))
      = Some p)).
Proof.
  split; [vm_compute; discriminate|].
  apply (failover_selects_first_healthy (run sampleWorld [CallHealthCheck probesFail]) Number.zero).
  - vm_compute. discriminate.
  - intros p Hp. vm_compute in Hp. apply list_elem_of_In in Hp.
    destruct Hp as [<-|[]]. reflexivity.
Defined.

(** On an inherited name the two differ: [getHealthyProviders] reads the
    missing [isHealthy] of the inherited member as healthy, the failover
    loop reads it as unhealthy. *)
Example failover_and_report_differ_on_toString :
  fst (selectProvider FailoverStrategy
         (LoadBalancerConfig.providers (LLMLoadBalancer.config (this inheritedNameWorld)))
         (statsView inheritedNameWorld) Number.zero)
  = Return (Some openai) /\
  head (getHealthyProviders inheritedNameWorld) = Some (descriptor "toString").
Proof. split; vm_compute; reflexivity. Qed.

(** ** Health sweeps, seen from the caller *)

Lemma probe_timeout_5000 (w : World) (pc : ProviderConfig.t) :
  attemptTimeout w (ProviderConfig.withTimeout pc 5000) = 5000.
Proof. reflexivity. Qed.

Lemma probes_of_adapters (w : World) (configs : list ProviderConfig.t) :
  Forall2
    (fun pc effect =>
       exists a,
         LLMLoadBalancer.providers (this w) !! ProviderConfig.name pc = Some a /\
         effect = MakeRequest a probeRequest 5000)
    (List.filter (hasAdapter w) configs) (omap (probeOf w) configs).
Proof.
  induction configs as [|pc rest IH]; [constructor|].
  cbn [List.filter omap list_omap]. unfold hasAdapter at 1, probeOf at 1.
  destruct (LLMLoadBalancer.providers (this w) !! ProviderConfig.name pc) as [a|] eqn:Ea;
    [|exact IH].
  constructor; [|exact IH]. exists a. split; [exact Ea | reflexivity].
Qed.

Lemma filter_keeps_all {A : Type} (f : A -> bool) (l : list A) :
  (forall x, x ∈ l -> f x = true) -> List.filter f l = l.
Proof.
  induction l as [|x l IH]; intros H; simpl; [reflexivity|].
  rewrite (H x) by (apply elem_of_cons; auto).
  rewrite IH; [reflexivity|]. intros y Hy. apply H. apply elem_of_cons. auto.
Qed.

Lemma filter_drops_all {A : Type} (f : A -> bool) (l : list A) :
  (forall x, x ∈ l -> f x = false) -> List.filter f l = [].
Proof.
  induction l as [|x l IH]; intros H; simpl; [reflexivity|].
  rewrite (H x) by (apply elem_of_cons; auto).
  apply IH. intros y Hy. apply H. apply elem_of_cons. auto.
Qed.

Lemma sound_all_adapters (w : World) (pc : ProviderConfig.t) :
  reachable w ->
  pc ∈ LoadBalancerConfig.providers (LLMLoadBalancer.config (this w)) ->
  hasAdapter w pc = true.
Proof.
  intros Hr Hpc. destruct (reachable_wellFormed w Hr) as (H1 & _).
  destruct (proj2 (H1 (ProviderConfig.name pc))) as [a Ha].
  { exists pc. split; [exact Hpc | reflexivity]. }
  unfold hasAdapter. rewrite Ha. reflexivity.
Qed.

(** X14. A health sweep probes every configured descriptor whose name has
    an adapter in this balancer once, in list order, through that adapter,
    with the fixed probe request and a 5000 ms timeout whatever timeouts are
    configured; it never waits or retries. A descriptor without an adapter
    is not probed and is reported unhealthy. As long as no balancer sharing
    the configuration object has changed the provider list, every
    configured descriptor has an adapter and is probed. *)
Theorem healthCheck_probes_each_provider_once (w : World) (env : ProbeEnv) :
  reachableShared w ->
  let probed pc effect :=
    exists a,
      LLMLoadBalancer.providers (this w) !! ProviderConfig.name pc = Some a /\
      effect = MakeRequest a probeRequest 5000 in
  Forall2 probed
    (List.filter (hasAdapter w)
       (LoadBalancerConfig.providers (LLMLoadBalancer.config (this w))))
    (snd (healthCheck w env)) /\
  (forall pc,
     pc ∈ LoadBalancerConfig.providers (LLMLoadBalancer.config (this w)) ->
     hasAdapter w pc = false ->
     snd (fst (healthCheck w env)) !! ProviderConfig.name pc = Some false) /\
  (reachable w ->
   Forall2 probed (LoadBalancerConfig.providers (LLMLoadBalancer.config (this w)))
     (snd (healthCheck w env))).
Proof.
  intros Hr probed. pose proof (reachableShared_coherent w Hr) as Hs.
  assert (Heff : snd (healthCheck w env)
                 = omap (probeOf w)
                     (LoadBalancerConfig.providers (LLMLoadBalancer.config (this w)))).
  { unfold healthCheck.
    destruct (startProbes_spec w
                (LoadBalancerConfig.providers (LLMLoadBalancer.config (this w))) ∅)
      as (E & _).
    destruct (startProbes w _ ∅) as [hs effects].
    destruct (fold_left _ _ _) as [w' hs']. exact E. }
  assert (Hprobed : Forall2 probed
                      (List.filter (hasAdapter w)
                         (LoadBalancerConfig.providers (LLMLoadBalancer.config (this w))))
                      (snd (healthCheck w env))).
  { rewrite Heff. apply probes_of_adapters. }
  split; [exact Hprobed|]. split.
  - intros pc Hpc Hno.
    destruct (healthCheck_result w env Hs) as (_ & R2 & _ & R4). cbv zeta in R2, R4.
    apply list_elem_of_lookup in Hpc as [i Hi].
    destruct (R4 i pc Hi (or_intror Hno)) as [b Hb]. rewrite Hb. f_equal.
    apply (R2 _ _ Hb). intros [a Ha]. unfold hasAdapter in Hno. rewrite Ha in Hno.
    discriminate.
  - intros Hsole. rewrite filter_keeps_all in Hprobed; [exact Hprobed|].
    intros pc Hpc. apply sound_all_adapters; assumption.
Qed.

Lemma healthCheck_probes_each_provider_once_witness :
  reachableShared sharedWorld /\
  Forall2
    (fun pc effect =>
       exists a,
         LLMLoadBalancer.providers (this sharedWorld) !! ProviderConfig.name pc = Some a /\
         effect = MakeRequest a probeRequest 5000)
    (List.filter (hasAdapter sharedWorld)
       (LoadBalancerConfig.providers (LLMLoadBalancer.config (this sharedWorld))))
    (snd (healthCheck sharedWorld probesFail)) /\
  (forall pc,
     pc ∈ LoadBalancerConfig.providers (LLMLoadBalancer.config (this sharedWorld)) ->
     hasAdapter sharedWorld pc = false ->
     snd (fst (healthCheck sharedWorld probesFail)) !! ProviderConfig.name pc = Some false).
Proof.
  assert (Hr : reachableShared sharedWorld).
  { exists sampleConfig, sampleWorld, [Peer sampleWorld (CallAddProvider claude)].
    split; reflexivity. }
  split; [exact Hr|].
  destruct (healthCheck_probes_each_provider_once sharedWorld probesFail Hr)
    as (H1 & H2 & _).
  split; [exact H1 | exact H2].
Defined.

(** On that balancer the sweep probes openai only and reports claude
    unhealthy without a probe. *)
Example shared_list_sweep :
  snd (healthCheck sharedWorld probesFail)
  = [MakeRequest (BaseProvider.mk OpenAIProvider openai) probeRequest 5000] /\
  snd (fst (healthCheck sharedWorld probesFail)) !! "claude" = Some false /\
  statsView (fst (fst (healthCheck sharedWorld probesFail))) !! "claude" = None.
Proof. repeat split; vm_compute; reflexivity. Qed.

(** X15. After a health sweep the returned status map and the stored health
    flags agree. Every reported name is the name of a configured
    descriptor. If the name has an adapter in this balancer, it has a
    statistics record whose [isHealthy] is the reported value, and that
    value is the outcome of a probe of a descriptor with that name (true
    exactly when the adapter answered before the timer). If it has none, it
    is reported false and has no record. Every descriptor whose probe
    settled, and every descriptor without an adapter, has its name in the
    map. As long as no balancer sharing the configuration object has
    changed the provider list, every reported name has an adapter. *)
Theorem healthCheck_status_matches_flags (w : World) (env : ProbeEnv) :
  reachableShared w ->
  let w' := fst (fst (healthCheck w env)) in
  let status := snd (fst (healthCheck w env)) in
  let stored n b :=
    (exists s, statsView w' !! n = Some s /\ ProviderStats.isHealthy s = b) /\
    (exists i pc,
       LoadBalancerConfig.providers (LLMLoadBalancer.config (this w)) !! i = Some pc /\
       ProviderConfig.name pc = n /\ b = answered (probe env i)) in
  (forall n b, status !! n = Some b ->
     configuredIn (LoadBalancerConfig.providers (LLMLoadBalancer.config (this w))) n /\
     (registered w n -> stored n b) /\
     (~ registered w n -> b = false /\ statsView w' !! n = None)) /\
  (forall i pc,
     LoadBalancerConfig.providers (LLMLoadBalancer.config (this w)) !! i = Some pc ->
     i ∈ order env \/ hasAdapter w pc = false ->
     is_Some (status !! ProviderConfig.name pc)) /\
  (reachable w -> forall n b, status !! n = Some b -> stored n b).
Proof.
  intros Hr. cbv zeta. pose proof (reachableShared_coherent w Hr) as Hs.
  destruct (healthCheck_result w env Hs) as (R1 & R2 & _ & R4). cbv zeta in R1, R2, R4.
  assert (Hfirst : forall n b,
            snd (fst (healthCheck w env)) !! n = Some b ->
            configuredIn (LoadBalancerConfig.providers (LLMLoadBalancer.config (this w))) n).
  { intros n b Hb.
    destruct (LLMLoadBalancer.providers (this w) !! n) as [a|] eqn:Ea.
    - destruct (R1 n b Hb) as (_ & i & pc & Hi & Hn & _); [exists a; exact Ea|].
      exists pc. split; [eapply list_elem_of_lookup_2; exact Hi | exact Hn].
    - destruct (R2 n b Hb) as (_ & _ & pc & Hpc & Hn).
      { intros [a Ha]. congruence. }
      exists pc. split; assumption. }
  split; [|split; [exact R4|]].
  - intros n b Hb. split; [exact (Hfirst n b Hb)|]. split.
    + intros Hreg. exact (R1 n b Hb Hreg).
    + intros Hno. destruct (R2 n b Hb Hno) as (Hf & Hv & _). split; assumption.
  - intros Hsole n b Hb. apply (R1 n b Hb).
    destruct (reachable_wellFormed w Hsole) as (H1 & _). apply H1.
    exact (Hfirst n b Hb).
Qed.

Lemma healthCheck_status_matches_flags_witness :
  reachableShared sharedWorld /\
  (forall n b, snd (fst (healthCheck sharedWorld probesFail)) !! n = Some b ->
     configuredIn
       (LoadBalancerConfig.providers (LLMLoadBalancer.config (this sharedWorld))) n /\
     (registered sharedWorld n ->
      (exists s,
         statsView (fst (fst (healthCheck sharedWorld probesFail))) !! n = Some s /\
         ProviderStats.isHealthy s = b) /\
      (exists i pc,
         LoadBalancerConfig.providers (LLMLoadBalancer.config (this sharedWorld)) !! i
         = Some pc /\
         ProviderConfig.name pc = n /\ b = answered (probe probesFail i))) /\
     (~ registered sharedWorld n ->
      b = false /\
      statsView (fst (fst (healthCheck sharedWorld probesFail))) !! n = None)).
Proof.
  assert (Hr : reachableShared sharedWorld).
  { exists sampleConfig, sampleWorld, [Peer sampleWorld (CallAddProvider claude)].
    split; reflexivity. }
  split; [exact Hr|].
  exact (proj1 (healthCheck_status_matches_flags sharedWorld probesFail Hr)).
Defined.

(** X16. A complete sweep decides [getHealthyProviders]: once every
    configured descriptor's probe has settled, [getHealthyProviders] returns
    the whole configured list if every probe was answered; if none was, it
    returns the descriptors that have no adapter in this balancer (they have
    no record, and count as healthy), whatever the request counters say. As
    long as no balancer sharing the configuration object has changed the
    provider list there is no such descriptor, and the result is empty. *)
Theorem healthCheck_decides_getHealthyProviders (w : World) (env : ProbeEnv) :
  reachableShared w ->
  (forall i,
     (i < length (LoadBalancerConfig.providers (LLMLoadBalancer.config (this w))))%nat ->
     i ∈ order env) ->
  let w' := fst (fst (healthCheck w env)) in
  ((forall i, answered (probe env i) = true) ->
   getHealthyProviders w'
   = LoadBalancerConfig.providers (LLMLoadBalancer.config (this w))) /\
  ((forall i, answered (probe env i) = false) ->
   getHealthyProviders w'
   = List.filter (fun p => negb (hasAdapter w p))
       (LoadBalancerConfig.providers (LLMLoadBalancer.config (this w)))) /\
  (reachable w -> (forall i, answered (probe env i) = false) ->
   getHealthyProviders w' = []).
Proof.
  intros Hr Hcover. cbv zeta. pose proof (reachableShared_coherent w Hr) as Hs.
  pose proof (exec_coherent w (CallHealthCheck env) Hs) as Hs'. simpl in Hs'.
  destruct (healthCheck_result w env Hs) as (R1 & _ & _ & R4). cbv zeta in R1, R4.
  assert (Hflag : forall pc,
            pc ∈ LoadBalancerConfig.providers (LLMLoadBalancer.config (this w)) ->
            match statsView (fst (fst (healthCheck w env))) !! ProviderConfig.name pc with
            | Some s => ProviderStats.isHealthy s
            | None => true
            end
            = if hasAdapter w pc
              then match statsView (fst (fst (healthCheck w env))) !! ProviderConfig.name pc with
                   | Some s => ProviderStats.isHealthy s
                   | None => true
                   end
              else true).
  { intros pc Hpc. unfold hasAdapter.
    destruct (LLMLoadBalancer.providers (this w) !! ProviderConfig.name pc) as [a|] eqn:Ea;
      [reflexivity|].
    rewrite (coherent_no_adapter_no_record _ _ Hs'); [reflexivity|].
    rewrite healthCheck_this. exact Ea. }
  assert (Hprobe : forall pc,
            pc ∈ LoadBalancerConfig.providers (LLMLoadBalancer.config (this w)) ->
            hasAdapter w pc = true ->
            exists s j,
              statsView (fst (fst (healthCheck w env))) !! ProviderConfig.name pc = Some s /\
              ProviderStats.isHealthy s = answered (probe env j)).
  { intros pc Hpc Hadapter. apply list_elem_of_lookup in Hpc as [i Hi].
    destruct (R4 i pc Hi) as [b Hb].
    { left. apply Hcover. eapply lookup_lt_Some. exact Hi. }
    destruct (R1 _ _ Hb) as ((s & Hv & Hh) & (j & pcj & _ & _ & Hj)).
    { unfold hasAdapter in Hadapter.
      destruct (LLMLoadBalancer.providers (this w) !! ProviderConfig.name pc) as [a|] eqn:Ea;
        [exists a; exact Ea | discriminate]. }
    exists s, j. split; [exact Hv | congruence]. }
  assert (Hnone : (forall i, answered (probe env i) = false) ->
            getHealthyProviders (fst (fst (healthCheck w env)))
            = List.filter (fun p => negb (hasAdapter w p))
                (LoadBalancerConfig.providers (LLMLoadBalancer.config (this w)))).
  { intros Hall. unfold getHealthyProviders. rewrite healthCheck_this.
    apply List.filter_ext_in. intros pc Hpc. apply list_elem_of_In in Hpc.
    rewrite (Hflag pc Hpc). destruct (hasAdapter w pc) eqn:Hadapter; [|reflexivity].
    destruct (Hprobe pc Hpc Hadapter) as (s & j & -> & Hh). rewrite Hh. apply Hall. }
  split; [|split; [exact Hnone|]].
  - intros Hall. unfold getHealthyProviders. rewrite healthCheck_this.
    apply filter_keeps_all. intros pc Hpc.
    rewrite (Hflag pc Hpc). destruct (hasAdapter w pc) eqn:Hadapter; [|reflexivity].
    destruct (Hprobe pc Hpc Hadapter) as (s & j & -> & Hh). rewrite Hh. apply Hall.
  - intros Hsole Hall. rewrite (Hnone Hall). apply filter_drops_all.
    intros pc Hpc. rewrite (sound_all_adapters w pc Hsole Hpc). reflexivity.
Qed.

Lemma healthCheck_decides_getHealthyProviders_witness :
  reachableShared sharedWorld /\
  (forall i,
     (i < length (LoadBalancerConfig.providers
                    (LLMLoadBalancer.config (this sharedWorld))))%nat ->
     i ∈ order (mkProbeEnv [0%nat; 1%nat] (fun _ => Rejected apiError))) /\
  ((forall i,
      answered (probe (mkProbeEnv [0%nat; 1%nat] (fun _ => Rejected apiError)) i) = false) ->
   getHealthyProviders
     (fst (fst (healthCheck sharedWorld
                  (mkProbeEnv [0%nat; 1%nat] (fun _ => Rejected apiError)))))
   = List.filter (fun p => negb (hasAdapter sharedWorld p))
       (LoadBalancerConfig.providers (LLMLoadBalancer.config (this sharedWorld)))).
Proof.
  assert (Hr : reachableShared sharedWorld).
  { exists sampleConfig, sampleWorld, [Peer sampleWorld (CallAddProvider claude)].
    split; reflexivity. }
  assert (Hcover : forall i,
            (i < length (LoadBalancerConfig.providers
                           (LLMLoadBalancer.config (this sharedWorld))))%nat ->
            i ∈ order (mkProbeEnv [0%nat; 1%nat] (fun _ => Rejected apiError))).
  { intros i Hi. change (i < 2)%nat in Hi. simpl.
    destruct i as [|[|i]]; [set_solver | set_solver | lia]. }
  split; [exact Hr|]. split; [exact Hcover|].
  exact (proj1 (proj2 (healthCheck_decides_getHealthyProviders sharedWorld
                         (mkProbeEnv [0%nat; 1%nat] (fun _ => Rejected apiError))
                         Hr Hcover))).
Defined.

(** On that balancer a sweep in which no probe is answered leaves claude,
    which has no adapter here, reported as healthy. *)
Example shared_list_unanswered_sweep :
  getHealthyProviders
    (fst (fst (healthCheck sharedWorld
                 (mkProbeEnv [0%nat; 1%nat] (fun _ => Rejected apiError)))))
  = [claude].
Proof. vm_compute. reflexivity. Qed.

(** ** Adding and removing providers *)

(** X17. [removeProvider] forgets the name completely and touches nothing
    else: afterwards the name has no adapter, no statistics entry and no
    descriptor, and is missing from [getHealthyProviders]; every other
    name keeps its adapter and its statistics record, and the remaining
    descriptors keep their order. On a reachable balancer the call returns
    normally, also for a name that was never registered. *)
Theorem removeProvider_forgets_only_that_name (w : World) (name : string) :
  reachable w ->
  let w' := fst (removeProvider w name) in
  snd (removeProvider w name) = Return tt /\
  LLMLoadBalancer.providers (this w') !! name = None /\
  statsView w' !! name = None /\
  (forall p, p ∈ LoadBalancerConfig.providers (LLMLoadBalancer.config (this w')) ->
     ProviderConfig.name p <> name) /\
  (forall p, p ∈ getHealthyProviders w' -> ProviderConfig.name p <> name) /\
  LoadBalancerConfig.providers (LLMLoadBalancer.config (this w'))
  = List.filter (fun p => negb (String.eqb (ProviderConfig.name p) name))
      (LoadBalancerConfig.providers (LLMLoadBalancer.config (this w))) /\
  (forall other, other <> name ->
     LLMLoadBalancer.providers (this w') !! other
     = LLMLoadBalancer.providers (this w) !! other /\
     statsView w' !! other = statsView w !! other).
Proof.
  intros Hr. destruct (reachable_wellFormed w Hr) as (_ & _ & H3).
  cbv zeta. unfold removeProvider.
  destruct (createStrategy_total
              (LoadBalancerConfig.strategy (LLMLoadBalancer.config (this w)))
              (LoadBalancerConfig.customStrategy (LLMLoadBalancer.config (this w)))
              (List.filter (fun p => negb (String.eqb (ProviderConfig.name p) name))
                 (LoadBalancerConfig.providers (LLMLoadBalancer.config (this w))))
              H3) as [s Es].
  simpl. rewrite Es. simpl.
  assert (Hnames : forall p,
            p ∈ List.filter (fun p => negb (String.eqb (ProviderConfig.name p) name))
                  (LoadBalancerConfig.providers (LLMLoadBalancer.config (this w))) ->
            ProviderConfig.name p <> name).
  { intros p Hp. apply list_elem_of_In, filter_In in Hp as [_ Hp].
    apply negb_true_iff, String.eqb_neq in Hp. exact Hp. }
  split; [reflexivity|]. split; [apply lookup_delete_eq|]. split.
  { unfold statsView, deref. simpl. rewrite lookup_omap, lookup_delete_eq. reflexivity. }
  split; [exact Hnames|]. split.
  { intros p Hp. unfold getHealthyProviders in Hp. simpl in Hp.
    apply list_elem_of_In, filter_In in Hp as [Hp _]. apply Hnames.
    apply list_elem_of_In. exact Hp. }
  split; [reflexivity|].
  intros other Hne. split.
  - apply lookup_delete_ne. congruence.
  - unfold statsView, deref. simpl. rewrite !lookup_omap, lookup_delete_ne by congruence.
    reflexivity.
Qed.

Lemma removeProvider_forgets_only_that_name_witness :
  reachable (fst (addProvider sampleWorld claude)) /\
  snd (removeProvider (fst (addProvider sampleWorld claude)) "openai") = Return tt /\
  LLMLoadBalancer.providers
    (this (fst (removeProvider (fst (addProvider sampleWorld claude)) "openai")))
    !! "openai" = None.
Proof.
  assert (Hr : reachable (fst (addProvider sampleWorld claude))).
  { exists sampleConfig, sampleWorld, [CallAddProvider claude]. split; reflexivity. }
  split; [exact Hr|].
  destruct (removeProvider_forgets_only_that_name
              (fst (addProvider sampleWorld claude)) "openai" Hr) as (H1 & H2 & _).
  split; [exact H1 | exact H2].
Defined.

(** X18. [addProvider] on a reachable balancer: a descriptor whose name the
    factory does not accept makes the call throw "Unsupported provider:
    <name>" and leaves the balancer exactly as it was; an accepted one
    returns normally, gives the name the zeroed healthy record, and leaves
    the adapter and the statistics record of every other name alone. *)
Theorem addProvider_effect (w : World) (c : ProviderConfig.t) :
  reachable w ->
  (~ supported (ProviderConfig.name c) ->
   addProvider w c
   = (w, Throw (ThrowError ("Unsupported provider: " ++ ProviderConfig.name c)))) /\
  (supported (ProviderConfig.name c) ->
   let w' := fst (addProvider w c) in
   snd (addProvider w c) = Return tt /\
   statsView w' !! ProviderConfig.name c = Some ProviderStats.fresh /\
   (forall other, other <> ProviderConfig.name c ->
      LLMLoadBalancer.providers (this w') !! other
      = LLMLoadBalancer.providers (this w) !! other /\
      statsView w' !! other = statsView w !! other)).
Proof.
  intros Hr. pose proof (reachable_sound w Hr) as ((_ & _ & H3) & (V & _) & _). split.
  - intros Hn. unfold addProvider, createProvider.
    destruct (providerKindOf (toLowerCase (ProviderConfig.name c))) as [k|] eqn:E;
      [|reflexivity].
    exfalso. apply Hn. exists k. exact E.
  - intros Hsup. destruct (supported_createProvider c Hsup) as [k Ek].
    cbv zeta. unfold addProvider. rewrite Ek.
    destruct (createStrategy_total
                (LoadBalancerConfig.strategy (LLMLoadBalancer.config (this w)))
                (LoadBalancerConfig.customStrategy (LLMLoadBalancer.config (this w)))
                (LoadBalancerConfig.providers (LLMLoadBalancer.config (this w)) ++ [c])
                H3) as [s Es].
    simpl. rewrite Es. simpl. split; [reflexivity|]. split.
    + unfold statsView, deref. simpl. rewrite lookup_omap, lookup_insert_eq. simpl.
      apply list_lookup_middle. reflexivity.
    + intros other Hne. split.
      * apply lookup_insert_ne. congruence.
      * unfold statsView. simpl.
        transitivity (deref (heap w ++ [ProviderStats.fresh])
                        (LLMLoadBalancer.stats (this w)) !! other).
        -- unfold deref. rewrite !lookup_omap, lookup_insert_ne by congruence.
           reflexivity.
        -- apply deref_app_fresh. exact V.
Qed.

Lemma addProvider_effect_witness :
  reachable sampleWorld /\
  supported (ProviderConfig.name claude) /\
  snd (addProvider sampleWorld claude) = Return tt /\
  statsView (fst (addProvider sampleWorld claude)) !! ProviderConfig.name claude
  = Some ProviderStats.fresh /\
  (forall other, other <> ProviderConfig.name claude ->
     LLMLoadBalancer.providers (this (fst (addProvider sampleWorld claude))) !! other
     = LLMLoadBalancer.providers (this sampleWorld) !! other /\
     statsView (fst (addProvider sampleWorld claude)) !! other
     = statsView sampleWorld !! other).
Proof.
  assert (Hr : reachable sampleWorld).
  { exists sampleConfig, sampleWorld, []. split; reflexivity. }
  assert (Hsup : supported (ProviderConfig.name claude)).
  { eexists. vm_compute. reflexivity. }
  split; [exact Hr|]. split; [exact Hsup|].
  apply (proj2 (addProvider_effect sampleWorld claude Hr) Hsup).
Defined.

Lemma setProviders_same (cfg : LoadBalancerConfig.t) (ps : list ProviderConfig.t) :
  LoadBalancerConfig.setProviders (LoadBalancerConfig.setProviders cfg ps)
    (LoadBalancerConfig.providers cfg) = cfg.
Proof. destruct cfg. reflexivity. Qed.

(** X19. Adding a provider under an accepted name that this balancer has
    no adapter for and that is not in the provider list, and removing that
    name again, restores the balancer's tables: the adapters, the statistics
    table, the configuration and every statistics reading are as before the
    two calls; only an unused record stays behind in the heap. (A name can
    be in the list without an adapter after a balancer sharing the
    configuration object has added it; then the removal takes that
    descriptor out of the list as well.) *)
Theorem add_then_remove_restores (w : World) (c : ProviderConfig.t) :
  reachableShared w ->
  supported (ProviderConfig.name c) ->
  ~ registered w (ProviderConfig.name c) ->
  ~ configuredIn (LoadBalancerConfig.providers (LLMLoadBalancer.config (this w)))
      (ProviderConfig.name c) ->
  let w2 := fst (removeProvider (fst (addProvider w c)) (ProviderConfig.name c)) in
  LLMLoadBalancer.providers (this w2) = LLMLoadBalancer.providers (this w) /\
  LLMLoadBalancer.stats (this w2) = LLMLoadBalancer.stats (this w) /\
  LLMLoadBalancer.config (this w2) = LLMLoadBalancer.config (this w) /\
  statsView w2 = statsView w /\
  getHealthyProviders w2 = getHealthyProviders w.
Proof.
  intros Hr Hsup Hnew Hfree.
  pose proof (reachableShared_coherent w Hr) as ((V & _ & D & _) & _ & Hfit & _).
  pose proof (kindFits_custom _ _ Hfit) as H3.
  destruct (supported_createProvider c Hsup) as [k Ek].
  assert (Hp : LLMLoadBalancer.providers (this w) !! ProviderConfig.name c = None).
  { destruct (LLMLoadBalancer.providers (this w) !! ProviderConfig.name c) eqn:E;
      [|reflexivity].
    exfalso. apply Hnew. eexists. exact E. }
  assert (Hst : LLMLoadBalancer.stats (this w) !! ProviderConfig.name c = None).
  { destruct (LLMLoadBalancer.stats (this w) !! ProviderConfig.name c) eqn:E;
      [|reflexivity].
    exfalso. apply Hnew. apply D. eexists. exact E. }
  assert (Hfilter :
            List.filter
              (fun p => negb (String.eqb (ProviderConfig.name p) (ProviderConfig.name c)))
              (LoadBalancerConfig.providers (LLMLoadBalancer.config (this w)) ++ [c])
            = LoadBalancerConfig.providers (LLMLoadBalancer.config (this w))).
  { rewrite List.filter_app. simpl. rewrite String.eqb_refl. simpl. rewrite app_nil_r.
    apply filter_keeps_all. intros p Hin.
    apply negb_true_iff, String.eqb_neq. intros E. apply Hfree.
    exists p. split; assumption. }
  cbv zeta. unfold addProvider. rewrite Ek.
  destruct (createStrategy_total
              (LoadBalancerConfig.strategy (LLMLoadBalancer.config (this w)))
              (LoadBalancerConfig.customStrategy (LLMLoadBalancer.config (this w)))
              (LoadBalancerConfig.providers (LLMLoadBalancer.config (this w)) ++ [c])
              H3) as [s Es].
  simpl. rewrite Es. simpl. unfold removeProvider. simpl. rewrite Hfilter.
  destruct (createStrategy_total
              (LoadBalancerConfig.strategy (LLMLoadBalancer.config (this w)))
              (LoadBalancerConfig.customStrategy (LLMLoadBalancer.config (this w)))
              (LoadBalancerConfig.providers (LLMLoadBalancer.config (this w)))
              H3) as [s2 Es2].
  rewrite Es2. simpl.
  rewrite !delete_insert_eq, !delete_id by assumption.
  assert (Hview : statsView
                    (mkWorld
                       (LLMLoadBalancer.mk (LLMLoadBalancer.providers (this w)) s2
                          (LLMLoadBalancer.stats (this w))
                          (LoadBalancerConfig.setProviders
                             (LoadBalancerConfig.setProviders
                                (LLMLoadBalancer.config (this w))
                                (LoadBalancerConfig.providers
                                   (LLMLoadBalancer.config (this w)) ++ [c]))
                             (LoadBalancerConfig.providers
                                (LLMLoadBalancer.config (this w)))))
                       (heap w ++ [ProviderStats.fresh]))
                  = statsView w).
  { apply map_eq. intros n. unfold statsView. simpl. apply deref_app_fresh. exact V. }
  split; [reflexivity|]. split; [reflexivity|].
  split; [apply setProviders_same|]. split; [exact Hview|].
  unfold getHealthyProviders. rewrite Hview. simpl. reflexivity.
Qed.

(** On the balancer that reads claude in the list without having an adapter
    for it, gemini is added and removed. *)
Lemma add_then_remove_restores_witness :
  reachableShared sharedWorld /\
  supported (ProviderConfig.name gemini) /\
  ~ registered sharedWorld (ProviderConfig.name gemini) /\
  ~ configuredIn (LoadBalancerConfig.providers (LLMLoadBalancer.config (this sharedWorld)))
      (ProviderConfig.name gemini) /\
  LLMLoadBalancer.config
    (this (fst (removeProvider (fst (addProvider sharedWorld gemini))
                  (ProviderConfig.name gemini))))
  = LLMLoadBalancer.config (this sharedWorld) /\
  statsView
    (fst (removeProvider (fst (addProvider sharedWorld gemini)) (ProviderConfig.name gemini)))
  = statsView sharedWorld.
Proof.
  assert (Hr : reachableShared sharedWorld).
  { exists sampleConfig, sampleWorld, [Peer sampleWorld (CallAddProvider claude)].
    split; reflexivity. }
  assert (Hsup : supported (ProviderConfig.name gemini)).
  { eexists. vm_compute. reflexivity. }
  assert (Hnew : ~ registered sharedWorld (ProviderConfig.name gemini)).
  { intros [a Ha]. vm_compute in Ha. discriminate Ha. }
  assert (Hfree : ~ configuredIn
                      (LoadBalancerConfig.providers
                         (LLMLoadBalancer.config (this sharedWorld)))
                      (ProviderConfig.name gemini)).
  { intros (p & Hp & Hn). vm_compute in Hp. apply list_elem_of_In in Hp.
    destruct Hp as [<-|[<-|[]]]; discriminate Hn. }
  split; [exact Hr|]. split; [exact Hsup|]. split; [exact Hnew|]. split; [exact Hfree|].
  destruct (add_then_remove_restores sharedWorld gemini Hr Hsup Hnew Hfree)
    as (_ & _ & H3 & H4 & _).
  split; [exact H3 | exact H4].
Defined.

(** There, adding claude and removing it again drops the descriptor that the
    other balancer had put into the list. *)
Example shared_list_add_then_remove :
  LoadBalancerConfig.providers (LLMLoadBalancer.config (this sharedWorld))
  = [openai; claude] /\
  LoadBalancerConfig.providers
    (LLMLoadBalancer.config
       (this (fst (removeProvider (fst (addProvider sharedWorld claude)) "claude"))))
  = [openai].
Proof. split; vm_compute; reflexivity. Qed.

(** X20. Adding or removing a provider rebuilds the strategy object, so a
    round-robin rotation starts over: after either call on a reachable
    round-robin balancer the cursor is 0 and the next selection returns the
    first provider of the new list, wherever the rotation stood before. *)
Theorem mutation_restarts_rotation (w : World) :
  reachable w ->
  LoadBalancerConfig.strategy (LLMLoadBalancer.config (this w)) = RoundRobin ->
  forall w',
    ((exists name, w' = fst (removeProvider w name)) \/
     (exists c, supported (ProviderConfig.name c) /\ w' = fst (addProvider w c))) ->
    LLMLoadBalancer.strategy (this w') = RoundRobinStrategy 0 /\
    (forall stats rnd,
       LoadBalancerConfig.providers (LLMLoadBalancer.config (this w')) <> [] ->
       fst (selectProvider (LLMLoadBalancer.strategy (this w'))
              (LoadBalancerConfig.providers (LLMLoadBalancer.config (this w'))) stats rnd)
       = Return (head (LoadBalancerConfig.providers (LLMLoadBalancer.config (this w'))))).
Proof.
  intros Hr Hk w' Hw'.
  assert (Hs : LLMLoadBalancer.strategy (this w') = RoundRobinStrategy 0).
  { destruct Hw' as [[name ->]|(c & Hsup & ->)].
    - unfold removeProvider. simpl. rewrite Hk. reflexivity.
    - destruct (supported_createProvider c Hsup) as [k Ek].
      unfold addProvider. rewrite Ek. simpl. rewrite Hk. reflexivity. }
  split; [exact Hs|].
  intros stats rnd Hne. rewrite Hs. simpl. unfold RoundRobinStrategy.selectProvider.
  destruct (LoadBalancerConfig.providers (LLMLoadBalancer.config (this w'))) as [|p rest];
    [congruence|].
  reflexivity.
Qed.

Lemma mutation_restarts_rotation_witness :
  reachable sampleWorld /\
  LoadBalancerConfig.strategy (LLMLoadBalancer.config (this sampleWorld)) = RoundRobin /\
  LLMLoadBalancer.strategy (this (fst (addProvider sampleWorld claude)))
  = RoundRobinStrategy 0.
Proof.
  assert (Hr : reachable sampleWorld).
  { exists sampleConfig, sampleWorld, []. split; reflexivity. }
  split; [exact Hr|]. split; [reflexivity|].
  apply (mutation_restarts_rotation sampleWorld Hr eq_refl
           (fst (addProvider sampleWorld claude))).
  right. exists claude. split; [eexists; vm_compute; reflexivity | reflexivity].
Defined.

(** ** Adapter errors *)

Lemma jsOrStrLit_nonempty (x : option string) (d : string) :
  d <> ""%string -> jsOrStrLit x d <> ""%string.
Proof.
  intros Hd. unfold jsOrStrLit. destruct x as [s|]; [|exact Hd].
  destruct (String.eqb_spec s ""); [exact Hd | assumption].
Qed.

(** X21. The error an adapter reports through [handleError] always carries
    the name of the adapter's own descriptor and the HTTP status of the
    response when there is one; its message is never empty: it is the first
    non-empty one of the vendor's error message, the response's message and
    the caught error's message, and "Unknown error" when all three are
    missing or empty. *)
Theorem handleError_attribution (provider : BaseProvider.t) (error : CaughtError.t) :
  let vendor :=
    optChain (optChain (optChain (CaughtError.response error) ErrorResponse.data)
                ResponseData.error) ErrorBody.message in
  let body :=
    optChain (optChain (CaughtError.response error) ErrorResponse.data)
      ResponseData.message in
  let e := handleError provider error in
  LLMError.provider e = ProviderConfig.name (BaseProvider.config provider) /\
  LLMError.statusCode e = optChain (CaughtError.response error) ErrorResponse.status /\
  LLMError.message e <> ""%string /\
  (falsyStr vendor = false -> Some (LLMError.message e) = vendor) /\
  (falsyStr vendor = true -> falsyStr body = false -> Some (LLMError.message e) = body) /\
  (falsyStr vendor = true -> falsyStr body = true ->
   falsyStr (CaughtError.message error) = false ->
   Some (LLMError.message e) = CaughtError.message error) /\
  (falsyStr vendor = true -> falsyStr body = true ->
   falsyStr (CaughtError.message error) = true ->
   LLMError.message e = "Unknown error"%string).
Proof.
  cbv zeta. unfold handleError. simpl.
  split; [reflexivity|]. split; [reflexivity|].
  split; [apply jsOrStrLit_nonempty; discriminate|].
  generalize (optChain (optChain (optChain (CaughtError.response error) ErrorResponse.data)
                          ResponseData.error) ErrorBody.message) as vendor.
  generalize (optChain (optChain (CaughtError.response error) ErrorResponse.data)
                ResponseData.message) as body.
  generalize (CaughtError.message error) as own.
  unfold jsOrStr, jsOrStrLit, falsyStr.
  intros [m|] [b|] [v|];
    repeat match goal with
           | |- context [String.eqb ?x ""] => destruct (String.eqb_spec x "")
           end;
    repeat split; intros; subst; try discriminate; try reflexivity; congruence.
Qed.

Example handleError_rate_limited :
  handleError (BaseProvider.mk OpenAIProvider openai) rateLimited
  = LLMError.mk "Rate limit reached" "openai" (Some 429)
      (Some "Request failed with status code 429").
Proof. reflexivity. Qed.

(** X22. A failure that the selected provider's own adapter reports through
    [handleError] is always charged to that provider: on a reachable
    balancer, after the pass its record is the old one with one more failed
    request, and no other record has changed. *)
Theorem adapter_error_is_charged (w : World) (req : LLMRequest.t)
    (env : nat -> AttemptEnv) (attempt : nat) (maxRetries retryDelay : Z)
    (errors : list LLMError.t) (trace : list Effect)
    (p : ProviderConfig.t) (s' : LoadBalancingStrategy) (a : BaseProvider.t)
    (caught : CaughtError.t) :
  reachable w ->
  selectProvider (LLMLoadBalancer.strategy (this w))
    (LoadBalancerConfig.providers (LLMLoadBalancer.config (this w)))
    (statsView w) (random (env attempt)) = (Return (Some p), s') ->
  p ∈ LoadBalancerConfig.providers (LLMLoadBalancer.config (this w)) ->
  LLMLoadBalancer.providers (this w) !! ProviderConfig.name p = Some a ->
  settled (env attempt) = Rejected (ThrowLLMError (handleError a caught)) ->
  let w' := fst (fst (requestLoop 1 attempt maxRetries retryDelay req env w errors trace)) in
  exists s,
    statsView w !! ProviderConfig.name p = Some s /\
    statsView w' !! ProviderConfig.name p
    = Some (updateRecord s false 0 (statsTime (env attempt))) /\
    (forall other, other <> ProviderConfig.name p ->
       statsView w' !! other = statsView w !! other).
Proof.
  intros Hr Hsel Hin Ha Hset.
  destruct (reachable_sound w Hr) as (_ & (_ & _ & _ & N) & _).
  destruct (pass_counts w req env attempt maxRetries retryDelay errors trace p s'
              Hr Hsel Hin) as (s & Hs & Hs' & Hother).
  { intros x Hx. rewrite Hset in Hx. injection Hx as <-. simpl. apply (N _ _ Ha). }
  exists s. split; [exact Hs|]. rewrite Hset in Hs'. split; [exact Hs' | exact Hother].
Qed.

Lemma adapter_error_is_charged_witness :
  reachable sampleWorld /\
  exists s,
    statsView sampleWorld !! ProviderConfig.name openai = Some s /\
    statsView
      (fst (fst (requestLoop 1 0 2 10 sampleRequest alwaysRateLimited sampleWorld [] [])))
      !! ProviderConfig.name openai
    = Some (updateRecord s false 0 (statsTime (alwaysRateLimited 0%nat))).
Proof.
  assert (Hr : reachable sampleWorld).
  { exists sampleConfig, sampleWorld, []. split; reflexivity. }
  split; [exact Hr|].
  destruct (adapter_error_is_charged sampleWorld sampleRequest alwaysRateLimited 0 2 10
              [] [] openai (RoundRobinStrategy 0) (BaseProvider.mk OpenAIProvider openai)
              rateLimited Hr eq_refl (list_elem_of_here _ _) eq_refl eq_refl)
    as (s & H1 & H2 & _).
  exists s. split; [exact H1 | exact H2].
Defined.

(** ** The provider factory *)

Lemma providerKindOf_names (l : string) :
  is_Some (providerKindOf l) <-> l ∈ providerNames.
Proof.
  unfold providerKindOf, providerNames. split.
  - intros [k Hk].
    repeat match type of Hk with
           | (if String.eqb l ?n then _ else _) = _ =>
               destruct (String.eqb_spec l n) as [->|_];
               [set_solver|]
           end.
    discriminate.
  - intros H.
    repeat (apply elem_of_cons in H as [->|H]; [eexists; reflexivity|]).
    inversion H.
Qed.

Lemma toLowerCase_idempotent (s : string) : toLowerCase (toLowerCase s) = toLowerCase s.
Proof.
  induction s as [|c s IH]; simpl; [reflexivity|]. rewrite IH. f_equal.
  destruct c as [[] [] [] [] [] [] [] []]; reflexivity.
Qed.

(** X23. The factory accepts a descriptor exactly when its name, lower-cased,
    is one of the nine provider names, so spelling variants such as
    "OpenAI" are accepted like "openai" and get the same adapter class; the
    adapter keeps the descriptor as given, and a refusal names the
    descriptor as spelled. *)
Theorem createProvider_accepts_names_ignoring_case (c : ProviderConfig.t) :
  ((exists a, createProvider c = Return a)
   <-> toLowerCase (ProviderConfig.name c) ∈ providerNames) /\
  (forall a, createProvider c = Return a ->
     BaseProvider.config a = c /\
     providerKindOf (toLowerCase (ProviderConfig.name c)) = Some (BaseProvider.kind a)) /\
  (toLowerCase (ProviderConfig.name c) ∉ providerNames ->
   createProvider c
   = Throw (ThrowError ("Unsupported provider: " ++ ProviderConfig.name c))) /\
  (forall a, createProvider c = Return a ->
     createProvider (renamed c (toLowerCase (ProviderConfig.name c)))
     = Return (BaseProvider.mk (BaseProvider.kind a)
                 (renamed c (toLowerCase (ProviderConfig.name c))))).
Proof.
  unfold createProvider. split; [|split; [|split]].
  - rewrite <- providerKindOf_names.
    destruct (providerKindOf (toLowerCase (ProviderConfig.name c))) as [k|]; split.
    + intros _. eexists. reflexivity.
    + intros _. eexists. reflexivity.
    + intros [a Ha]. discriminate.
    + intros [k Hk]. discriminate.
  - intros a. destruct (providerKindOf _) as [k|] eqn:E; [|discriminate].
    intros [= <-]. split; reflexivity.
  - intros Hn. rewrite <- providerKindOf_names in Hn.
    destruct (providerKindOf _) as [k|]; [|reflexivity].
    exfalso. apply Hn. eexists. reflexivity.
  - intros a. simpl. rewrite toLowerCase_idempotent.
    destruct (providerKindOf _) as [k|]; [|discriminate].
    intros [= <-]. reflexivity.
Qed.

Example createProvider_mixed_case :
  createProvider (descriptor "OpenAI")
  = Return (BaseProvider.mk OpenAIProvider (descriptor "OpenAI")).
Proof. reflexivity. Qed.

(** ** The package entry points *)

Lemma keyedProviders_from_table (env : Env) (table : list (string * string * string)) :
  forall p, p ∈ keyedProviders env table ->
    exists envKey,
      (ProviderConfig.name p, envKey, ProviderConfig.model p) ∈ table /\
      envValue env envKey = Some (ProviderConfig.apiKey p) /\
      p = ProviderConfig.mk (ProviderConfig.name p) (ProviderConfig.apiKey p)
            (ProviderConfig.model p) None None None None.
Proof.
  induction table as [|[[name envKey] model] rest IH]; intros p Hp; simpl in Hp.
  - inversion Hp.
  - destruct (envValue env envKey) as [apiKey|] eqn:E.
    + apply elem_of_cons in Hp as [->|Hp].
      * exists envKey. simpl. split; [apply list_elem_of_here|]. split; [exact E | reflexivity].
      * destruct (IH p Hp) as (k & Hin & Hrest). exists k.
        split; [apply list_elem_of_further; exact Hin | exact Hrest].
    + destruct (IH p Hp) as (k & Hin & Hrest). exists k.
      split; [apply list_elem_of_further; exact Hin | exact Hrest].
Qed.

Lemma keyedProviders_names_sublist (env : Env) (table : list (string * string * string)) :
  sublist (map ProviderConfig.name (keyedProviders env table))
    (map (fun row => fst (fst row)) table).
Proof.
  induction table as [|[[name envKey] model] rest IH]; simpl; [constructor|].
  destruct (envValue env envKey); simpl.
  - apply sublist_skip. exact IH.
  - apply sublist_cons. exact IH.
Qed.

Lemma keyedProviders_nil (env : Env) (table : list (string * string * string)) :
  keyedProviders env table = [] <->
  forall row, row ∈ table -> envValue env (snd (fst row)) = None.
Proof.
  induction table as [|[[name envKey] model] rest IH]; simpl.
  - split; [intros _ row H; inversion H | reflexivity].
  - destruct (envValue env envKey) as [apiKey|] eqn:E; split.
    + discriminate.
    + intros H. specialize (H (name, envKey, model) (list_elem_of_here _ _)).
      simpl in H. congruence.
    + intros H row Hrow. apply elem_of_cons in Hrow as [->|Hrow]; [exact E|].
      apply IH; assumption.
    + intros H. apply IH. intros row Hrow. apply H. apply list_elem_of_further. exact Hrow.
Qed.

Lemma autoProviders_supported (env : Env) (p : ProviderConfig.t) :
  p ∈ autoProviders env -> supported (ProviderConfig.name p).
Proof.
  unfold autoProviders. intros Hp. apply elem_of_app in Hp as [Hp|Hp].
  - destruct (keyedProviders_from_table env providerConfigs p Hp) as (k & Hin & _).
    unfold providerConfigs in Hin.
    repeat (apply elem_of_cons in Hin as [Hin|Hin];
            [injection Hin as -> _ _; eexists; vm_compute; reflexivity|]).
    inversion Hin.
  - unfold ollamaProvider in Hp. destruct (envValue env "OLLAMA_MODEL"); [|inversion Hp].
    apply list_elem_of_singleton in Hp as ->. eexists. vm_compute. reflexivity.
Qed.

Lemma autoProviders_names_NoDup (env : Env) :
  NoDup (map ProviderConfig.name (autoProviders env)).
Proof.
  apply (sublist_NoDup _
           (map (fun row => fst (fst row)) providerConfigs ++ ["ollama"])).
  - apply (bool_decide_unpack _). vm_compute. exact I.
  - unfold autoProviders. rewrite List.map_app. apply sublist_app.
    + apply keyedProviders_names_sublist.
    + unfold ollamaProvider. destruct (envValue env "OLLAMA_MODEL"); simpl.
      * reflexivity.
      * apply sublist_nil_l.
Qed.

(** X24. [createAutoBalancer] fails in two ways only: with "No provider API
    keys found in environment variables" when none of the eight API-key
    variables and not OLLAMA_MODEL is set to a non-empty value, and with the
    custom-strategy error when the custom strategy is asked for without a
    function. Otherwise it returns a balancer whose providers are the
    configured ones in the order of the table, with pairwise distinct
    names, every one accepted by the factory and starting with a zeroed
    healthy record. *)
Theorem createAutoBalancer_outcome (env : Env) (strategy : option StrategyKind)
    (customStrategy : option StrategyFunction) :
  NoDup (map ProviderConfig.name (autoProviders env)) /\
  (autoProviders env = [] <->
   forall key,
     key ∈ map (fun row => snd (fst row)) providerConfigs ++ ["OLLAMA_MODEL"] ->
     envValue env key = None) /\
  (autoProviders env = [] ->
   createAutoBalancer env strategy customStrategy
   = Throw (ThrowError "No provider API keys found in environment variables")) /\
  (autoProviders env <> [] ->
   (default RoundRobin strategy = Custom -> is_Some customStrategy) ->
   exists w0,
     createAutoBalancer env strategy customStrategy = Return w0 /\
     LoadBalancerConfig.providers (LLMLoadBalancer.config (this w0)) = autoProviders env /\
     LoadBalancerConfig.strategy (LLMLoadBalancer.config (this w0))
     = default RoundRobin strategy /\
     forall p, p ∈ autoProviders env ->
       statsView w0 !! ProviderConfig.name p = Some ProviderStats.fresh) /\
  (autoProviders env <> [] ->
   default RoundRobin strategy = Custom -> customStrategy = None ->
   createAutoBalancer env strategy customStrategy
   = Throw (ThrowError "Custom strategy function is required for custom strategy type")).
Proof.
  split; [apply autoProviders_names_NoDup|]. split; [|split; [|split]].
  - unfold autoProviders. split.
    + intros H. apply app_eq_nil in H as [Hk Ho]. intros key Hkey.
      apply elem_of_app in Hkey as [Hkey|Hkey].
      * apply list_elem_of_fmap in Hkey as (row & -> & Hrow).
        exact (proj1 (keyedProviders_nil env providerConfigs) Hk row Hrow).
      * apply list_elem_of_singleton in Hkey as ->.
        unfold ollamaProvider in Ho.
        destruct (envValue env "OLLAMA_MODEL"); [discriminate | reflexivity].
    + intros H.
      rewrite (proj2 (keyedProviders_nil env providerConfigs)).
      * unfold ollamaProvider. rewrite H; [reflexivity|].
        apply elem_of_app. right. apply list_elem_of_here.
      * intros row Hrow. apply H. apply elem_of_app. left.
        apply list_elem_of_fmap. exists row. split; [reflexivity | exact Hrow].
  - intros H. unfold createAutoBalancer. rewrite H. reflexivity.
  - intros Hne Hcustom. unfold createAutoBalancer, createLLMBalancer.
    destruct (Nat.eqb_spec (length (autoProviders env)) 0) as [E|_].
    { destruct (autoProviders env); [congruence | discriminate]. }
    destruct (construct_total
                (LoadBalancerConfig.mk (default RoundRobin strategy) (autoProviders env)
                   customStrategy None None None)) as [w0 Hw0].
    { intros p Hp. apply (autoProviders_supported env). exact Hp. }
    { exact Hcustom. }
    exists w0. split; [exact Hw0|].
    destruct (construct_state _ _ Hw0) as (Hcfg & Hfresh & _).
    rewrite Hcfg. simpl. split; [reflexivity|]. split; [reflexivity|].
    intros p Hp. apply Hfresh. exists p. split; [exact Hp | reflexivity].
  - intros Hne Hk Hnone. unfold createAutoBalancer, createLLMBalancer, construct.
    destruct (Nat.eqb_spec (length (autoProviders env)) 0) as [E|_].
    { destruct (autoProviders env); [congruence | discriminate]. }
    simpl.
    destruct (initializeProviders_total (autoProviders env) ∅ ∅ [])
      as [[[providers stats] h] ->].
    { intros p Hp. apply (autoProviders_supported env). exact Hp. }
    rewrite Hk, Hnone. reflexivity.
Qed.

Example createAutoBalancer_two_keys :
  autoProviders sampleEnv
  = [ProviderConfig.mk "openai" "key-o" "gpt-3.5-turbo" None None None None;
     ProviderConfig.mk "claude" "key-c" "claude-3-haiku" None None None None].
Proof. reflexivity. Qed.






Example singleModelRequest_missing_key :
  singleModelRequest ∅ "gemini" sampleRequest None alwaysOk
  = (Throw (ThrowError "Missing GEMINI_API_KEY environment variable"), []).
Proof. reflexivity. Qed.

(** X26. The two entry points read the environment alike: every provider
    that [createAutoBalancer] configures from an API-key variable carries
    exactly the descriptor that [singleModelRequest] builds for its name
    when no model is given, from the same variable and with the same default
    model. (Ollama is the exception: it is auto-configured from
    OLLAMA_MODEL, without a key.) *)
Theorem entry_points_build_same_descriptor (env : Env) (p : ProviderConfig.t) :
  p ∈ autoProviders env ->
  ProviderConfig.name p <> "ollama"%string ->
  ProviderConfig.name p ∈ providerNames /\
  envValue env (toUpperCase (ProviderConfig.name p) ++ "_API_KEY")
  = Some (ProviderConfig.apiKey p) /\
  singleConfig (ProviderConfig.name p) (ProviderConfig.apiKey p) None = p.
Proof.
  unfold autoProviders. intros Hp Hn. apply elem_of_app in Hp as [Hp|Hp].
  - destruct (keyedProviders_from_table env providerConfigs p Hp) as (k & Hin & Hv & Hp').
    destruct p as [name apiKey model baseUrl weight timeout maxRetries]. simpl in *.
    injection Hp' as -> -> -> ->.
    unfold providerConfigs in Hin.
    repeat (apply elem_of_cons in Hin as [Hin|Hin];
            [injection Hin as -> -> ->;
             split; [apply (bool_decide_unpack _); vm_compute; exact I|];
             split; [exact Hv | reflexivity]|]).
    inversion Hin.
  - unfold ollamaProvider in Hp. destruct (envValue env "OLLAMA_MODEL"); [|inversion Hp].
    apply list_elem_of_singleton in Hp as ->. simpl in Hn. congruence.
Qed.

Lemma entry_points_build_same_descriptor_witness :
  ProviderConfig.mk "claude" "key-c" "claude-3-haiku" None None None None
    ∈ autoProviders sampleEnv /\
  singleConfig "claude" "key-c" None
  = ProviderConfig.mk "claude" "key-c" "claude-3-haiku" None None None None.
Proof.
  assert (Hp : ProviderConfig.mk "claude" "key-c" "claude-3-haiku" None None None None
                 ∈ autoProviders sampleEnv).
  { apply list_elem_of_further. apply list_elem_of_here. }
  split; [exact Hp|].
  apply (entry_points_build_same_descriptor sampleEnv
           (ProviderConfig.mk "claude" "key-c" "claude-3-haiku" None None None None) Hp).
  discriminate.
Defined.

(** ** Snapshots, once more *)

(** X27. What a [getStats] snapshot does keep: later [addProvider] and
    [removeProvider] calls on a reachable balancer change no reading made
    through the snapshot. A removed name stays in it with its record, and a
    name added again shows the record it had when the snapshot was taken. *)
Theorem getStats_snapshot_survives_add_remove (w : World) (c : ProviderConfig.t)
    (name n : string) :
  reachable w ->
  deref (heap (fst (addProvider w c))) (getStats w) !! n = deref (heap w) (getStats w) !! n /\
  deref (heap (fst (removeProvider w name))) (getStats w) !! n
  = deref (heap w) (getStats w) !! n.
Proof.
  intros Hr. destruct (reachable_sound w Hr) as (_ & (V & _) & _). split.
  - unfold addProvider. destruct (createProvider c); [|reflexivity].
    destruct (createStrategy _ _ _); simpl; apply deref_app_fresh; exact V.
  - unfold removeProvider. destruct (createStrategy _ _ _); reflexivity.
Qed.

Lemma getStats_snapshot_survives_add_remove_witness :
  reachable (run sampleWorld [CallRequest sampleRequest alwaysOk]) /\
  deref (heap (fst (addProvider (run sampleWorld [CallRequest sampleRequest alwaysOk]) openai)))
    (getStats (run sampleWorld [CallRequest sampleRequest alwaysOk])) !! "openai"
  = deref (heap (run sampleWorld [CallRequest sampleRequest alwaysOk]))
      (getStats (run sampleWorld [CallRequest sampleRequest alwaysOk])) !! "openai".
Proof.
  assert (Hr : reachable (run sampleWorld [CallRequest sampleRequest alwaysOk])).
  { exists sampleConfig, sampleWorld, [CallRequest sampleRequest alwaysOk].
    split; reflexivity. }
  split; [exact Hr|].
  apply (getStats_snapshot_survives_add_remove
           (run sampleWorld [CallRequest sampleRequest alwaysOk]) openai "openai" "openai" Hr).
Defined.

(** ** The health flag as a majority vote *)

Lemma rate_above_half (a n : nat) :
  Qgtb (natQ a / natQ (S n)) (1 # 2) = true <-> (S n < 2 * a)%nat.
Proof.
  unfold Qgtb. rewrite negb_true_iff, <- not_true_iff_false, Qle_bool_iff.
  unfold Qle, Qdiv, Qmult, Qinv, natQ, inject_Z.
  rewrite Nat2Z.inj_succ, <- Zpos_P_of_succ_nat. simpl.
  rewrite Pos.mul_1_l. pose proof (Zpos_P_of_succ_nat n) as Hp. lia.
Qed.

(** X28. After a statistics update a provider is flagged healthy exactly
    when its successes are a strict majority of its requests
    (2 * successful > total); a success rate of exactly one half, and any
    first request that fails, leave it flagged unhealthy. *)
Theorem updateStats_flags_strict_majority (s : ProviderStats.t) (success : bool)
    (rt now : Z) :
  let s' := updateRecord s success rt now in
  (ProviderStats.isHealthy s' = true
   <-> (ProviderStats.totalRequests s' < 2 * ProviderStats.successfulRequests s')%nat) /\
  (ProviderStats.totalRequests s' = (2 * ProviderStats.successfulRequests s')%nat ->
   ProviderStats.isHealthy s' = false) /\
  (ProviderStats.successfulRequests s = 0%nat -> success = false ->
   ProviderStats.isHealthy s' = false).
Proof.
  cbv zeta.
  assert (H : ProviderStats.isHealthy (updateRecord s success rt now) = true
              <-> (ProviderStats.totalRequests (updateRecord s success rt now)
                   < 2 * ProviderStats.successfulRequests (updateRecord s success rt now))%nat).
  { unfold updateRecord. destruct success; simpl; apply rate_above_half. }
  split; [exact H|]. split.
  - intros E. apply not_true_iff_false. intros Ht. apply H in Ht. lia.
  - intros E ->. apply not_true_iff_false. intros Ht. apply H in Ht.
    simpl in Ht. lia.
Qed.

(** ** Round-robin, request by request *)

Lemma request_answered_at_once (w : World) (req : LLMRequest.t)
    (env : nat -> AttemptEnv) (p : ProviderConfig.t) (s' : LoadBalancingStrategy)
    (a : BaseProvider.t) :
  0 < effectiveMaxRetries w ->
  selectProvider (LLMLoadBalancer.strategy (this w))
    (LoadBalancerConfig.providers (LLMLoadBalancer.config (this w)))
    (statsView w) (random (env 0%nat)) = (Return (Some p), s') ->
  LLMLoadBalancer.providers (this w) !! ProviderConfig.name p = Some a ->
  answered (settled (env 0%nat)) = true ->
  snd (request w req env) = [MakeRequest a req (attemptTimeout w p)] /\
  this (fst (fst (request w req env))) = LLMLoadBalancer.setStrategy (this w) s'.
Proof.
  intros Hmr Hsel Ha Hans. unfold request. fold (effectiveMaxRetries w).
  destruct (Z.to_nat (effectiveMaxRetries w)) as [|r] eqn:Er; [lia|].
  cbn [requestLoop].
  pose proof (tryBlock_this w req (env 0%nat)) as Hthis.
  destruct (tryBlock_effects w req (env 0%nat) p s' a Hsel Ha) as [Heff _].
  rewrite Hsel in Hthis. simpl in Hthis.
  assert (Hret : exists response, snd (fst (tryBlock w req (env 0%nat))) = Return response).
  { unfold tryBlock. rewrite Hsel. simpl. rewrite Ha. unfold makeRequestWithTimeout.
    destruct (settled (env 0%nat)) as [response| |]; try discriminate.
    exists response. reflexivity. }
  destruct Hret as [response Hret].
  destruct (tryBlock w req (env 0%nat)) as [[w1 outcome] effects].
  simpl in Heff, Hthis, Hret. subst outcome effects. simpl. split; [reflexivity | exact Hthis].
Qed.

Lemma serveAll_round_robin (w0 : World) (req : LLMRequest.t) :
  wellFormed w0 ->
  0 < effectiveMaxRetries w0 ->
  LoadBalancerConfig.providers (LLMLoadBalancer.config (this w0)) <> [] ->
  forall (envs : list (nat -> AttemptEnv)) (w : World) (c : nat),
    this w = LLMLoadBalancer.setStrategy (this w0) (RoundRobinStrategy c) ->
    (c < length (LoadBalancerConfig.providers (LLMLoadBalancer.config (this w0))))%nat ->
    (forall env, env ∈ envs -> answered (settled (env 0%nat)) = true) ->
    forall i, (i < length envs)%nat ->
      exists p a,
        LoadBalancerConfig.providers (LLMLoadBalancer.config (this w0))
          !! ((c + i) mod length (LoadBalancerConfig.providers
                                    (LLMLoadBalancer.config (this w0))))%nat = Some p /\
        LLMLoadBalancer.providers (this w0) !! ProviderConfig.name p = Some a /\
        serveAll w req envs !! i = Some [MakeRequest a req (attemptTimeout w0 p)].
Proof.
  intros (H1 & _) Hmr Hne.
  set (ps := LoadBalancerConfig.providers (LLMLoadBalancer.config (this w0))) in *.
  assert (Hpos : (0 < length ps)%nat) by (destruct ps; [congruence | simpl; lia]).
  induction envs as [|env envs IH]; intros w c Hthis Hc Hans i Hi; simpl in Hi; [lia|].
  destruct (lookup_lt_is_Some_2 ps c Hc) as [p Hp].
  assert (Hreg : registered w0 (ProviderConfig.name p)).
  { apply H1. exists p. split; [eapply list_elem_of_lookup_2; exact Hp | reflexivity]. }
  destruct Hreg as [a Ha].
  assert (Hsel : selectProvider (LLMLoadBalancer.strategy (this w))
                   (LoadBalancerConfig.providers (LLMLoadBalancer.config (this w)))
                   (statsView w) (random (env 0%nat))
                 = (Return (Some p), RoundRobinStrategy ((c + 1) mod length ps))).
  { rewrite Hthis. simpl. fold ps. unfold RoundRobinStrategy.selectProvider.
    destruct (Nat.eqb_spec (length ps) 0); [lia|]. rewrite Hp. reflexivity. }
  destruct (request_answered_at_once w req env p
              (RoundRobinStrategy ((c + 1) mod length ps)) a) as [Htrace Hthis'].
  { unfold effectiveMaxRetries. rewrite Hthis. exact Hmr. }
  { exact Hsel. }
  { rewrite Hthis. exact Ha. }
  { apply Hans. apply list_elem_of_here. }
  assert (Hto : attemptTimeout w p = attemptTimeout w0 p).
  { unfold attemptTimeout. rewrite Hthis. reflexivity. }
  cbn [serveAll].
  destruct (request w req env) as [[w' outcome] trace]. simpl in Htrace, Hthis'.
  destruct i as [|i].
  - exists p, a. rewrite Nat.add_0_r, Nat.mod_small by exact Hc.
    split; [exact Hp|]. split; [exact Ha|]. simpl. rewrite Htrace, Hto. reflexivity.
  - destruct (IH w' ((c + 1) mod length ps)%nat) with (i := i) as (q & b & Hq & Hb & Hs).
    + rewrite Hthis', Hthis. reflexivity.
    + apply Nat.mod_upper_bound. lia.
    + intros e He. apply Hans. apply list_elem_of_further. exact He.
    + lia.
    + exists q, b. split; [|split; [exact Hb | exact Hs]].
      rewrite <- Hq. f_equal. rewrite Nat.Div0.add_mod_idemp_l. f_equal. lia.
Qed.

(** X29. Round-robin seen from the caller: on a freshly constructed
    round-robin balancer with N providers, when every request is answered at
    its first attempt, the i-th request (from 0) makes exactly one adapter
    call, to the adapter of [providers[i mod N]]. So N requests in a row
    reach each provider once, in configured order. *)
Theorem round_robin_serves_in_turn (config : LoadBalancerConfig.t) (w0 : World)
    (req : LLMRequest.t) (envs : list (nat -> AttemptEnv)) (i : nat) :
  construct config = Return w0 ->
  LoadBalancerConfig.strategy config = RoundRobin ->
  LoadBalancerConfig.providers config <> [] ->
  0 < jsOrNum (LoadBalancerConfig.maxRetries config) 3 ->
  (forall env, env ∈ envs -> answered (settled (env 0%nat)) = true) ->
  (i < length envs)%nat ->
  exists p a,
    LoadBalancerConfig.providers config
      !! (i mod length (LoadBalancerConfig.providers config))%nat = Some p /\
    LLMLoadBalancer.providers (this w0) !! ProviderConfig.name p = Some a /\
    ProviderConfig.name (BaseProvider.config a) = ProviderConfig.name p /\
    serveAll w0 req envs !! i = Some [MakeRequest a req (attemptTimeout w0 p)].
Proof.
  intros Hc Hk Hne Hmr Hans Hi.
  destruct (construct_state _ _ Hc) as (Hcfg & _).
  pose proof (construct_sound _ _ Hc) as (Hwf & (_ & _ & _ & N) & Hfit).
  assert (Hs : LLMLoadBalancer.strategy (this w0) = RoundRobinStrategy 0).
  { revert Hc. unfold construct.
    destruct (initializeProviders _ ∅ ∅ []) as [[[providers stats] h]|]; [|discriminate].
    rewrite Hk. simpl. intros [= <-]. reflexivity. }
  assert (Hpos : (0 < length (LoadBalancerConfig.providers config))%nat).
  { destruct (LoadBalancerConfig.providers config); [congruence | simpl; lia]. }
  destruct (serveAll_round_robin w0 req Hwf) with (envs := envs) (w := w0) (c := 0%nat) (i := i)
    as (p & a & Hp & Ha & Hserve).
  - unfold effectiveMaxRetries. rewrite Hcfg. exact Hmr.
  - rewrite Hcfg. exact Hne.
  - rewrite <- Hs. destruct w0 as [[providers s stats cfg] h]. reflexivity.
  - rewrite Hcfg. exact Hpos.
  - exact Hans.
  - exact Hi.
  - rewrite Hcfg in Hp. simpl in Hp. exists p, a.
    split; [exact Hp|]. split; [exact Ha|]. split; [exact (N _ _ Ha) | exact Hserve].
Qed.

Example construct_three : construct threeProviders = Return threeWorld.
Proof. reflexivity. Qed.

(** Three providers, four answered requests: the fourth goes to the first
    provider again. *)
Lemma round_robin_serves_in_turn_witness :
  construct threeProviders = Return threeWorld /\
  LoadBalancerConfig.strategy threeProviders = RoundRobin /\
  LoadBalancerConfig.providers threeProviders <> [] /\
  0 < jsOrNum (LoadBalancerConfig.maxRetries threeProviders) 3 /\
  (forall env, env ∈ replicate 4 alwaysOk -> answered (settled (env 0%nat)) = true) /\
  (3 < length (replicate 4 alwaysOk))%nat /\
  exists p a,
    LoadBalancerConfig.providers threeProviders
      !! (3 mod length (LoadBalancerConfig.providers threeProviders))%nat = Some p /\
    LLMLoadBalancer.providers (this threeWorld) !! ProviderConfig.name p = Some a /\
    ProviderConfig.name (BaseProvider.config a) = ProviderConfig.name p /\
    serveAll threeWorld sampleRequest (replicate 4 alwaysOk) !! 3%nat
    = Some [MakeRequest a sampleRequest (attemptTimeout threeWorld p)].
Proof.
  assert (Hans : forall env, env ∈ replicate 4 alwaysOk ->
            answered (settled (env 0%nat)) = true).
  { intros env He. apply elem_of_replicate in He as [-> _]. reflexivity. }
  split; [reflexivity|]. split; [reflexivity|]. split; [discriminate|].
  split; [reflexivity|]. split; [exact Hans|]. split; [simpl; lia|].
  apply (round_robin_serves_in_turn threeProviders threeWorld sampleRequest
           (replicate 4 alwaysOk) 3).
  - reflexivity.
  - reflexivity.
  - discriminate.
  - reflexivity.
  - exact Hans.
  - simpl. lia.
Defined.

Example fourth_request_goes_to_first_provider :
  serveAll threeWorld sampleRequest (replicate 4 alwaysOk) !! 3%nat
  = Some [MakeRequest (BaseProvider.mk OpenAIProvider openai) sampleRequest 30000].
Proof. vm_compute. reflexivity. Qed.

(** ** What a request leaves alone *)

(** X30. A request changes nothing of the balancer but the strategy's own
    state and the contents of statistics records: the adapters, the
    configuration, the statistics table and the number of records are the
    same after it, whatever its outcome. *)
Theorem request_leaves_registry (w : World) (req : LLMRequest.t)
    (env : nat -> AttemptEnv) :
  let w' := fst (fst (request w req env)) in
  sameRegistry w w' /\ length (heap w') = length (heap w).
Proof.
  cbv zeta. split.
  - unfold request. apply requestLoop_registry.
  - apply request_heap_length.
Qed.
